(** * tsw_bot: the visual state-detection and capture engine

    A shallow embedding of the perception/action core of the bot
    (utils.py, navigator.py, service_loop.py, schedule_capture.py) and the
    properties its specification states about it.

    Pixel buffers are numpy arrays of shape (h, w, 3); they are modelled
    as a width together with a list of rows of RGB triples.  The desktop
    (pyautogui) is modelled as a deterministic environment that answers
    every observation from the history of actuations and the clock. *)

From Stdlib Require Import String ZArith QArith List Bool Lia Arith.
From Stdlib Require Import Qabs Sorted.
Import ListNotations.
Local Open Scope Z_scope.

(** ** Floating point results

    Every float the code compares is the mean of integer-valued samples
    (numpy computes it as an exact integer sum divided by the sample
    count), [float("inf")], or the [nan] that [np.mean] yields on an empty
    array.  Two such quotients are ordered by IEEE comparison exactly as
    the rationals they round are, as long as sum and count stay far below
    2^53, so a mean is kept as a rational. *)
Module Float.

Inductive fval : Type :=
| FNaN
| FInf
| FQ (q : Q).

Definition Qltb (a b : Q) : bool :=
  (Qnum a * Zpos (Qden b) <? Qnum b * Zpos (Qden a))%Z.

(** [x < y]: every comparison with nan is false. *)
Definition flt (x y : fval) : bool :=
  match x, y with
  | FQ a, FQ b => Qltb a b
  | FQ _, FInf => true
  | _, _ => false
  end.

(** [x > y]. *)
Definition fgt (x y : fval) : bool := flt y x.

(** [x >= y]. *)
Definition fge (x y : fval) : bool :=
  match x, y with
  | FQ a, FQ b => negb (Qltb a b)
  | FInf, FQ _ => true
  | FInf, FInf => true
  | _, _ => false
  end.

(** [np.mean] of [count] samples whose sum is [total]. *)
Definition np_mean (total : Z) (count : nat) : fval :=
  match count with
  | O => FNaN
  | S _ => FQ (total # Pos.of_nat count)
  end.

End Float.
Export Float.

(** ** numpy arrays of shape (h, w, 3) *)
Module Numpy.

Definition pixel : Type := (Z * Z * Z)%type.

Record image : Type := mkImage {
  img_w : nat;
  img_rows : list (list pixel)
}.

Definition img_h (a : image) : nat := length (img_rows a).

(** [a.shape], without the constant channel count. *)
Definition shape (a : image) : nat * nat := (img_h a, img_w a).

Definition shape_eqb (a b : image) : bool :=
  Nat.eqb (img_h a) (img_h b) && Nat.eqb (img_w a) (img_w b).

(** Every row of an array has the array's width. *)
Definition wf (a : image) : Prop :=
  Forall (fun r => length r = img_w a) (img_rows a).

Inductive exn : Type :=
| ValueError.

Inductive res (A : Type) : Type :=
| Ok (a : A)
| Err (e : exn).
Arguments Ok {A} a.
Arguments Err {A} e.

(** Broadcasting of one dimension: equal, or one of the two is 1. *)
Definition bdim (a b : nat) : option nat :=
  if Nat.eqb a b then Some a
  else if Nat.eqb a 1 then Some b
  else if Nat.eqb b 1 then Some a
  else None.

(** Stretches an axis of length 1 to length [n]. *)
Definition bcast {A : Type} (n : nat) (l : list A) : list A :=
  if Nat.eqb (length l) n then l
  else match l with
       | x :: _ => repeat x n
       | [] => []
       end.

Definition zsum (l : list Z) : Z := fold_right Z.add 0 l.

(** Sum over the three channels of [|p - q|], on values widened by
    [astype(float)] or [astype(int)], so without uint8 wrap-around. *)
Definition px_absdiff (p q : pixel) : Z :=
  let '(r1, g1, b1) := p in
  let '(r2, g2, b2) := q in
  Z.abs (r1 - r2) + Z.abs (g1 - g2) + Z.abs (b1 - b2).

Definition row_absdiff (cd : nat) (ra rb : list pixel) : Z :=
  zsum (map (fun pq => px_absdiff (fst pq) (snd pq))
            (combine (bcast cd ra) (bcast cd rb))).

Definition absdiff_sum (rd cd : nat) (a b : image) : Z :=
  zsum (map (fun rr => row_absdiff cd (fst rr) (snd rr))
            (combine (bcast rd (img_rows a)) (bcast rd (img_rows b)))).

(** [np.mean(np.abs(a.astype(float) - b.astype(float)))]: raises
    ValueError when the shapes do not broadcast, is nan when the
    broadcast array is empty. *)
Definition mean_abs_diff (a b : image) : res fval :=
  match bdim (img_h a) (img_h b), bdim (img_w a) (img_w b) with
  | Some rd, Some cd =>
      Ok (np_mean (absdiff_sum rd cd a b) (rd * cd * 3))
  | _, _ => Err ValueError
  end.

(** [l[start:stop]] for non-negative bounds. *)
Definition slice {A : Type} (start stop : nat) (l : list A) : list A :=
  firstn (stop - start) (skipn start l).

(** [l[:stop]] for any integer [stop]: a negative bound counts from the
    end. *)
Definition slice_to {A : Type} (stop : Z) (l : list A) : list A :=
  if stop <? 0
  then firstn (Z.to_nat (Z.of_nat (length l) + stop)) l
  else firstn (Z.to_nat stop) l.

(** [l[start:]] for any integer [start]. *)
Definition slice_from {A : Type} (start : Z) (l : list A) : list A :=
  if start <? 0
  then skipn (Z.to_nat (Z.of_nat (length l) + start)) l
  else skipn (Z.to_nat start) l.

(** [a[start:stop, :, :]]. *)
Definition rows_slice (start stop : nat) (a : image) : image :=
  mkImage (img_w a) (slice start stop (img_rows a)).

(** [a[:, left:right, :]]. *)
Definition cols_slice (left right : nat) (a : image) : image :=
  mkImage (Nat.min right (img_w a) - left)
          (map (slice left right) (img_rows a)).

(** [np.all(np.abs(p - color) <= tol)] over the channels of a pixel. *)
Definition px_near (color : pixel) (tol : Z) (p : pixel) : bool :=
  let '(r, g, b) := p in
  let '(cr, cg, cb) := color in
  (Z.abs (r - cr) <=? tol) && (Z.abs (g - cg) <=? tol)
  && (Z.abs (b - cb) <=? tol).

(** [np.mean(match)] of a boolean vector. *)
Definition mean_bool (l : list bool) : fval :=
  np_mean (Z.of_nat (length (filter (fun b => b) l))) (length l).

(** [np.vstack([a, b])]: the widths must agree. *)
Definition vstack (a b : image) : res image :=
  if Nat.eqb (img_w a) (img_w b)
  then Ok (mkImage (img_w a) (img_rows a ++ img_rows b))
  else Err ValueError.

End Numpy.
Export Numpy.

(** ** config.py *)
Module Config.

Definition SCREEN_TIMEOUT : Z := 60000.
Definition CONFIDENCE : Q := 4 # 5.
Definition CONFIDENCE_LOW : Q := 3 # 5.

Definition REF_SCHEDULE : string := "references/schedule.png".

Definition SCHEDULE_LEFT : Z := 2053.
Definition SCHEDULE_TOP : Z := 235.
Definition SCHEDULE_RIGHT : Z := 3675.
Definition SCHEDULE_BOTTOM : Z := 902.
Definition SCHEDULE_TOP_BORDER_RGB : pixel := (5, 151, 68).
Definition SCHEDULE_BOTTOM_BORDER_RGB : pixel := (197, 228, 233).
Definition SCHEDULE_COLOR_TOLERANCE : Z := 20.

Definition TRAIN_BOX_LEFT : Z := 3218.
Definition TRAIN_BOX_TOP : Z := 418.
Definition TRAIN_BOX_WIDTH : Z := 450.
Definition TRAIN_BOX_HEIGHT : Z := 472.
Definition TRAIN_SCROLL_PER_BOX : Z := -310.
Definition TRAIN_FIRST_Y_OFFSET : Z := 47.
Definition TRAIN_BOX_STRIDE : Z := 94.

(** Total click attempts before giving up. *)
Definition RETRY_MAX : nat := 3.
(** Time to wait for a screen change before clicking again. *)
Definition RETRY_WAIT : Z := 30000.

End Config.

(** ** The desktop

    Durations are in milliseconds.  What the screen shows is a function of
    the actuations issued so far and of the time; every pyautogui call
    takes [call_ms].  A computation ends with a value, with an exception,
    or, for the loops that run against the clock, out of the fuel it was
    given; with enough fuel these loops come to their own end. *)
Module Desktop.

Inductive action : Type :=
| MoveTo (x y : Z)
| Scroll (amount : Z)
| MouseDown
| MouseUp
| Press (key : string).

(** (left, top, width, height) *)
Definition box : Type := (Z * Z * Z * Z)%type.

(** The three ways [pyautogui.locateOnScreen] ends. *)
Inductive locate_result : Type :=
| ImageNotFoundException
| LocNone
| Located (loc : box).

Record desktop : Type := mkDesktop {
  locate_at : string -> Q -> list action -> Z -> locate_result;
  screenshot_at : box -> list action -> Z -> image;
  call_ms : Z
}.

(** The clock, the actuations so far (newest first) and the images
    written to disk (newest first). *)
Record world : Type := mkWorld {
  clock : Z;
  hist : list action;
  files : list (string * image)
}.

Inductive outcome (A : Type) : Type :=
| Done (a : A) (w : world)
| Raised (e : exn) (w : world)
| OutOfFuel.
Arguments Done {A} a w.
Arguments Raised {A} e w.
Arguments OutOfFuel {A}.

Definition M (A : Type) : Type := world -> outcome A.

Definition ret {A : Type} (a : A) : M A := fun w => Done a w.

Definition bind {A B : Type} (m : M A) (k : A -> M B) : M B :=
  fun w =>
    match m w with
    | Done a w' => k a w'
    | Raised e w' => Raised e w'
    | OutOfFuel => OutOfFuel
    end.

Definition lift {A : Type} (r : res A) : M A :=
  fun w => match r with Ok a => Done a w | Err e => Raised e w end.

Definition out_of_fuel {A : Type} : M A := fun _ => OutOfFuel.

Definition advance (ms : Z) (w : world) : world :=
  mkWorld (clock w + ms) (hist w) (files w).

Definition record (a : action) (w : world) : world :=
  mkWorld (clock w) (a :: hist w) (files w).

(** [time.sleep] *)
Definition sleep (ms : Z) : M unit := fun w => Done tt (advance ms w).

(** [time.time()] *)
Definition time_time : M Z := fun w => Done (clock w) w.

Definition save (path : string) (img : image) : M unit :=
  fun w => Done tt (mkWorld (clock w) (hist w) ((path, img) :: files w)).

Section Calls.
Variable env : desktop.

Definition actuate (a : action) : M unit :=
  fun w => Done tt (advance (call_ms env) (record a w)).

Definition moveTo (x y : Z) : M unit := actuate (MoveTo x y).
Definition scroll (amount : Z) : M unit := actuate (Scroll amount).
Definition mouseDown : M unit := actuate MouseDown.
Definition mouseUp : M unit := actuate MouseUp.
Definition press (key : string) : M unit := actuate (Press key).

Definition locateOnScreen (path : string) (confidence : Q)
  : M locate_result :=
  fun w => Done (locate_at env path confidence (hist w) (clock w))
                (advance (call_ms env) w).

Definition screenshot (region : box) : M image :=
  fun w => Done (screenshot_at env region (hist w) (clock w))
                (advance (call_ms env) w).
End Calls.

(** [pyautogui.center] *)
Definition center (loc : box) : Z * Z :=
  let '(x0, y0, width, height) := loc in
  (x0 + width / 2, y0 + height / 2).

Definition is_click (a : action) : bool :=
  match a with MouseDown => true | _ => false end.

Definition is_release (a : action) : bool :=
  match a with MouseUp => true | _ => false end.

(** Number of mouseDown actions issued so far. *)
Definition clicks (w : world) : nat := length (filter is_click (hist w)).

(** Number of mouseUp actions issued so far. *)
Definition releases (w : world) : nat :=
  length (filter is_release (hist w)).

End Desktop.
Export Desktop.

Declare Scope py_scope.
Notation "x <- m ;; k" := (bind m (fun x => k))
  (at level 61, m at next level, right associativity) : py_scope.
Notation "m ;;; k" := (bind m (fun _ => k))
  (at level 61, right associativity) : py_scope.
Local Open Scope py_scope.

(** ** utils.py *)
Module Utils.
Import Config.

Section WithDesktop.
Variable env : desktop.

(** Takes a screenshot and scores the reference against it; the score
    is only printed. *)
Definition _get_best_confidence (image_path : string) : M unit :=
  _ <- screenshot env (0, 0, 0, 0) ;; ret tt.

Fixpoint wait_for_image_loop (fuel : nat) (image_path : string)
    (timeout : Z) (confidence : Q) (interval : Z)
    (start : Z) (attempts : nat) : M (option box) :=
  match fuel with
  | O => out_of_fuel
  | S fuel' =>
      now <- time_time ;;
      if now - start <? timeout then
        r <- locateOnScreen env image_path confidence ;;
        match r with
        | Located location => ret (Some location)
        | _ =>
            let attempts := S attempts in
            (if Nat.eqb (attempts mod 5) 0
             then _get_best_confidence image_path else ret tt) ;;;
            sleep interval ;;;
            wait_for_image_loop fuel' image_path timeout confidence
                                interval start attempts
        end
      else
        _get_best_confidence image_path ;;; ret None
  end.

Definition wait_for_image (fuel : nat) (image_path : string)
    (timeout : Z) (confidence : Q) (interval : Z) : M (option box) :=
  start <- time_time ;;
  wait_for_image_loop fuel image_path timeout confidence interval
                      start 0.

Fixpoint _screen_changed_loop (fuel : nat) (image_path : string)
    (confidence : Q) (wait_time check_interval start : Z) : M bool :=
  match fuel with
  | O => out_of_fuel
  | S fuel' =>
      now <- time_time ;;
      if now - start <? wait_time then
        sleep check_interval ;;;
        r <- locateOnScreen env image_path confidence ;;
        match r with
        | Located _ =>
            _screen_changed_loop fuel' image_path confidence wait_time
                                 check_interval start
        | _ => ret true
        end
      else ret false
  end.

Definition _screen_changed (fuel : nat) (image_path : string)
    (confidence : Q) (wait_time check_interval : Z) : M bool :=
  start <- time_time ;;
  _screen_changed_loop fuel image_path confidence wait_time
                       check_interval start.

(** The body of [for attempt in range(1, RETRY_MAX + 1)], over the
    attempts still to run. *)
Fixpoint click_attempts (fuel : nat) (image_path : string)
    (confidence : Q) (click_duration : Z) (verify : bool)
    (attempts : list nat) (location : box) : M bool :=
  match attempts with
  | [] => ret false
  | attempt :: rest =>
      let '(cx, cy) := center location in
      moveTo env cx cy ;;;
      sleep 500 ;;;
      mouseDown env ;;;
      sleep click_duration ;;;
      mouseUp env ;;;
      if negb verify then ret true
      else
        changed <- _screen_changed fuel image_path confidence
                                   RETRY_WAIT 2000 ;;
        if changed then ret true
        else if Nat.ltb attempt RETRY_MAX then
          r <- locateOnScreen env image_path confidence ;;
          match r with
          | ImageNotFoundException => ret true
          | LocNone =>
              click_attempts fuel image_path confidence click_duration
                             verify rest location
          | Located new_loc =>
              click_attempts fuel image_path confidence click_duration
                             verify rest new_loc
          end
        else ret false
  end.

Definition wait_and_click (fuel : nat) (image_path : string)
    (timeout : Z) (confidence : Q) (interval click_duration : Z)
    (verify : bool) : M bool :=
  location <- wait_for_image fuel image_path timeout confidence
                             interval ;;
  match location with
  | None => ret false
  | Some location =>
      click_attempts fuel image_path confidence click_duration verify
                     (seq 1 RETRY_MAX) location
  end.

End WithDesktop.
End Utils.

(** ** schedule_capture.py *)
Module ScheduleCapture.
Import Config.

Definition SCHEDULE_MAX_WIDTH : nat := 1470.
Definition SEPARATOR_RGB : pixel := (19, 44, 57).
Definition SEPARATOR_TOL : Z := 20.

Definition BOX_COLORS : list pixel :=
  [SCHEDULE_BOTTOM_BORDER_RGB; SCHEDULE_TOP_BORDER_RGB].

Definition schedule_region : box :=
  (SCHEDULE_LEFT, SCHEDULE_TOP,
   SCHEDULE_RIGHT - SCHEDULE_LEFT, SCHEDULE_BOTTOM - SCHEDULE_TOP).

(** [prev_img[row:row + band_height, :, :]] against the band. *)
Definition strip_diff (prev_img band : image) (band_height row : nat)
  : res fval :=
  mean_abs_diff (rows_slice row (row + band_height) prev_img) band.

(** The body of [for row in range(0, h - band_height)]. *)
Fixpoint slide_band (prev_img band : image) (band_height : nat)
    (rows : list nat) (best_row : Z) (best_diff : fval)
  : res (Z * fval) :=
  match rows with
  | [] => Ok (best_row, best_diff)
  | row :: rest =>
      match strip_diff prev_img band band_height row with
      | Err e => Err e
      | Ok diff =>
          if flt diff best_diff
          then slide_band prev_img band band_height rest
                          (Z.of_nat row) diff
          else slide_band prev_img band band_height rest
                          best_row best_diff
      end
  end.

Definition band_start : nat := 5.

Definition band_of (curr_img : image) (band_height : nat) : image :=
  rows_slice band_start (band_start + band_height) curr_img.

Definition find_overlap (prev_img curr_img : image) (band_height : nat)
  : res Z :=
  let h := img_h prev_img in
  let band := band_of curr_img band_height in
  match slide_band prev_img band band_height (seq 0 (h - band_height))
                   (-1) FInf with
  | Err e => Err e
  | Ok (best_row, best_diff) =>
      if flt best_diff (FQ 5)
      then Ok (Z.of_nat h - best_row + Z.of_nat band_start)
      else Ok 0
  end.

(** Share of the central 80% of a row of pixels that is within [tol] of
    [color], compared with 0.3. *)
Definition row_matches (color : pixel) (tol : Z) (w : nat)
    (pixels : list pixel) : bool :=
  let left := (w / 10)%nat in
  let right := (w - w / 10)%nat in
  fgt (mean_bool (map (px_near color tol) (slice left right pixels)))
      (FQ (3 # 10)).

Definition is_separator_row (img : image) (row : nat) : bool :=
  row_matches SEPARATOR_RGB SEPARATOR_TOL (img_w img)
              (nth row (img_rows img) []).

(** [0 <= row < h and is_separator_row(img, row)] *)
Definition separator_at (img : image) (row : Z) : bool :=
  (0 <=? row) && (row <? Z.of_nat (img_h img))
  && is_separator_row img (Z.to_nat row).

Fixpoint nearest_scan (img : image) (target_row : Z)
    (offsets : list nat) : Z :=
  match offsets with
  | [] => target_row
  | offset :: rest =>
      if separator_at img (target_row - Z.of_nat offset)
      then target_row - Z.of_nat offset
      else if separator_at img (target_row + Z.of_nat offset)
      then target_row + Z.of_nat offset
      else nearest_scan img target_row rest
  end.

Definition find_nearest_separator (img : image) (target_row : Z)
    (search_range : nat) : Z :=
  nearest_scan img target_row (seq 0 search_range).

(** One round of the loop of [stitch_images]: [result] is the
    accumulator, [prev] and [curr] are [images[i - 1]] and
    [images[i]]. *)
Definition stitch_step (result prev curr : image) : res image :=
  match find_overlap prev curr 40 with
  | Err e => Err e
  | Ok overlap =>
      let '(result, new_part) :=
        if 0 <? overlap then
          let sep_start := find_nearest_separator curr overlap 50 in
          let new_part :=
            mkImage (img_w curr) (slice_from sep_start (img_rows curr)) in
          let prev_sep := Z.of_nat (img_h result) - overlap + sep_start in
          let prev_sep := find_nearest_separator result prev_sep 50 in
          (mkImage (img_w result) (slice_to prev_sep (img_rows result)),
           new_part)
        else (result, curr) in
      if Nat.ltb 0 (img_h new_part)
      then vstack result new_part
      else Ok result
  end.

Fixpoint stitch_loop (result prev : image) (rest : list image)
  : res image :=
  match rest with
  | [] => Ok result
  | curr :: rest' =>
      match stitch_step result prev curr with
      | Err e => Err e
      | Ok result' => stitch_loop result' curr rest'
      end
  end.

(** [None] is Python's [None]; an image stands for the PIL image made
    from the array. *)
Definition stitch_images (images : list image) : res (option image) :=
  match images with
  | [] => Ok None
  | [only] => Ok (Some only)
  | first :: rest =>
      match stitch_loop first first rest with
      | Err e => Err e
      | Ok result => Ok (Some result)
      end
  end.

Definition row_is_box (tol : Z) (w : nat) (pixels : list pixel) : bool :=
  existsb (fun color => row_matches color tol w pixels) BOX_COLORS.

(** The loop of [crop_schedule], over the rows still to visit, from the
    bottom up; [h] is [img.shape[0]]. *)
Fixpoint crop_scan (img : image) (h : nat) (rows : list nat)
    (last_box_row : nat) : nat :=
  match rows with
  | [] => last_box_row
  | row :: rest =>
      let last_box_row :=
        if row_is_box SCHEDULE_COLOR_TOLERANCE (img_w img)
                      (nth row (img_rows img) [])
        then S row else last_box_row in
      if Nat.ltb last_box_row h then last_box_row
      else crop_scan img h rest last_box_row
  end.

Definition last_box_row_of (img : image) : nat :=
  crop_scan img (img_h img) (rev (seq 0 (img_h img))) (img_h img).

Definition crop_schedule (img : image) : image :=
  let last_box_row := last_box_row_of img in
  let width := Nat.min (img_w img) SCHEDULE_MAX_WIDTH in
  mkImage width (map (firstn width) (firstn last_box_row (img_rows img))).

Definition frames_match (a b : image) (threshold : Q) : res bool :=
  if negb (shape_eqb a b) then Ok false
  else match mean_abs_diff a b with
       | Err e => Err e
       | Ok diff => Ok (flt diff (FQ threshold))
       end.

Section WithDesktop.
Variable env : desktop.
(** [os.path.join] *)
Variable path_join : string -> string -> string.

Definition capture_schedule_region : M image :=
  screenshot env schedule_region.

Definition scroll_schedule_down (amount : Z) : M unit :=
  let center_x := (SCHEDULE_LEFT + SCHEDULE_RIGHT) / 2 in
  let center_y := (SCHEDULE_TOP + SCHEDULE_BOTTOM) / 2 in
  moveTo env center_x center_y ;;;
  sleep 300 ;;;
  scroll env amount ;;;
  sleep 2000.

(** The body of [for frame_idx in range(max_frames)], over the rounds
    still to run. *)
Fixpoint capture_frames (rounds : nat) (frames : list image)
  : M (list image) :=
  match rounds with
  | O => ret frames
  | S rounds' =>
      img <- capture_schedule_region ;;
      same <- match frames with
              | [] => ret false
              | _ => lift (frames_match (last frames img) img 5)
              end ;;
      if same then ret frames
      else
        scroll_schedule_down (-2000) ;;;
        capture_frames rounds' (frames ++ [img])
  end.

(** The part of [capture_schedule] that follows the capture loop. *)
Definition save_stitched (output_dir : string) (frames : list image)
  : M (option string) :=
  stitched <- lift (stitch_images frames) ;;
  match stitched with
  | None => ret None
  | Some stitched =>
      let stitched_arr := crop_schedule stitched in
      let output_path := path_join output_dir "2_schedule.png" in
      save output_path stitched_arr ;;;
      press env "escape" ;;;
      sleep 2000 ;;;
      ret (Some output_path)
  end.

Definition capture_schedule (fuel : nat) (output_dir : string)
  : M (option string) :=
  press env "escape" ;;;
  sleep 4000 ;;;
  found <- Utils.wait_and_click env fuel REF_SCHEDULE SCREEN_TIMEOUT
             CONFIDENCE 1000 200 true ;;
  if negb found then ret None
  else
    sleep 3000 ;;;
    frames <- capture_frames 20 [] ;;
    save_stitched output_dir frames.

End WithDesktop.
End ScheduleCapture.

(** The capture region of the train scroll box and the point the wheel is
    turned at, shared by navigator.py and service_loop.py. *)
Module TrainBox.
Import Config.

Definition region : box :=
  (TRAIN_BOX_LEFT, TRAIN_BOX_TOP, TRAIN_BOX_WIDTH, TRAIN_BOX_HEIGHT).
Definition center_x : Z := TRAIN_BOX_LEFT + TRAIN_BOX_WIDTH / 2.
Definition center_y : Z := TRAIN_BOX_TOP + TRAIN_BOX_HEIGHT / 2.

End TrainBox.

(** ** navigator.py *)
Module Navigator.
Import Config.

(** What [click_train] prints before it clicks. *)
Record seek_report : Type := mkReport {
  scrolls_done : nat;
  offset : Z;
  click_y : Z
}.

Section WithDesktop.
Variable env : desktop.

(** One round of the scroll loop up to the comparison: the capture
    before, the scroll by one box, the capture after, and whether the
    two are nearly the same. *)
Definition scroll_one_box : M bool :=
  before <- screenshot env TrainBox.region ;;
  moveTo env TrainBox.center_x TrainBox.center_y ;;;
  sleep 300 ;;;
  scroll env TRAIN_SCROLL_PER_BOX ;;;
  sleep 1000 ;;;
  after <- screenshot env TrainBox.region ;;
  diff <- lift (mean_abs_diff before after) ;;
  ret (flt diff (FQ 5)).

(** The body of [for _ in range(index)], over the rounds still to
    run. *)
Fixpoint seek_loop (rounds : nat) (scrolls_done : nat) : M nat :=
  match rounds with
  | O => ret scrolls_done
  | S rounds' =>
      stopped <- scroll_one_box ;;
      if stopped then ret scrolls_done
      else seek_loop rounds' (S scrolls_done)
  end.

Definition click_train (index : nat) : M seek_report :=
  let click_x := TrainBox.center_x in
  moveTo env TrainBox.center_x TrainBox.center_y ;;;
  sleep 300 ;;;
  scroll env (- TRAIN_SCROLL_PER_BOX * 30) ;;;
  sleep 1500 ;;;
  scrolls_done <- seek_loop index 0 ;;
  let offset := Z.of_nat index - Z.of_nat scrolls_done in
  let click_y :=
    TRAIN_BOX_TOP + TRAIN_FIRST_Y_OFFSET + offset * TRAIN_BOX_STRIDE in
  moveTo env click_x click_y ;;;
  sleep 500 ;;;
  mouseDown env ;;;
  sleep 200 ;;;
  mouseUp env ;;;
  sleep 5000 ;;;
  ret (mkReport scrolls_done offset click_y).

End WithDesktop.
End Navigator.

(** ** service_loop.py *)
Module ServiceLoop.
Import Config.

(** The run detection of [_count_visible_trains]: [r] is the row index,
    [runs] the half-open runs found so far. *)
Fixpoint scan_runs (row_has_border : list bool) (r : nat) (in_run : bool)
    (run_start : nat) (runs : list (nat * nat)) : list (nat * nat) :=
  match row_has_border with
  | [] => if in_run then runs ++ [(run_start, r)] else runs
  | flag :: rest =>
      if flag && negb in_run
      then scan_runs rest (S r) true r runs
      else if negb flag && in_run
      then scan_runs rest (S r) false run_start
                     (runs ++ [(run_start, r)])
      else scan_runs rest (S r) in_run run_start runs
  end.

Definition _count_visible_trains (img : image) : nat :=
  let border_rgb : pixel := (222, 222, 222) in
  let border_tol := 20 in
  let min_entry_height := 40%nat in
  let strip := cols_slice 0 3 img in
  let row_has_border :=
    map (existsb (px_near border_rgb border_tol)) (img_rows strip) in
  let runs := scan_runs row_has_border 0 false 0 [] in
  length (filter (fun se => Nat.leb min_entry_height (snd se - fst se))
                 runs).

Section WithDesktop.
Variable env : desktop.

Definition _capture : M image := screenshot env TrainBox.region.

Definition _frames_match (a b : image) : res bool :=
  if negb (shape_eqb a b) then Ok false
  else match mean_abs_diff a b with
       | Err e => Err e
       | Ok diff => Ok (flt diff (FQ 5))
       end.

(** The body of [for _ in range(30)], over the rounds still to run. *)
Fixpoint count_loop (rounds : nat) (prev_img : image) (scrolls : nat)
  : M nat :=
  match rounds with
  | O => ret scrolls
  | S rounds' =>
      moveTo env TrainBox.center_x TrainBox.center_y ;;;
      sleep 300 ;;;
      scroll env TRAIN_SCROLL_PER_BOX ;;;
      sleep 1000 ;;;
      curr_img <- _capture ;;
      same <- lift (_frames_match prev_img curr_img) ;;
      if same then ret scrolls
      else count_loop rounds' curr_img (S scrolls)
  end.

(** The body of [count_trains]; [max_scrolls] is the ceiling of its loop,
    [range(30)] in the source. *)
Definition count_trains_upto (max_scrolls : nat) : M nat :=
  first_img <- _capture ;;
  let visible_count := _count_visible_trains first_img in
  scrolls <- count_loop max_scrolls first_img 0 ;;
  let total := (visible_count + scrolls)%nat in
  (if Nat.ltb 0 scrolls then
     moveTo env TrainBox.center_x TrainBox.center_y ;;;
     sleep 300 ;;;
     scroll env (- TRAIN_SCROLL_PER_BOX * Z.of_nat scrolls) ;;;
     sleep 1000
   else ret tt) ;;;
  ret total.

Definition count_trains : M nat := count_trains_upto 30.

End WithDesktop.
End ServiceLoop.

(** ** schedule_capture.py: the end of a separator *)
Module Separators.
Import ScheduleCapture.

(** The loop of [find_separator_end], for a row index that is not
    negative: [while row < h and is_separator_row(img, row): row += 1].
    It runs at most [h - sep_row] rounds, which are the [steps]. *)
Fixpoint separator_walk (img : image) (steps : nat) (row : nat) : nat :=
  match steps with
  | O => row
  | S steps' =>
      if Nat.ltb row (img_h img) && is_separator_row img row
      then separator_walk img steps' (S row)
      else row
  end.

Definition find_separator_end (img : image) (sep_row : nat) : nat :=
  separator_walk img (img_h img - sep_row) sep_row.

End Separators.

(** ** navigator.py: positions of the visible trains *)
Module TrainPositions.
Import Config.

(** The part of [_detect_train_positions] that follows the capture. *)
Definition train_positions (img : image) : list Z :=
  let border_rgb : pixel := (222, 222, 222) in
  let strip := cols_slice 0 3 img in
  let row_has_border :=
    map (existsb (px_near border_rgb 20)) (img_rows strip) in
  let runs := ServiceLoop.scan_runs row_has_border 0 false 0 [] in
  map (fun se => TRAIN_BOX_TOP + Z.of_nat (fst se + snd se) / 2)
      (filter (fun se => Nat.leb 40 (snd se - fst se)) runs).

Definition _detect_train_positions (env : desktop) : M (list Z) :=
  img <- screenshot env TrainBox.region ;;
  ret (train_positions img).

End TrainPositions.

(** ** service_loop.py: the service list *)
Module ServiceList.

Definition REF_TO_THE_TRAINS : string := "references/to_the_trains.png".
Definition SERVICE_LIST_LEFT : Z := 2059.
Definition SERVICE_LIST_RIGHT : Z := 2664.
Definition SERVICE_BOX_HEIGHT : Z := 59.
Definition SERVICE_BOX_BORDER_RGB : pixel := (87, 166, 208).
Definition SERVICE_BOX_COLOR_TOLERANCE : Z := 20.

(** [abs((r[0] + r[1]) / 2 - expected_center)]: a half-integer, exact as
    a float. *)
Definition center_distance (expected_center : Z) (run : nat * nat) : Q :=
  Qabs (inject_Z (Z.of_nat (fst run + snd run)) / 2
        - inject_Z expected_center).

(** [min(l, key=key)] with [best] the least so far: the first element of
    least key. *)
Fixpoint min_by {A : Type} (key : A -> Q) (best : A) (l : list A) : A :=
  match l with
  | [] => best
  | x :: rest =>
      if Qltb (key x) (key best) then min_by key x rest
      else min_by key best rest
  end.

Definition padding : Z := 30.

(** The rows of the grab that [screenshot_service_box] keeps. *)
Definition crop_to_box (img : image) : image :=
  let strip := cols_slice 0 5 img in
  let row_match :=
    map (existsb (px_near SERVICE_BOX_BORDER_RGB
                          SERVICE_BOX_COLOR_TOLERANCE))
        (img_rows strip) in
  let runs := ServiceLoop.scan_runs row_match 0 false 0 [] in
  match runs with
  | [] => img
  | first :: rest =>
      let expected_center := padding + SERVICE_BOX_HEIGHT / 2 in
      let best_run := min_by (center_distance expected_center) first rest in
      rows_slice (fst best_run) (snd best_run) img
  end.

(** [os.path.isfile(path)] and [np.array(Image.open(path))], for the
    images written so far; a PNG gives back the array saved in it. *)
Fixpoint lookup_file (path : string) (fs : list (string * image))
  : option image :=
  match fs with
  | [] => None
  | (p, img) :: rest =>
      if String.eqb p path then Some img else lookup_file path rest
  end.

Definition read_file (path : string) : M (option image) :=
  fun w => Done (lookup_file path (files w)) w.

Section WithDesktop.
Variable env : desktop.
Variable path_join : string -> string -> string.

Definition screenshot_service_box (output_dir : string) (y_center : Z)
  : M string :=
  let grab_left := SERVICE_LIST_LEFT in
  let grab_top := y_center - SERVICE_BOX_HEIGHT / 2 - padding in
  let grab_width := SERVICE_LIST_RIGHT - SERVICE_LIST_LEFT + 10 in
  let grab_height := SERVICE_BOX_HEIGHT + 2 * padding in
  img <- screenshot env (grab_left, grab_top, grab_width, grab_height) ;;
  let path := path_join output_dir "1_service.png" in
  save path (crop_to_box img) ;;;
  ret path.

Definition _service_is_duplicate (service_dir : string)
    (prev_service_img : option image) : M bool :=
  match prev_service_img with
  | None => ret false
  | Some prev =>
      let curr_path := path_join service_dir "1_service.png" in
      found <- read_file curr_path ;;
      match found with
      | None => ret false
      | Some curr_img =>
          if negb (shape_eqb curr_img prev) then ret false
          else
            diff <- lift (mean_abs_diff curr_img prev) ;;
            ret (flt diff (FQ 5))
      end
  end.

(** The body of [for attempt in range(6)], over the rounds still to
    run. *)
Fixpoint escape_loop (rounds : nat) : M unit :=
  match rounds with
  | O => ret tt
  | S rounds' =>
      r <- locateOnScreen env REF_TO_THE_TRAINS Config.CONFIDENCE ;;
      match r with
      | Located _ => ret tt
      | _ =>
          press env "escape" ;;;
          sleep 2000 ;;;
          escape_loop rounds'
      end
  end.

Definition _return_to_main_menu_from_menus : M unit := escape_loop 6.

End WithDesktop.
End ServiceList.

(** * Synthetic frames

    Small frames on which the functions are evaluated. *)
Module Synthetic.

Definition gray (v : Z) : pixel := (v, v, v).

(** [rows] rows of [cols] pixels of one colour. *)
Definition plain (color : pixel) (rows cols : nat) : image :=
  mkImage cols (repeat (repeat color cols) rows).

(** [np.vstack] of frames of one width. *)
Definition stack (a b : image) : image :=
  mkImage (img_w a) (img_rows a ++ img_rows b).

Definition pixel_eqb (p q : pixel) : bool :=
  let '(r1, g1, b1) := p in
  let '(r2, g2, b2) := q in
  (r1 =? r2) && (g1 =? g2) && (b1 =? b2).

Fixpoint list_eqb {A : Type} (eqb : A -> A -> bool) (l1 l2 : list A)
  : bool :=
  match l1, l2 with
  | [], [] => true
  | x :: l1', y :: l2' => eqb x y && list_eqb eqb l1' l2'
  | _, _ => false
  end.

(** The last [k] rows of [prev] are the first [k] rows of [curr]. *)
Definition tiles (prev curr : image) (k : nat) : bool :=
  Nat.leb k (img_h prev) && Nat.leb k (img_h curr)
  && list_eqb (list_eqb pixel_eqb)
              (skipn (img_h prev - k) (img_rows prev))
              (firstn k (img_rows curr)).

(** The two frames overlap by exactly [k] rows: [k] rows tile and no
    larger number does. *)
Definition visual_overlap (prev curr : image) (k : nat) : Prop :=
  tiles prev curr k = true
  /\ forall k', (k < k')%nat -> tiles prev curr k' = false.

(** A white frame of 50 rows, and the frame seen after a scroll that
    leaves its last 10 rows on screen, above 40 rows of a light gray. *)
Definition white_frame : image := plain (gray 255) 50 1.
Definition black_frame : image := plain (gray 0) 50 1.
Definition scrolled_frame : image :=
  stack (plain (gray 255) 10 1) (plain (gray 250) 40 1).

Definition light_blue : pixel := Config.SCHEDULE_BOTTOM_BORDER_RGB.
Definition black : pixel := gray 0.

(** A stitched schedule whose content ends at row 500, padded with
    blank rows to row 600. *)
Definition padded_schedule : image :=
  stack (plain light_blue 500 10) (plain black 100 10).

(** A stitched schedule with a box row at the top, four blank rows and
    a box row at the very bottom. *)
Definition box_at_bottom : image :=
  stack (plain light_blue 1 10)
        (stack (plain black 4 10) (plain light_blue 1 10)).

Definition dark_frame : image := plain (gray 10) 2 2.
Definition bright_frame : image := plain (gray 30) 2 2.

End Synthetic.

(** * Notions used to state the properties *)

(** The positions tried by [find_overlap]. *)
Definition positions (prev_img : image) (band_height : nat) : nat :=
  (img_h prev_img - band_height)%nat.

(** Row [row] of the image counts as a content-block row. *)
Definition box_row (img : image) (row : nat) : bool :=
  ScheduleCapture.row_is_box Config.SCHEDULE_COLOR_TOLERANCE (img_w img)
    (nth row (img_rows img) []).

(** A computation that leaves one component of the world as it was. *)
Definition keeps {X A : Type} (proj : world -> X) (m : M A) : Prop :=
  forall w a w', m w = Done a w' -> proj w' = proj w.

(** A component that the passing of time does not change. *)
Definition timeless {X : Type} (proj : world -> X) : Prop :=
  forall ms w, proj (advance ms w) = proj w.

(** The world after the five steps that click the centre of [loc]:
    move, pause, press, hold, release. *)
Definition click_world (env : desktop) (click_duration : Z) (loc : box)
    (w : world) : world :=
  let '(cx, cy) := center loc in
  advance (call_ms env)
    (record MouseUp
       (advance click_duration
          (advance (call_ms env)
             (record MouseDown
                (advance 500
                   (advance (call_ms env) (record (MoveTo cx cy) w))))))).

Definition is_located (r : locate_result) : bool :=
  match r with Located _ => true | _ => false end.

(** A computation that lets no exception escape. *)
Definition no_raise {A : Type} (m : M A) : Prop :=
  forall w e w', m w <> Raised e w'.

(** The amounts of the scroll actions of a history, newest first. *)
Fixpoint scroll_amounts (h : list action) : list Z :=
  match h with
  | [] => []
  | Scroll amount :: h' => amount :: scroll_amounts h'
  | _ :: h' => scroll_amounts h'
  end.

(** The world after the wheel has been turned by [amount] over the train
    box: move, pause, scroll, settle for [settle] ms. *)
Definition train_scroll_world (env : desktop) (amount settle : Z)
    (w : world) : world :=
  advance settle
    (advance (call_ms env)
       (record (Scroll amount)
          (advance 300
             (advance (call_ms env)
                (record (MoveTo TrainBox.center_x TrainBox.center_y) w))))).

(** What a capture of the train box shows in world [w]. *)
Definition train_box_shot (env : desktop) (w : world) : image :=
  screenshot_at env TrainBox.region (hist w) (clock w).

(** The captures that [n] scrolls by one box, each followed by a
    capture, yield from world [w] on. *)
Fixpoint frames_from (env : desktop) (n : nat) (w : world) : list image :=
  match n with
  | O => []
  | S n' =>
      let w1 := train_scroll_world env Config.TRAIN_SCROLL_PER_BOX 1000 w in
      train_box_shot env w1 :: frames_from env n' (advance (call_ms env) w1)
  end.

(** Number of frames at the head of the sequence [prev :: frames] that
    differ from their predecessor. *)
Fixpoint leading_changes (prev : image) (frames : list image) : nat :=
  match frames with
  | [] => O
  | f :: rest =>
      match ServiceLoop._frames_match prev f with
      | Ok true => O
      | _ => S (leading_changes f rest)
      end
  end.

(** The (before, after) captures that the [n] rounds of the loop of
    [click_train] yield from world [w] on. *)
Fixpoint seek_pairs (env : desktop) (n : nat) (w : world)
  : list (image * image) :=
  match n with
  | O => []
  | S n' =>
      let w1 :=
        train_scroll_world env Config.TRAIN_SCROLL_PER_BOX 1000
          (advance (call_ms env) w) in
      (train_box_shot env w, train_box_shot env w1)
      :: seek_pairs env n' (advance (call_ms env) w1)
  end.

(** [mean(|before - after|) < 5.0], the test that ends the loop of
    [click_train]. *)
Definition unmoved (shots : image * image) : bool :=
  match mean_abs_diff (fst shots) (snd shots) with
  | Ok diff => flt diff (FQ 5)
  | Err _ => false
  end.

(** Number of pairs at the head of the sequence whose two captures
    differ. *)
Fixpoint leading_moves (pairs : list (image * image)) : nat :=
  match pairs with
  | [] => O
  | shots :: rest => if unmoved shots then O else S (leading_moves rest)
  end.

(** ** A scrollable list

    The list is [max_offset] wheel clicks long: a scroll by [amount]
    moves it by [-amount] clicks and stops at either end.  It starts at
    the top. *)
Fixpoint offset_of (max_offset : Z) (h : list action) : Z :=
  match h with
  | [] => 0
  | Scroll amount :: h' =>
      Z.max 0 (Z.min max_offset (offset_of max_offset h' - amount))
  | _ :: h' => offset_of max_offset h'
  end.

(** Frame-changing scrolls by one box that [rounds] rounds make from
    offset [p]. *)
Fixpoint list_scrolls (max_offset : Z) (rounds : nat) (p : Z) : nat :=
  match rounds with
  | O => O
  | S rounds' =>
      if p <? max_offset
      then S (list_scrolls max_offset rounds'
                (Z.min max_offset (p - Config.TRAIN_SCROLL_PER_BOX)))
      else O
  end.

(** * Synthetic desktops *)
Module Scenes.

Definition button : box := (100, 200, 40, 20).
Definition blank : image := Synthetic.plain Synthetic.black 1 1.
Definition start : world := mkWorld 0 [] [].
Definition presses (h : list action) : nat := length (filter is_click h).

(** A button that ignores the first click and goes away at time 40000,
    some seconds after the second. *)
Definition stuck_once : desktop :=
  mkDesktop
    (fun _ _ h t =>
       if Nat.ltb (presses h) 2 then Located button
       else if t <? 40000 then Located button
       else ImageNotFoundException)
    (fun _ _ _ => blank) 100.

(** A button that no click removes. *)
Definition stuck : desktop :=
  mkDesktop (fun _ _ _ _ => Located button) (fun _ _ _ => blank) 100.

(** A button that goes away on its own at time 32550, between the last
    poll of the first check and the re-location. *)
Definition vanishing : desktop :=
  mkDesktop
    (fun _ _ _ t =>
       if t <? 32550 then Located button else ImageNotFoundException)
    (fun _ _ _ => blank) 100.

End Scenes.

(** * A synthetic train list and schedule screen *)
Module TrainList.
Import Synthetic.

(** Seven trains, three of them in view: the list is four boxes long. *)
Definition max_offset : Z := 4 * 310.

Definition border : pixel := (222, 222, 222).

(** Train [j]: 40 rows with the border colour at the left edge and a
    body of its own gray, above a gap of 2 rows. *)
Definition entry (j : nat) : list (list pixel) :=
  repeat [border; gray (30 * Z.of_nat (S j))] 40 ++ repeat [black; black] 2.

Definition view (first : nat) : image :=
  mkImage 2 (flat_map entry (seq first 3)).

Definition render (p : Z) : image := view (Z.to_nat (p / 310)).

Definition screen : desktop :=
  mkDesktop (fun _ _ _ _ => LocNone)
            (fun _ h _ => render (offset_of max_offset h)) 100.

(** The schedule button goes away with the first click; the panel shows
    one frame before the first scroll and another one after it. *)
Definition schedule_screen : desktop :=
  mkDesktop
    (fun _ _ h _ =>
       if Nat.ltb (Scenes.presses h) 1 then Located Scenes.button
       else ImageNotFoundException)
    (fun _ h _ =>
       match scroll_amounts h with
       | [] => plain light_blue 2 10
       | _ => plain black 2 10
       end)
    100.

Definition join (dir file : string) : string :=
  String.append dir (String.append "/" file).

End TrainList.

(** ** Runs of rows *)

(** Row [x] lies in one of the half-open runs. *)
Definition in_runs (runs : list (nat * nat)) (x : nat) : Prop :=
  exists s e, In (s, e) runs /\ (s <= x < e)%nat.

(** The runs are non-empty and come in increasing order, with at least
    one row between two neighbours. *)
Fixpoint separated (runs : list (nat * nat)) : Prop :=
  match runs with
  | [] => True
  | (s, e) :: rest =>
      (s < e)%nat
      /\ match rest with
         | [] => True
         | (s', _) :: _ => (e < s')%nat
         end
      /\ separated rest
  end.

(** Two runs one after the other, with their bounds. *)
Definition run_before (a b : nat * nat) : Prop :=
  (fst a < snd a /\ snd a < fst b /\ fst b < snd b)%nat.

(** A run that counts as an entry: at least 40 rows. *)
Definition tall (run : nat * nat) : bool := Nat.leb 40 (snd run - fst run).

(** The flags [row_has_border] that the scanners compute for an image:
    some pixel of the first [cols] columns is within [tol] of
    [color]. *)
Definition border_flags (color : pixel) (tol : Z) (cols : nat) (img : image)
  : list bool :=
  map (existsb (px_near color tol)) (img_rows (cols_slice 0 cols img)).

(** ** Small frames for the overlap search *)
Module Frames.
Import Synthetic.

(** Four rows of two pixels: one row of 10, two rows of 200, one of 90. *)
Definition above : image :=
  stack (plain (gray 10) 1 2) (stack (plain (gray 200) 2 2)
                                     (plain (gray 90) 1 2)).

(** Seven rows of two pixels whose band of two rows, from row 5 on, is the
    two rows of 200. *)
Definition below : image :=
  stack (plain (gray 0) 5 2) (plain (gray 200) 2 2).

End Frames.

(** A frame of 45 rows of two pixels. *)
Definition tall_frame : image := Synthetic.plain (Synthetic.gray 0) 45 2.

(** ** The capture loop of the schedule *)

(** The world after one [scroll_schedule_down()]. *)
Definition schedule_scroll_world (env : desktop) (w : world) : world :=
  advance 2000
    (advance (call_ms env)
       (record (Scroll (-2000))
          (advance 300
             (advance (call_ms env)
                (record (MoveTo ((Config.SCHEDULE_LEFT
                                  + Config.SCHEDULE_RIGHT) / 2)
                                ((Config.SCHEDULE_TOP
                                  + Config.SCHEDULE_BOTTOM) / 2))
                        w))))).

(** The actuations of [k] calls of [scroll_schedule_down()], newest
    first. *)
Definition schedule_scrolls (k : nat) : list action :=
  concat (repeat [Scroll (-2000);
                  MoveTo ((Config.SCHEDULE_LEFT + Config.SCHEDULE_RIGHT) / 2)
                         ((Config.SCHEDULE_TOP + Config.SCHEDULE_BOTTOM) / 2)]
                 k).

(** No frame matches the one before it. *)
Fixpoint unmatched (frames : list image) : Prop :=
  match frames with
  | a :: (b :: _) as rest =>
      ScheduleCapture.frames_match a b 5 = Ok false /\ unmatched rest
  | _ => True
  end.

(** The capture of the schedule panel that ended in world [w]. *)
Definition last_capture (env : desktop) (w : world) : image :=
  screenshot_at env ScheduleCapture.schedule_region (hist w)
    (clock w - call_ms env).


(** ** The grab around a service box *)

(** The region that [screenshot_service_box] grabs around [y_center]. *)
Definition service_grab_region (y_center : Z) : box :=
  (ServiceList.SERVICE_LIST_LEFT,
   y_center - ServiceList.SERVICE_BOX_HEIGHT / 2 - ServiceList.padding,
   ServiceList.SERVICE_LIST_RIGHT - ServiceList.SERVICE_LIST_LEFT + 10,
   ServiceList.SERVICE_BOX_HEIGHT + 2 * ServiceList.padding).

(** * Properties *)

(** ** The frame-difference primitive *)
Section FrameDifference.

Lemma zsum_map_zero {A : Type} (f : A -> Z) (l : list A) :
  (forall x, In x l -> f x = 0) -> zsum (map f l) = 0.
Proof.
  induction l as [|x l IH]; intros Hf; simpl; [reflexivity|].
  rewrite Hf by (left; reflexivity).
  rewrite IH; [reflexivity|].
  intros y Hy. apply Hf. right. exact Hy.
Qed.

Lemma combine_diag {A : Type} (l : list A) (p : A * A) :
  In p (combine l l) -> fst p = snd p.
Proof.
  induction l as [|x l IH]; simpl; [tauto|].
  intros [<-|H]; [reflexivity | exact (IH H)].
Qed.

Lemma zsum_combine_sym {A : Type} (f : A -> A -> Z) :
  (forall x y, f x y = f y x) ->
  forall l1 l2,
    zsum (map (fun p => f (fst p) (snd p)) (combine l1 l2))
    = zsum (map (fun p => f (fst p) (snd p)) (combine l2 l1)).
Proof.
  intros Hf. induction l1 as [|x l1 IH]; intros [|y l2]; simpl;
    try reflexivity.
  rewrite (Hf x y), (IH l2). reflexivity.
Qed.

Lemma px_absdiff_sym (p q : pixel) : px_absdiff p q = px_absdiff q p.
Proof.
  destruct p as [[r1 g1] b1], q as [[r2 g2] b2]. unfold px_absdiff. lia.
Qed.

Lemma px_absdiff_diag (p : pixel) : px_absdiff p p = 0.
Proof. destruct p as [[r g] b]. unfold px_absdiff. lia. Qed.

Lemma px_absdiff_nonneg (p q : pixel) : 0 <= px_absdiff p q.
Proof.
  destruct p as [[r1 g1] b1], q as [[r2 g2] b2]. unfold px_absdiff. lia.
Qed.

Lemma row_absdiff_sym (cd : nat) (ra rb : list pixel) :
  row_absdiff cd ra rb = row_absdiff cd rb ra.
Proof. apply (zsum_combine_sym px_absdiff px_absdiff_sym). Qed.

Lemma row_absdiff_diag (cd : nat) (r : list pixel) : row_absdiff cd r r = 0.
Proof.
  unfold row_absdiff. apply zsum_map_zero. intros p Hp.
  rewrite (combine_diag _ _ Hp). apply px_absdiff_diag.
Qed.

Lemma absdiff_sum_sym (rd cd : nat) (a b : image) :
  absdiff_sum rd cd a b = absdiff_sum rd cd b a.
Proof.
  apply (zsum_combine_sym (row_absdiff cd) (row_absdiff_sym cd)).
Qed.

Lemma absdiff_sum_diag (rd cd : nat) (a : image) : absdiff_sum rd cd a a = 0.
Proof.
  unfold absdiff_sum. apply zsum_map_zero. intros p Hp.
  rewrite (combine_diag _ _ Hp). apply row_absdiff_diag.
Qed.

Lemma bdim_sym (a b : nat) : bdim a b = bdim b a.
Proof.
  unfold bdim.
  destruct (Nat.eqb_spec a b) as [->|Hab].
  - rewrite Nat.eqb_refl. reflexivity.
  - destruct (Nat.eqb_spec b a) as [->|_]; [congruence|].
    destruct (Nat.eqb_spec a 1) as [->|Ha], (Nat.eqb_spec b 1) as [->|Hb];
      congruence.
Qed.

Lemma bdim_diag (a : nat) : bdim a a = Some a.
Proof. unfold bdim. rewrite Nat.eqb_refl. reflexivity. Qed.

Lemma mean_abs_diff_sym (a b : image) : mean_abs_diff a b = mean_abs_diff b a.
Proof.
  unfold mean_abs_diff.
  rewrite (bdim_sym (img_h a) (img_h b)), (bdim_sym (img_w a) (img_w b)).
  destruct (bdim (img_h b) (img_h a)) as [rd|]; [|reflexivity].
  destruct (bdim (img_w b) (img_w a)) as [cd|]; [|reflexivity].
  rewrite absdiff_sum_sym. reflexivity.
Qed.

Lemma shape_eqb_sym (a b : image) : shape_eqb a b = shape_eqb b a.
Proof.
  unfold shape_eqb.
  rewrite (Nat.eqb_sym (img_h a)), (Nat.eqb_sym (img_w a)). reflexivity.
Qed.

Lemma shape_eqb_eq (a b : image) : shape_eqb a b = true <-> shape a = shape b.
Proof.
  unfold shape_eqb, shape. rewrite andb_true_iff, !Nat.eqb_eq.
  split; [intros [-> ->]; reflexivity | intros H; inversion H; auto].
Qed.

(** Arrays of one shape always have a mean difference: no ValueError. *)
Lemma mean_abs_diff_same_shape (a b : image) :
  shape a = shape b ->
  mean_abs_diff a b
  = Ok (np_mean (absdiff_sum (img_h a) (img_w a) a b)
                (img_h a * img_w a * 3)).
Proof.
  unfold shape. intros H. inversion H as [[Hh Hw]].
  unfold mean_abs_diff. rewrite <- Hh, <- Hw, !bdim_diag. reflexivity.
Qed.

Lemma frames_match_total (a b : image) (thr : Q) :
  exists m, ScheduleCapture.frames_match a b thr = Ok m.
Proof.
  unfold ScheduleCapture.frames_match.
  destruct (shape_eqb a b) eqn:E; simpl; [|eauto].
  apply shape_eqb_eq in E. rewrite (mean_abs_diff_same_shape _ _ E). eauto.
Qed.

Lemma fge_not_flt (x y : fval) : fge x y = true -> flt x y = false.
Proof.
  destruct x, y; simpl; try discriminate; try reflexivity.
  intros H. apply negb_true_iff in H. exact H.
Qed.

Lemma frames_match_identical (a : image) (thr : Q) :
  (0 < img_h a * img_w a)%nat -> (0 < thr)%Q ->
  ScheduleCapture.frames_match a a thr = Ok true.
Proof.
  intros Hne Hthr. unfold ScheduleCapture.frames_match.
  assert (E : shape_eqb a a = true) by (apply shape_eqb_eq; reflexivity).
  rewrite E. simpl.
  rewrite (mean_abs_diff_same_shape a a eq_refl), absdiff_sum_diag.
  destruct (img_h a * img_w a * 3)%nat as [|n] eqn:En; [lia|].
  simpl. f_equal. unfold Qltb. simpl.
  apply Z.ltb_lt. unfold Qlt in Hthr. simpl in Hthr. lia.
Qed.

End FrameDifference.

(** [np.mean] of an empty array is nan and no comparison with nan holds:
    two empty frames never match. *)
Remark frames_match_empty (w : nat) (thr : Q) :
  ScheduleCapture.frames_match (mkImage w []) (mkImage w []) thr = Ok false.
Proof.
  unfold ScheduleCapture.frames_match, shape_eqb, mean_abs_diff, img_h.
  cbn [img_rows img_w length]. rewrite !Nat.eqb_refl. cbn [andb negb].
  rewrite !bdim_diag. reflexivity.
Qed.

(** C8.  [frames_match] is the negation of the specification's [changed].
    Two identical frames with at least one pixel match (changed is false)
    for every positive threshold; two frames of one shape whose mean
    absolute difference is at or above the threshold do not match
    (changed is true); and the answer does not depend on the order of the
    two frames, whatever their shapes. *)
Theorem frames_match_changed (a b : image) (thr : Q) :
  ((0 < img_h a * img_w a)%nat -> (0 < thr)%Q ->
   ScheduleCapture.frames_match a a thr = Ok true)
  /\ (forall d, shape a = shape b -> mean_abs_diff a b = Ok d ->
                fge d (FQ thr) = true ->
                ScheduleCapture.frames_match a b thr = Ok false)
  /\ ScheduleCapture.frames_match a b thr
     = ScheduleCapture.frames_match b a thr.
Proof.
  split; [apply frames_match_identical|]. split.
  - intros d Hs Hd Hge. unfold ScheduleCapture.frames_match.
    apply shape_eqb_eq in Hs. rewrite Hs, Hd. simpl.
    rewrite (fge_not_flt _ _ Hge). reflexivity.
  - unfold ScheduleCapture.frames_match.
    rewrite shape_eqb_sym, mean_abs_diff_sym. reflexivity.
Qed.

(** ** Order facts on float results *)
Section FloatOrder.

Lemma Qltb_lt (a b : Q) : Qltb a b = true <-> (a < b)%Q.
Proof. unfold Qltb, Qlt. apply Z.ltb_lt. Qed.

Lemma Qltb_ge (a b : Q) : Qltb a b = false <-> (b <= a)%Q.
Proof. unfold Qltb, Qle. apply Z.ltb_ge. Qed.

Lemma flt_trans (x y z : fval) :
  flt x y = true -> flt y z = true -> flt x z = true.
Proof.
  destruct x as [| |a], y as [| |b], z as [| |c]; simpl;
    try discriminate; try reflexivity.
  rewrite !Qltb_lt. apply Qlt_trans.
Qed.

Lemma flt_irrefl (x : fval) : flt x x = false.
Proof.
  destruct x as [| |a]; simpl; try reflexivity.
  apply Qltb_ge. apply Qle_refl.
Qed.

(** [x] is not below [y], [z] is: then [z] is below [x], unless [x] is
    nan. *)
Lemma flt_below_other (x y z : fval) :
  flt x y = false -> flt z y = true -> x <> FNaN -> flt z x = true.
Proof.
  destruct x as [| |a], y as [| |b], z as [| |c]; simpl;
    try discriminate; try reflexivity; try congruence.
  rewrite Qltb_ge, !Qltb_lt. intros Hab Hcb _.
  apply Qlt_le_trans with b; assumption.
Qed.

End FloatOrder.

(** ** Overlap search *)
Section Overlap.
Import ScheduleCapture.

Variables (prev_img band : image) (band_height : nat).

Let D (row : nat) : res fval := strip_diff prev_img band band_height row.

(** What the loop of [find_overlap] computes: it evaluates every
    position, and either keeps the initial best, which no position
    improves on, or ends on the first position of least difference. *)
Lemma slide_band_spec (rows : list nat) :
  forall (best_row : Z) (best_diff : fval) (r : Z) (d : fval),
    slide_band prev_img band band_height rows best_row best_diff
    = Ok (r, d) ->
    (forall row, In row rows ->
       exists x, D row = Ok x /\ flt x d = false)
    /\ ((r = best_row /\ d = best_diff)
        \/ (exists before row after,
              rows = before ++ row :: after
              /\ r = Z.of_nat row
              /\ D row = Ok d
              /\ flt d best_diff = true
              /\ forall row' x, In row' before -> D row' = Ok x ->
                                x <> FNaN -> flt d x = true)).
Proof.
  induction rows as [|row rest IH]; intros best_row best_diff r d; simpl.
  - intros H. inversion H; subst. split; [intros ? []|]. left. auto.
  - fold (D row). destruct (D row) as [diff|e] eqn:Ed; [|discriminate].
    destruct (flt diff best_diff) eqn:Elt; intros H;
      apply IH in H; destruct H as [Hall Hsel].
    + assert (Hrow : flt diff d = false).
      { destruct Hsel as [[_ ->]|(b & row' & a & _ & _ & _ & Hlt & _)].
        - apply flt_irrefl.
        - destruct (flt diff d) eqn:E; [|reflexivity].
          pose proof (flt_trans _ _ _ Hlt E) as Hdd.
          rewrite flt_irrefl in Hdd. discriminate. }
      split.
      * intros row' [<-|Hin]; [eauto | auto].
      * right. destruct Hsel as [[-> ->]|(b & row' & a & -> & -> & Hd & Hlt & Hb)].
        -- exists [], row, rest. repeat split; auto; intros ? ? [].
        -- exists (row :: b), row', a. repeat split; auto.
           ++ exact (flt_trans _ _ _ Hlt Elt).
           ++ intros r0 x [<-|Hin] Hx Hn; [|eauto].
              rewrite Ed in Hx. inversion Hx; subst. exact Hlt.
    + split.
      * intros row' [<-|Hin]; [|auto]. exists diff. split; [assumption|].
        destruct Hsel as [[_ ->]|(b & row' & a & _ & _ & _ & Hlt & _)];
          [assumption|].
        destruct (flt diff d) eqn:E; [|reflexivity].
        rewrite (flt_trans _ _ _ E Hlt) in Elt. discriminate.
      * destruct Hsel as [Hsame|(b & row' & a & -> & -> & Hd & Hlt & Hb)];
          [left; assumption|].
        right. exists (row :: b), row', a. repeat split; auto.
        intros r0 x [<-|Hin] Hx Hn; [|eauto].
        rewrite Ed in Hx. inversion Hx; subst.
        exact (flt_below_other _ _ _ Elt Hlt Hn).
Qed.

(** The loop raises only if some position does. *)
Lemma slide_band_total (rows : list nat) :
  (forall row, In row rows -> exists x, D row = Ok x) ->
  forall best_row best_diff,
  exists r d,
    slide_band prev_img band band_height rows best_row best_diff
    = Ok (r, d).
Proof.
  induction rows as [|row rest IH]; intros Hall best_row best_diff; simpl.
  - eauto.
  - fold (D row). destruct (Hall row (or_introl eq_refl)) as [x ->].
    destruct (flt x best_diff); apply IH; intros; apply Hall; right;
      assumption.
Qed.

End Overlap.

Section OverlapResult.
Import ScheduleCapture.

Lemma seq_split_at (before after : list nat) (row : nat) :
  forall start len,
    seq start len = before ++ row :: after ->
    before = seq start (row - start) /\ (start <= row < start + len)%nat.
Proof.
  induction before as [|b before IH]; intros start len H.
  - destruct len as [|len]; simpl in H; [discriminate|].
    inversion H; subst. rewrite Nat.sub_diag. split; [reflexivity | lia].
  - destruct len as [|len]; simpl in H; [discriminate|].
    inversion H as [[Hb Hrest]]. subst b.
    destruct (IH _ _ Hrest) as [Hbefore Hrange].
    replace (row - start)%nat with (S (row - S start)) by lia.
    simpl. rewrite <- Hbefore. split; [reflexivity | lia].
Qed.

Lemma flt_trans_neg (x d : fval) (t : Q) :
  d <> FNaN -> flt x d = false -> flt d (FQ t) = false ->
  flt x (FQ t) = false.
Proof.
  destruct x as [| |a], d as [| |b]; simpl;
    try discriminate; try reflexivity; try congruence.
  rewrite !Qltb_ge. intros _ Hba Htb. apply Qle_trans with b; assumption.
Qed.

Lemma flt_left_FQ (x y : fval) : flt x y = true -> x <> FNaN.
Proof. destruct x; simpl; congruence. Qed.

Lemma find_overlap_cases (prev_img curr_img : image) (band_height : nat)
    (ov : Z) :
  find_overlap prev_img curr_img band_height = Ok ov ->
  let D := strip_diff prev_img (band_of curr_img band_height)
                      band_height in
  let n := positions prev_img band_height in
  (ov = 0
   /\ forall row, (row < n)%nat ->
        exists x, D row = Ok x /\ flt x (FQ 5) = false)
  \/ (exists best_row best_diff,
        (best_row < n)%nat
        /\ D best_row = Ok best_diff
        /\ flt best_diff (FQ 5) = true
        /\ (forall row, (row < n)%nat ->
              exists x, D row = Ok x /\ flt x best_diff = false)
        /\ (forall row x, (row < best_row)%nat -> D row = Ok x ->
              x <> FNaN -> flt best_diff x = true)
        /\ ov = Z.of_nat (img_h prev_img) - Z.of_nat best_row
                + Z.of_nat band_start).
Proof.
  intros H D n. unfold find_overlap in H.
  destruct (slide_band _ _ _ _ _ _) as [[r d]|e] eqn:Hs; [|discriminate].
  apply slide_band_spec in Hs. destruct Hs as [Hall Hsel].
  assert (Hin : forall row, (row < n)%nat ->
                  In row (seq 0 (img_h prev_img - band_height))).
  { intros row Hr. apply in_seq. unfold n, positions in Hr. lia. }
  destruct (flt d (FQ 5)) eqn:Ed; inversion H; subst ov; clear H.
  - right.
    destruct Hsel as [[_ ->]|(b & row & a & Hseq & -> & Hd & Hlt & Hb)];
      [simpl in Ed; discriminate Ed|].
    apply seq_split_at in Hseq. destruct Hseq as [-> Hrange].
    exists row, d. repeat split; auto.
    + unfold n, positions. lia.
    + intros row' x Hlt' Hx Hn. apply (Hb row' x); auto.
      apply in_seq. lia.
  - left. split; [reflexivity|]. intros row Hr.
    destruct (Hall row (Hin row Hr)) as (x & Hx & Hxd).
    exists x. split; [assumption|].
    apply flt_trans_neg with d; auto.
    destruct Hsel as [[_ ->]|(b & row' & a & _ & _ & _ & Hlt & _)];
      [intros Hd; discriminate Hd | exact (flt_left_FQ _ _ Hlt)].
Qed.

Lemma slice_length {A : Type} (start stop : nat) (l : list A) :
  (stop <= length l)%nat -> length (slice start stop l) = (stop - start)%nat.
Proof.
  intros H. unfold slice. rewrite length_firstn, length_skipn. lia.
Qed.

(** Frames of one width, the new one tall enough to hold the band: no
    position raises. *)
Lemma strip_diff_total (prev_img curr_img : image) (band_height row : nat) :
  img_w prev_img = img_w curr_img ->
  (band_start + band_height <= img_h curr_img)%nat ->
  (row < positions prev_img band_height)%nat ->
  exists x,
    strip_diff prev_img (band_of curr_img band_height) band_height row
    = Ok x.
Proof.
  unfold positions. intros Hw Hc Hr. unfold strip_diff.
  rewrite mean_abs_diff_same_shape; [eauto|].
  unfold shape, band_of, rows_slice, img_h, band_start in *. simpl.
  rewrite !slice_length by lia. f_equal; [lia | assumption].
Qed.

Lemma find_overlap_total (prev_img curr_img : image) (band_height : nat) :
  img_w prev_img = img_w curr_img ->
  (band_start + band_height <= img_h curr_img)%nat ->
  exists ov, find_overlap prev_img curr_img band_height = Ok ov.
Proof.
  intros Hw Hc. unfold find_overlap.
  destruct (slide_band_total prev_img (band_of curr_img band_height)
              band_height (seq 0 (img_h prev_img - band_height)))
    with (best_row := -1) (best_diff := FInf) as (r & d & ->).
  - intros row Hin. apply in_seq in Hin.
    apply strip_diff_total; auto. unfold positions. lia.
  - destruct (flt d (FQ 5)); eauto.
Qed.

Lemma stitch_step_no_overlap (result prev curr : image) :
  find_overlap prev curr 40 = Ok 0 ->
  img_w result = img_w curr ->
  stitch_step result prev curr
  = Ok (mkImage (img_w result) (img_rows result ++ img_rows curr)).
Proof.
  intros Hov Hw. unfold stitch_step. rewrite Hov. simpl.
  destruct curr as [wc [|r rows]]; simpl.
  - rewrite app_nil_r. destruct result; reflexivity.
  - unfold vstack. simpl in *. rewrite Hw, Nat.eqb_refl. reflexivity.
Qed.

End OverlapResult.

(** C4.  [find_overlap] slides the band [curr[5 : 5 + band_height]]
    through [prev].  When some position has a mean absolute difference
    below 5, the result is [height(prev) - best_row + 5], where
    [best_row] is the first position of least difference; when none has,
    the result is 0, and [stitch_images] then appends the whole new frame
    to the accumulator.  On frames of one width, with a new frame tall
    enough to hold the band, a result is returned. *)
Theorem find_overlap_band_match (prev_img curr_img : image)
    (band_height : nat) :
  let D := ScheduleCapture.strip_diff prev_img
             (ScheduleCapture.band_of curr_img band_height) band_height in
  let n := positions prev_img band_height in
  (forall ov,
     ScheduleCapture.find_overlap prev_img curr_img band_height = Ok ov ->
     (ov = 0
      /\ forall row, (row < n)%nat ->
           exists x, D row = Ok x /\ flt x (FQ 5) = false)
     \/ (exists best_row best_diff,
           (best_row < n)%nat
           /\ D best_row = Ok best_diff
           /\ flt best_diff (FQ 5) = true
           /\ (forall row, (row < n)%nat ->
                 exists x, D row = Ok x /\ flt x best_diff = false)
           /\ (forall row x, (row < best_row)%nat -> D row = Ok x ->
                 x <> FNaN -> flt best_diff x = true)
           /\ ov = Z.of_nat (img_h prev_img) - Z.of_nat best_row + 5))
  /\ (img_w prev_img = img_w curr_img ->
      (5 + band_height <= img_h curr_img)%nat ->
      exists ov,
        ScheduleCapture.find_overlap prev_img curr_img band_height = Ok ov)
  /\ (ScheduleCapture.find_overlap prev_img curr_img 40 = Ok 0 ->
      img_w prev_img = img_w curr_img ->
      (forall result, img_w result = img_w curr_img ->
         ScheduleCapture.stitch_step result prev_img curr_img
         = Ok (mkImage (img_w result) (img_rows result ++ img_rows curr_img)))
      /\ ScheduleCapture.stitch_images [prev_img; curr_img]
         = Ok (Some (mkImage (img_w prev_img)
                             (img_rows prev_img ++ img_rows curr_img)))).
Proof.
  intros D n. split; [|split].
  - intros ov H. exact (find_overlap_cases _ _ _ _ H).
  - apply find_overlap_total.
  - intros Hov Hw. split.
    + intros result Hr. apply stitch_step_no_overlap; assumption.
    + unfold ScheduleCapture.stitch_images, ScheduleCapture.stitch_loop.
      rewrite (stitch_step_no_overlap _ _ _ Hov Hw). reflexivity.
Qed.

(** Bounds on a detected overlap, shared by the claims on
    [find_overlap]. *)
Lemma find_overlap_range (prev_img curr_img : image) (band_height : nat)
    (ov : Z) :
  ScheduleCapture.find_overlap prev_img curr_img band_height = Ok ov ->
  ov = 0
  \/ (Z.of_nat ScheduleCapture.band_start + Z.of_nat band_height + 1 <= ov
      <= Z.of_nat (img_h prev_img) + Z.of_nat ScheduleCapture.band_start).
Proof.
  intros H. apply find_overlap_cases in H. simpl in H.
  destruct H as [[-> _]|(best_row & d & Hr & _ & _ & _ & _ & ->)];
    [left; reflexivity|].
  right. unfold positions in Hr. unfold ScheduleCapture.band_start. lia.
Qed.

Lemma frames_match_changed_witness :
  ScheduleCapture.frames_match Synthetic.dark_frame Synthetic.dark_frame 5
  = Ok true
  /\ ScheduleCapture.frames_match Synthetic.dark_frame
       Synthetic.bright_frame 5 = Ok false
  /\ ScheduleCapture.frames_match Synthetic.dark_frame
       Synthetic.bright_frame 5
     = ScheduleCapture.frames_match Synthetic.bright_frame
         Synthetic.dark_frame 5.
Proof.
  destruct (frames_match_changed Synthetic.dark_frame
              Synthetic.bright_frame 5) as (H1 & H2 & H3).
  split; [apply H1; [vm_compute; lia | reflexivity]|].
  split; [apply (H2 (FQ (240 # 12))); reflexivity | exact H3].
Defined.

(** ** Bounds on a detected overlap *)

(** A pair of frames that overlap by exactly 10 rows, fewer than the 46
    a detected overlap has at least, and for which [find_overlap]
    nevertheless reports an overlap: the band of the new frame is within
    the threshold of the first position of the old one.  The new frame is
    then not appended in full: stitching the pair returns the old frame
    alone. *)
Lemma small_overlap_reported_nonzero :
  Synthetic.visual_overlap Synthetic.white_frame Synthetic.scrolled_frame 10
  /\ (10 < ScheduleCapture.band_start + 40 + 1)%nat
  /\ ScheduleCapture.find_overlap Synthetic.white_frame
       Synthetic.scrolled_frame 40 = Ok 55
  /\ ScheduleCapture.stitch_images
       [Synthetic.white_frame; Synthetic.scrolled_frame]
     = Ok (Some Synthetic.white_frame)
  /\ ~ (forall prev curr k,
          Synthetic.visual_overlap prev curr k ->
          (k < ScheduleCapture.band_start + 40 + 1)%nat ->
          ScheduleCapture.find_overlap prev curr 40 = Ok 0).
Proof.
  assert (Hv : Synthetic.visual_overlap Synthetic.white_frame
                 Synthetic.scrolled_frame 10).
  { split; [reflexivity|]. intros k' Hk.
    destruct (le_lt_dec k' 50) as [Hle|Hgt].
    - assert (Hall : forallb
                (fun k => negb (Synthetic.tiles Synthetic.white_frame
                                  Synthetic.scrolled_frame k))
                (seq 11 40) = true) by (vm_compute; reflexivity).
      rewrite forallb_forall in Hall.
      apply negb_true_iff. apply Hall. apply in_seq. lia.
    - unfold Synthetic.tiles.
      replace (Nat.leb k' (img_h Synthetic.white_frame)) with false;
        [reflexivity|].
      symmetry. apply Nat.leb_gt. exact Hgt. }
  split; [exact Hv|]. split; [vm_compute; lia|].
  split; [vm_compute; reflexivity|].
  split; [vm_compute; reflexivity|].
  intros H. specialize (H _ _ _ Hv). discriminate H. vm_compute. lia.
Qed.

(** C9.  A result of [find_overlap] other than 0 is at least
    [band_start + band_height + 1] (46 rows with the defaults) and at
    most [height(prev) + band_start]; so no overlap below that bound is
    ever the value returned. *)
Theorem find_overlap_nonzero_bounds (prev_img curr_img : image)
    (band_height : nat) (ov : Z) :
  ScheduleCapture.find_overlap prev_img curr_img band_height = Ok ov ->
  (ov <> 0 ->
   5 + Z.of_nat band_height + 1 <= ov <= Z.of_nat (img_h prev_img) + 5)
  /\ (forall k, 0 < k < 5 + Z.of_nat band_height + 1 -> ov <> k).
Proof.
  intros H. apply find_overlap_range in H.
  unfold ScheduleCapture.band_start in H. simpl Z.of_nat in H.
  split; [intros Hnz | intros k Hk]; lia.
Qed.

Lemma find_overlap_nonzero_bounds_witness :
  (5 + Z.of_nat 40 + 1 <= 55 <= Z.of_nat (img_h Synthetic.white_frame) + 5)
  /\ (forall k, 0 < k < 5 + Z.of_nat 40 + 1 -> 55 <> k).
Proof.
  destruct (find_overlap_nonzero_bounds Synthetic.white_frame
              Synthetic.scrolled_frame 40 55) as [H1 H2].
  - vm_compute. reflexivity.
  - split; [apply H1; discriminate | exact H2].
Defined.

(** ** Cropping *)
Section Cropping.
Import ScheduleCapture.

Lemma crop_scan_bound (img : image) (h : nat) (rows : list nat) :
  forall last,
    (last <= h)%nat -> (forall row, In row rows -> (row < h)%nat) ->
    (crop_scan img h rows last <= h)%nat.
Proof.
  induction rows as [|row rest IH]; intros last Hl Hr; simpl; [exact Hl|].
  fold (box_row img row).
  assert (Hrow : (row < h)%nat) by (apply Hr; left; reflexivity).
  destruct (box_row img row).
  - destruct (Nat.ltb_spec (S row) h); [lia|].
    apply IH; [lia | intros; apply Hr; right; assumption].
  - destruct (Nat.ltb_spec last h); [lia|].
    apply IH; [lia | intros; apply Hr; right; assumption].
Qed.

(** The scan stops on the first visited row that is a box row and is
    not the bottom row of the image. *)
Lemma crop_scan_spec (img : image) (h : nat) (rows : list nat) :
  (forall row, In row rows -> (row < h)%nat) ->
  (crop_scan img h rows h = h
   /\ forall row, In row rows -> (S row < h)%nat -> box_row img row = false)
  \/ (exists before row after,
        rows = before ++ row :: after
        /\ box_row img row = true /\ (S row < h)%nat
        /\ crop_scan img h rows h = S row
        /\ forall r, In r before -> (S r < h)%nat -> box_row img r = false).
Proof.
  induction rows as [|row rest IH]; intros Hr; simpl.
  - left. split; [reflexivity | intros ? []].
  - fold (box_row img row).
    assert (Hrow : (row < h)%nat) by (apply Hr; left; reflexivity).
    assert (Hrest : forall r, In r rest -> (r < h)%nat)
      by (intros; apply Hr; right; assumption).
    destruct (box_row img row) eqn:Eb;
      [destruct (Nat.ltb_spec (S row) h) as [Hlt|Hge]|].
    + right. exists [], row, rest. repeat split; auto. intros ? [].
    + replace (S row) with h by lia.
      destruct (IH Hrest) as [[Hk Hn]|(b & r & a & -> & Hb & Hlt & Hk & Hn)].
      * left. split; [exact Hk|]. intros r [<-|Hin] Hs; [lia | auto].
      * right. exists (row :: b), r, a. repeat split; auto.
        intros r' [<-|Hin] Hs; [lia | auto].
    + rewrite Nat.ltb_irrefl.
      destruct (IH Hrest) as [[Hk Hn]|(b & r & a & -> & Hb & Hlt & Hk & Hn)].
      * left. split; [exact Hk|]. intros r [<-|Hin] Hs; [exact Eb | auto].
      * right. exists (row :: b), r, a. repeat split; auto.
        intros r' [<-|Hin] Hs; [exact Eb | auto].
Qed.

Lemma rev_seq_after (h : nat) (before after : list nat) (row : nat) :
  rev (seq 0 h) = before ++ row :: after ->
  forall r, (row < r < h)%nat -> In r before.
Proof.
  intros H r Hr.
  assert (Hin : In r (rev (seq 0 h))) by (rewrite <- in_rev, in_seq; lia).
  rewrite H in Hin. apply in_app_or in Hin.
  destruct Hin as [Hin|[Heq|Hin]]; [exact Hin | lia |].
  exfalso.
  assert (Hs : seq 0 h = rev after ++ row :: rev before).
  { rewrite <- (rev_involutive (seq 0 h)), H, rev_app_distr. simpl.
    rewrite <- app_assoc. reflexivity. }
  apply seq_split_at in Hs. destruct Hs as [Ha _].
  rewrite in_rev, Ha, in_seq in Hin. lia.
Qed.

(** What [crop_schedule] keeps: the rows through the last box row that
    lies above the bottom row, or every row when there is none. *)
Lemma last_box_row_spec (img : image) :
  let h := img_h img in
  (last_box_row_of img = h
   /\ forall row, (S row < h)%nat -> box_row img row = false)
  \/ (exists row,
        last_box_row_of img = S row
        /\ (S row < h)%nat /\ box_row img row = true
        /\ forall r, (row < r)%nat -> (S r < h)%nat ->
                     box_row img r = false).
Proof.
  intros h. unfold last_box_row_of. fold h.
  destruct (crop_scan_spec img h (rev (seq 0 h)))
    as [[Hk Hn]|(b & row & a & Hrows & Hb & Hlt & Hk & Hn)].
  - intros row Hin. rewrite <- in_rev, in_seq in Hin. lia.
  - left. split; [exact Hk|]. intros row Hs. apply Hn; [|exact Hs].
    rewrite <- in_rev, in_seq. lia.
  - right. exists row. repeat split; auto.
    intros r Hr Hs. apply Hn; [|exact Hs].
    apply (rev_seq_after h b a row Hrows). lia.
Qed.

Lemma last_box_row_le (img : image) :
  (last_box_row_of img <= img_h img)%nat.
Proof.
  unfold last_box_row_of. apply crop_scan_bound; [lia|].
  intros row Hin. rewrite <- in_rev, in_seq in Hin. lia.
Qed.

Lemma crop_schedule_height (img : image) :
  img_h (crop_schedule img) = last_box_row_of img.
Proof.
  unfold crop_schedule, img_h. simpl.
  rewrite length_map, length_firstn.
  pose proof (last_box_row_le img) as H. unfold img_h in H. lia.
Qed.

Lemma crop_schedule_wf (img : image) : wf img -> wf (crop_schedule img).
Proof.
  unfold wf, crop_schedule. simpl. intros H.
  apply Forall_map.
  assert (Hsub : Forall (fun r => length r = img_w img)
                   (firstn (last_box_row_of img) (img_rows img))).
  { rewrite Forall_forall in *. intros r Hin. apply H.
    rewrite <- (firstn_skipn (last_box_row_of img) (img_rows img)).
    apply in_or_app. left. exact Hin. }
  revert Hsub. apply Forall_impl. intros r Hr.
  rewrite length_firstn, Hr. lia.
Qed.

End Cropping.

(** C10.  When no row of the image is a content-block row,
    [crop_schedule] keeps the full height.  In every case the output is
    the top-left part of the input: its height does not exceed the
    input's, its width is the smaller of the input's width and
    SCHEDULE_MAX_WIDTH, its rows are the leading rows of the input cut to
    that width, and it is rectangular when the input is. *)
Theorem crop_schedule_subimage (img : image) :
  let out := ScheduleCapture.crop_schedule img in
  ((forall row, (row < img_h img)%nat -> box_row img row = false) ->
   img_h out = img_h img)
  /\ (img_h out <= img_h img)%nat
  /\ img_w out = Nat.min (img_w img) ScheduleCapture.SCHEDULE_MAX_WIDTH
  /\ img_rows out
     = map (firstn (img_w out)) (firstn (img_h out) (img_rows img))
  /\ (wf img -> wf out).
Proof.
  intros out. unfold out. rewrite crop_schedule_height.
  split; [|split; [|split; [|split]]].
  - intros Hnone.
    destruct (last_box_row_spec img) as [[Hk _]|(row & _ & Hlt & Hb & _)];
      [exact Hk|].
    rewrite Hnone in Hb by lia. discriminate.
  - apply last_box_row_le.
  - reflexivity.
  - reflexivity.
  - apply crop_schedule_wf.
Qed.

Lemma crop_schedule_subimage_witness :
  img_h (ScheduleCapture.crop_schedule (Synthetic.plain Synthetic.black 3 4))
  = 3%nat
  /\ wf (ScheduleCapture.crop_schedule
           (Synthetic.plain Synthetic.black 3 4)).
Proof.
  destruct (crop_schedule_subimage (Synthetic.plain Synthetic.black 3 4))
    as (H1 & _ & _ & _ & H5).
  split.
  - apply H1. intros [|[|[|row]]] Hrow; try reflexivity.
    unfold img_h, Synthetic.plain in Hrow. simpl in Hrow. lia.
  - apply H5. repeat constructor.
Defined.

(** C5.  On a stitched image whose bottom row is itself a content-block
    row, [crop_schedule] does not keep the rows through that row: it
    goes on scanning and cuts below the next box row above.  Here the
    last box row is row 5 of 6 and a single row is kept.  On the image
    whose content ends at row 500, padded to row 600, it keeps exactly
    500 rows. *)
Theorem crop_schedule_bottom_box_row :
  img_h Synthetic.box_at_bottom = 6%nat
  /\ box_row Synthetic.box_at_bottom 5 = true
  /\ img_h (ScheduleCapture.crop_schedule Synthetic.box_at_bottom) = 1%nat
  /\ img_h (ScheduleCapture.crop_schedule Synthetic.padded_schedule)
     = 500%nat.
Proof. repeat split; vm_compute; reflexivity. Qed.

(** ** Parts of the world a computation leaves alone *)
Section Keeps.

Lemma timeless_files : timeless files.
Proof. intros ms w. reflexivity. Qed.

Lemma timeless_hist : timeless hist.
Proof. intros ms w. reflexivity. Qed.

Lemma bind_done {A B : Type} (m : M A) (k : A -> M B) (w w' : world)
    (b : B) :
  bind m k w = Done b w' ->
  exists a w1, m w = Done a w1 /\ k a w1 = Done b w'.
Proof.
  unfold bind. destruct (m w) as [a w1| |]; try discriminate. eauto.
Qed.

Context {X : Type} (proj : world -> X).

Lemma keeps_ret {A : Type} (a : A) : keeps proj (ret a).
Proof. intros w a' w' H. inversion H; reflexivity. Qed.

Lemma keeps_bind {A B : Type} (m : M A) (k : A -> M B) :
  keeps proj m -> (forall a, keeps proj (k a)) -> keeps proj (bind m k).
Proof.
  intros Hm Hk w b w' H. apply bind_done in H.
  destruct H as (a & w1 & E & H).
  rewrite (Hk a _ _ _ H). exact (Hm _ _ _ E).
Qed.

Lemma keeps_time : keeps proj time_time.
Proof. intros w a w' H. inversion H; reflexivity. Qed.

Lemma keeps_lift {A : Type} (r : res A) : keeps proj (lift r).
Proof.
  intros w a w' H. unfold lift in H. destruct r; inversion H; reflexivity.
Qed.

Lemma keeps_out_of_fuel {A : Type} : keeps proj (@out_of_fuel A).
Proof. intros w a w' H. discriminate. Qed.

Hypothesis Htime : timeless proj.

Lemma keeps_sleep (ms : Z) : keeps proj (sleep ms).
Proof. intros w a w' H. inversion H. apply Htime. Qed.

Variable env : desktop.

Lemma keeps_locate (path : string) (c : Q) :
  keeps proj (locateOnScreen env path c).
Proof. intros w u w' H. inversion H. apply Htime. Qed.

Lemma keeps_screenshot (region : box) : keeps proj (screenshot env region).
Proof. intros w u w' H. inversion H. apply Htime. Qed.

End Keeps.

Lemma keeps_files_actuate (env : desktop) (a : action) :
  keeps files (actuate env a).
Proof. intros w u w' H. inversion H; reflexivity. Qed.

Create HintDb keeps.
#[local] Hint Resolve timeless_files timeless_hist keeps_ret keeps_sleep
  keeps_time keeps_lift keeps_out_of_fuel keeps_files_actuate keeps_locate
  keeps_screenshot : keeps.

(** Splits a computation along its binds and branches. *)
Ltac keeps :=
  repeat first
    [ apply keeps_bind; [|intros ?]
    | match goal with
      | |- keeps _ (if ?c then _ else _) => destruct c
      | |- keeps _ (match ?x with _ => _ end) => destruct x
      end
    | solve [auto with keeps] ].

(** ** Effects on the saved files *)
Section FilesOfCapture.
Variable env : desktop.
Variable path_join : string -> string -> string.

Lemma keeps_wait_for_image_loop (fuel : nat) (path : string)
    (timeout : Z) (c : Q) (interval start : Z) :
  forall attempts,
    keeps files (Utils.wait_for_image_loop env fuel path timeout c
                   interval start attempts).
Proof.
  induction fuel as [|fuel IH]; intros attempts; simpl.
  - keeps.
  - unfold Utils._get_best_confidence. keeps; apply IH.
Qed.

Lemma keeps_screen_changed_loop (fuel : nat) (path : string) (c : Q)
    (wait_time check_interval start : Z) :
  keeps files (Utils._screen_changed_loop env fuel path c wait_time
                 check_interval start).
Proof.
  induction fuel as [|fuel IH]; simpl.
  - keeps.
  - keeps.
Qed.

Lemma keeps_click_attempts (fuel : nat) (path : string) (c : Q)
    (click_duration : Z) (verify : bool) (attempts : list nat) :
  forall location,
    keeps files (Utils.click_attempts env fuel path c click_duration
                   verify attempts location).
Proof.
  induction attempts as [|attempt rest IH]; intros location; simpl.
  - keeps.
  - destruct (center location) as [cx cy].
    unfold moveTo, mouseDown, mouseUp, Utils._screen_changed.
    keeps; try apply IH. apply keeps_screen_changed_loop.
Qed.

Lemma keeps_wait_and_click (fuel : nat) (path : string) (timeout : Z)
    (c : Q) (interval click_duration : Z) (verify : bool) :
  keeps files (Utils.wait_and_click env fuel path timeout c interval
                 click_duration verify).
Proof.
  unfold Utils.wait_and_click, Utils.wait_for_image.
  keeps; try apply keeps_wait_for_image_loop.
  apply keeps_click_attempts.
Qed.

Lemma keeps_capture_frames (rounds : nat) :
  forall frames,
    keeps files (ScheduleCapture.capture_frames env rounds frames).
Proof.
  induction rounds as [|rounds IH]; intros frames; simpl.
  - keeps.
  - unfold ScheduleCapture.capture_schedule_region,
      ScheduleCapture.scroll_schedule_down, moveTo, scroll.
    keeps; apply IH.
Qed.

(** What the tail of [capture_schedule] leaves on disk. *)
Lemma save_stitched_files (output_dir : string) (frames : list image)
    (w w' : world) (r : option string) :
  ScheduleCapture.save_stitched env path_join output_dir frames w
  = Done r w' ->
  match r with
  | None =>
      ScheduleCapture.stitch_images frames = Ok None /\ w' = w
  | Some path =>
      path = path_join output_dir "2_schedule.png"%string
      /\ exists stitched,
           ScheduleCapture.stitch_images frames = Ok (Some stitched)
           /\ files w'
              = (path, ScheduleCapture.crop_schedule stitched) :: files w
  end.
Proof.
  unfold ScheduleCapture.save_stitched, bind, lift.
  destruct (ScheduleCapture.stitch_images frames) as [[stitched|]|e];
    simpl; intros H; inversion H; subst; clear H.
  - split; [reflexivity|]. exists stitched. split; reflexivity.
  - split; reflexivity.
Qed.

End FilesOfCapture.

(** C7.  [stitch_images] on no frames returns [None] and raises nothing.
    The part of [capture_schedule] that follows the capture loop then
    returns [None] as well, writing no file and touching nothing; and
    whenever [capture_schedule] returns, it returns either [None], with
    no file written, or the path of the image it has just saved. *)
Theorem stitch_no_frames_is_reported (env : desktop)
    (path_join : string -> string -> string) (output_dir : string) :
  ScheduleCapture.stitch_images [] = Ok None
  /\ (forall w,
        ScheduleCapture.save_stitched env path_join output_dir [] w
        = Done None w)
  /\ (forall frames w r w',
        ScheduleCapture.stitch_images frames = Ok None ->
        ScheduleCapture.save_stitched env path_join output_dir frames w
        = Done r w' ->
        r = None /\ w' = w)
  /\ (forall fuel w r w',
        ScheduleCapture.capture_schedule env path_join fuel output_dir w
        = Done r w' ->
        match r with
        | None => files w' = files w
        | Some path =>
            path = path_join output_dir "2_schedule.png"%string
            /\ exists img, files w' = (path, img) :: files w
        end).
Proof.
  split; [reflexivity|]. split; [reflexivity|]. split.
  - intros frames w r w' Hnone H.
    unfold ScheduleCapture.save_stitched, bind, lift in H.
    rewrite Hnone in H. inversion H. split; reflexivity.
  - intros fuel w r w' H.
    unfold ScheduleCapture.capture_schedule in H.
    apply bind_done in H. destruct H as (u1 & w1 & E1 & H).
    apply keeps_files_actuate in E1.
    apply bind_done in H. destruct H as (u2 & w2 & E2 & H).
    apply (keeps_sleep files timeless_files) in E2.
    apply bind_done in H. destruct H as (found & w3 & E3 & H).
    apply keeps_wait_and_click in E3.
    assert (E : files w3 = files w) by congruence.
    destruct found; simpl negb in H; cbv iota in H.
    + apply bind_done in H. destruct H as (u4 & w4 & E4 & H).
      apply (keeps_sleep files timeless_files) in E4.
      apply bind_done in H. destruct H as (frames & w5 & E5 & H).
      apply keeps_capture_frames in E5.
      apply save_stitched_files in H. destruct r as [path|].
      * destruct H as (Hp & stitched & _ & Hf). split; [exact Hp|].
        exists (ScheduleCapture.crop_schedule stitched). rewrite Hf.
        congruence.
      * destruct H as [_ ->]. congruence.
    + inversion H; subst. exact E.
Qed.

(** ** Click and verify *)
Section ClickAndVerify.
Import Config.
Variable env : desktop.
Variables (path : string) (c : Q).
Hypothesis Hcall : 0 <= call_ms env.

Lemma click_world_hist (dur : Z) (loc : box) (w : world) :
  hist (click_world env dur loc w)
  = MouseUp :: MouseDown
      :: MoveTo (fst (center loc)) (snd (center loc)) :: hist w.
Proof. unfold click_world. destruct (center loc). reflexivity. Qed.

Lemma click_world_clicks (dur : Z) (loc : box) (w : world) :
  clicks (click_world env dur loc w) = S (clicks w)
  /\ releases (click_world env dur loc w) = S (releases w).
Proof. unfold clicks, releases. rewrite click_world_hist. split; reflexivity. Qed.

Lemma click_world_files (dur : Z) (loc : box) (w : world) :
  files (click_world env dur loc w) = files w.
Proof. unfold click_world. destruct (center loc). reflexivity. Qed.

Lemma click_world_clock (dur : Z) (loc : box) (w : world) :
  clock (click_world env dur loc w)
  = clock w + 3 * call_ms env + 500 + dur.
Proof.
  unfold click_world. destruct (center loc). unfold advance, record.
  cbn [clock]. lia.
Qed.

(** One round of the loop of [wait_and_click], after its click. *)
Lemma click_attempts_cons (fuel : nat) (dur : Z) (verify : bool)
    (attempt : nat) (rest : list nat) (loc : box) (w : world) :
  Utils.click_attempts env fuel path c dur verify (attempt :: rest) loc w
  = (if negb verify then ret true
     else
       changed <- Utils._screen_changed env fuel path c RETRY_WAIT 2000 ;;
       if changed then ret true
       else if Nat.ltb attempt RETRY_MAX then
         r <- locateOnScreen env path c ;;
         match r with
         | ImageNotFoundException => ret true
         | LocNone =>
             Utils.click_attempts env fuel path c dur verify rest loc
         | Located new_loc =>
             Utils.click_attempts env fuel path c dur verify rest new_loc
         end
       else ret false) (click_world env dur loc w).
Proof.
  unfold click_world. simpl. destruct (center loc) as [cx cy]. reflexivity.
Qed.

(** One round of the loop of [_screen_changed]. *)
Lemma screen_changed_loop_S (fuel : nat) (wait_time start : Z) (w : world) :
  Utils._screen_changed_loop env (S fuel) path c wait_time 2000 start w
  = if clock w - start <? wait_time then
      let w' := advance (call_ms env) (advance 2000 w) in
      match locate_at env path c (hist w) (clock w + 2000) with
      | Located _ =>
          Utils._screen_changed_loop env fuel path c wait_time 2000 start w'
      | _ => Done true w'
      end
    else Done false w.
Proof.
  simpl. unfold bind, time_time. destruct (clock w - start <? wait_time);
    [|reflexivity].
  unfold sleep, locateOnScreen. simpl.
  destruct (locate_at env path c (hist w) (clock w + 2000)); reflexivity.
Qed.

Lemma keeps_hist_screen_changed_loop (fuel : nat) (wait_time start : Z) :
  keeps hist (Utils._screen_changed_loop env fuel path c wait_time 2000
                start).
Proof. induction fuel as [|fuel IH]; simpl; keeps. Qed.

Lemma keeps_hist_screen_changed (fuel : nat) (wait_time : Z) :
  keeps hist (Utils._screen_changed env fuel path c wait_time 2000).
Proof.
  unfold Utils._screen_changed. keeps. apply keeps_hist_screen_changed_loop.
Qed.

Lemma keeps_hist_wait_for_image (fuel : nat) (timeout interval : Z) :
  keeps hist (Utils.wait_for_image env fuel path timeout c interval).
Proof.
  unfold Utils.wait_for_image. keeps.
  generalize 0%nat. induction fuel as [|fuel IH]; intros attempts; simpl.
  - keeps.
  - unfold Utils._get_best_confidence. keeps; apply IH.
Qed.

(** While the reference stays on screen the check runs to its deadline
    and reports no change. *)
Lemma screen_changed_loop_visible (wait_time start : Z) (fuel : nat) :
  forall w,
    (forall t, is_located (locate_at env path c (hist w) t) = true) ->
    Z.max 0 (start + wait_time - clock w) + 2000 <= 2000 * Z.of_nat fuel ->
    exists w',
      Utils._screen_changed_loop env fuel path c wait_time 2000 start w
      = Done false w'
      /\ hist w' = hist w.
Proof.
  induction fuel as [|fuel IH]; intros w Hvis Hfuel; [lia|].
  rewrite screen_changed_loop_S.
  destruct (Z.ltb_spec (clock w - start) wait_time) as [Hlt|Hge];
    [|eauto].
  cbv zeta. specialize (Hvis (clock w + 2000)) as Hnow.
  destruct (locate_at env path c (hist w) (clock w + 2000));
    try discriminate.
  destruct (IH (advance (call_ms env) (advance 2000 w))) as (w1 & E & Hh);
    [exact Hvis | unfold advance; cbn [clock]; lia |].
  exists w1. split; assumption.
Qed.

(** Once the reference is gone for good before the last poll of the
    window, the check reports the change. *)
Lemma screen_changed_loop_gone (wait_time start td : Z) (fuel : nat) :
  forall w,
    clock w - start < wait_time ->
    td <= start + wait_time - call_ms env ->
    (forall t, td <= t ->
       is_located (locate_at env path c (hist w) t) = false) ->
    Z.max 0 (start + wait_time - clock w) + 2000 <= 2000 * Z.of_nat fuel ->
    exists w',
      Utils._screen_changed_loop env fuel path c wait_time 2000 start w
      = Done true w'
      /\ hist w' = hist w.
Proof.
  induction fuel as [|fuel IH]; intros w Hin Htd Hgone Hfuel; [lia|].
  rewrite screen_changed_loop_S.
  destruct (Z.ltb_spec (clock w - start) wait_time) as [_|Hge]; [|lia].
  cbv zeta.
  destruct (locate_at env path c (hist w) (clock w + 2000)) eqn:E;
    try (eexists; split; reflexivity).
  assert (Hbefore : clock w + 2000 < td).
  { destruct (Z.lt_ge_cases (clock w + 2000) td) as [H|H]; [exact H|].
    specialize (Hgone _ H). rewrite E in Hgone. discriminate. }
  destruct (IH (advance (call_ms env) (advance 2000 w))) as (w1 & E1 & Hh);
    try assumption; try (unfold advance; cbn [clock]; lia).
  exists w1. split; assumption.
Qed.

(** A reference that is on screen is found by the first poll. *)
Lemma wait_for_image_found (fuel : nat) (timeout interval : Z) (loc : box)
    (w : world) :
  0 < timeout ->
  locate_at env path c (hist w) (clock w) = Located loc ->
  Utils.wait_for_image env (S fuel) path timeout c interval w
  = Done (Some loc) (advance (call_ms env) w).
Proof.
  intros Ht Hloc. unfold Utils.wait_for_image. simpl.
  unfold bind, time_time, locateOnScreen.
  replace (clock w - clock w) with 0 by lia.
  destruct (Z.ltb_spec 0 timeout); [|lia]. rewrite Hloc. reflexivity.
Qed.

End ClickAndVerify.

(** ** Exceptions of the click protocol *)
Section NoRaise.

Lemma no_raise_ret {A : Type} (a : A) : no_raise (ret a).
Proof. intros w e w' H. discriminate. Qed.

Lemma no_raise_bind {A B : Type} (m : M A) (k : A -> M B) :
  no_raise m -> (forall a, no_raise (k a)) -> no_raise (bind m k).
Proof.
  intros Hm Hk w e w' H. unfold bind in H.
  destruct (m w) as [a w1|e1 w1|] eqn:E; try discriminate.
  - exact (Hk a _ _ _ H).
  - exact (Hm _ _ _ E).
Qed.

Lemma no_raise_sleep (ms : Z) : no_raise (sleep ms).
Proof. intros w e w' H. discriminate. Qed.

Lemma no_raise_time : no_raise time_time.
Proof. intros w e w' H. discriminate. Qed.

Lemma no_raise_out_of_fuel {A : Type} : no_raise (@out_of_fuel A).
Proof. intros w e w' H. discriminate. Qed.

Variable env : desktop.

Lemma no_raise_actuate (a : action) : no_raise (actuate env a).
Proof. intros w e w' H. discriminate. Qed.

Lemma no_raise_locate (path : string) (c : Q) :
  no_raise (locateOnScreen env path c).
Proof. intros w e w' H. discriminate. Qed.

Lemma no_raise_screenshot (region : box) : no_raise (screenshot env region).
Proof. intros w e w' H. discriminate. Qed.

End NoRaise.

Create HintDb no_raise.
#[local] Hint Resolve no_raise_ret no_raise_sleep no_raise_time
  no_raise_out_of_fuel no_raise_actuate no_raise_locate no_raise_screenshot
  : no_raise.

Ltac no_raise :=
  repeat first
    [ apply no_raise_bind; [|intros ?]
    | match goal with
      | |- no_raise (if ?c then _ else _) => destruct c
      | |- no_raise (match ?x with _ => _ end) => destruct x
      end
    | solve [auto with no_raise] ].

Section ClickProtocol.
Import Config.
Variable env : desktop.
Variables (path : string) (c : Q).

Lemma no_raise_wait_and_click (fuel : nat) (timeout interval dur : Z)
    (verify : bool) :
  no_raise (Utils.wait_and_click env fuel path timeout c interval dur
              verify).
Proof.
  unfold Utils.wait_and_click, Utils.wait_for_image. no_raise.
  - generalize 0%nat. induction fuel as [|f IH]; intros attempts; simpl.
    + no_raise.
    + unfold Utils._get_best_confidence. no_raise; apply IH.
  - generalize (seq 1 RETRY_MAX). intros attempts. revert b.
    induction attempts as [|attempt rest IH]; intros loc; simpl.
    + no_raise.
    + destruct (center loc) as [cx cy].
      unfold moveTo, mouseDown, mouseUp, Utils._screen_changed.
      no_raise; try apply IH.
      clear. induction fuel as [|f IHf]; simpl; no_raise.
Qed.

(** Every round clicks once, so the clicks are bounded by the rounds. *)
Lemma click_attempts_bound (fuel : nat) (dur : Z) (verify : bool)
    (attempts : list nat) :
  forall loc w r w',
    Utils.click_attempts env fuel path c dur verify attempts loc w
    = Done r w' ->
    (clicks w <= clicks w' <= clicks w + length attempts)%nat
    /\ (releases w' + clicks w = clicks w' + releases w)%nat.
Proof.
  induction attempts as [|attempt rest IH]; intros loc w r w' H.
  - inversion H; subst. simpl. lia.
  - rewrite click_attempts_cons in H.
    destruct (click_world_clicks env dur loc w) as [Hc Hr].
    set (w1 := click_world env dur loc w) in *.
    assert (Hgoal : forall w2, hist w2 = hist w1 ->
              clicks w2 = S (clicks w) /\ releases w2 = S (releases w)).
    { intros w2 Hh. unfold clicks, releases in *. rewrite Hh. auto. }
    destruct verify; simpl negb in H; cbv iota in H.
    + apply bind_done in H. destruct H as (changed & w2 & E2 & H).
      apply keeps_hist_screen_changed in E2.
      destruct changed;
        [inversion H; subst; destruct (Hgoal _ E2); simpl length; lia|].
      destruct (Nat.ltb attempt RETRY_MAX);
        [|inversion H; subst; destruct (Hgoal _ E2); simpl length; lia].
      apply bind_done in H. destruct H as (r0 & w3 & E3 & H).
      apply (keeps_locate hist timeless_hist) in E3.
      assert (Hh : hist w3 = hist w1) by congruence.
      destruct (Hgoal w3 Hh) as [Hc3 Hr3].
      destruct r0; [inversion H; subst; simpl length; lia| |];
        apply IH in H; simpl length; lia.
    + inversion H; subst. destruct (Hgoal w1 eq_refl). simpl length. lia.
Qed.

End ClickProtocol.

Section ClickScenarios.
Import Config.
Variable env : desktop.
Variables (path : string) (c : Q).
Hypothesis Hcall : 0 <= call_ms env.

(** With fuel for one poll every two seconds the check comes to an
    answer. *)
Lemma screen_changed_loop_total (wait_time start : Z) (fuel : nat) :
  forall w,
    Z.max 0 (start + wait_time - clock w) + 2000 <= 2000 * Z.of_nat fuel ->
    exists b w',
      Utils._screen_changed_loop env fuel path c wait_time 2000 start w
      = Done b w'.
Proof.
  induction fuel as [|fuel IH]; intros w Hfuel; [lia|].
  rewrite screen_changed_loop_S.
  destruct (Z.ltb_spec (clock w - start) wait_time) as [Hlt|Hge];
    [|eauto].
  cbv zeta.
  destruct (locate_at env path c (hist w) (clock w + 2000)); eauto.
  apply IH. unfold advance. cbn [clock]. lia.
Qed.

Lemma screen_changed_total (fuel : nat) (w : world) :
  (16 <= fuel)%nat ->
  exists b w',
    Utils._screen_changed env fuel path c RETRY_WAIT 2000 w = Done b w'.
Proof.
  intros Hfuel. unfold Utils._screen_changed, bind, time_time.
  apply screen_changed_loop_total. unfold RETRY_WAIT. lia.
Qed.

Lemma click_attempts_total (fuel : nat) (dur : Z) (verify : bool)
    (attempts : list nat) :
  (16 <= fuel)%nat ->
  forall loc w,
  exists r w',
    Utils.click_attempts env fuel path c dur verify attempts loc w
    = Done r w'.
Proof.
  intros Hfuel.
  induction attempts as [|attempt rest IH]; intros loc w; [simpl; eauto|].
  rewrite click_attempts_cons.
  destruct verify; cbn [negb]; [|eauto].
  unfold bind at 1.
  destruct (screen_changed_total fuel (click_world env dur loc w) Hfuel)
    as (b & w2 & ->).
  destruct b; [eauto|].
  destruct (Nat.ltb attempt RETRY_MAX); [|eauto].
  unfold bind, locateOnScreen.
  destruct (locate_at env path c (hist w2) (clock w2)); eauto.
Qed.

Lemma wait_for_image_loop_total (timeout interval start : Z) (fuel : nat) :
  0 < interval ->
  forall attempts w,
    Z.max 0 (start + timeout - clock w) + interval
    <= interval * Z.of_nat fuel ->
    exists r w',
      Utils.wait_for_image_loop env fuel path timeout c interval start
        attempts w = Done r w'.
Proof.
  intros Hint. induction fuel as [|fuel IH]; intros attempts w Hfuel; [nia|].
  cbn [Utils.wait_for_image_loop]. unfold bind at 1, time_time.
  destruct (Z.ltb_spec (clock w - start) timeout) as [Hlt|Hge].
  - unfold bind at 1, locateOnScreen.
    assert (Hnext : forall w1,
              clock w + interval <= clock w1 ->
              exists r w',
                Utils.wait_for_image_loop env fuel path timeout c interval
                  start (S attempts) w1 = Done r w').
    { intros w1 Hw1. apply IH.
      rewrite Nat2Z.inj_succ, Z.mul_succ_r in Hfuel.
      assert (Hone : 1 <= Z.of_nat fuel)
        by (destruct fuel; [rewrite Z.mul_0_r in Hfuel; lia | lia]).
      assert (Hmul : interval <= interval * Z.of_nat fuel) by nia.
      lia. }
    assert (Hcont : exists r w',
              ((if Nat.eqb (S attempts mod 5) 0
                then Utils._get_best_confidence env path else ret tt) ;;;
               sleep interval ;;;
               Utils.wait_for_image_loop env fuel path timeout c interval
                 start (S attempts))
                (advance (call_ms env) w) = Done r w').
    { destruct (Nat.eqb (S attempts mod 5) 0);
        unfold bind, Utils._get_best_confidence, screenshot, ret, sleep;
        apply Hnext; unfold advance; cbn [clock]; lia. }
    destruct (locate_at env path c (hist w) (clock w));
      [exact Hcont | exact Hcont | eexists _, _; reflexivity].
  - eexists _, _. reflexivity.
Qed.

Lemma wait_and_click_total (fuel : nat) (timeout interval dur : Z)
    (verify : bool) (w : world) :
  0 < interval -> (16 <= fuel)%nat ->
  Z.max 0 timeout + interval <= interval * Z.of_nat fuel ->
  exists r w',
    Utils.wait_and_click env fuel path timeout c interval dur verify w
    = Done r w'.
Proof.
  intros Hint Hfuel Hwait. unfold Utils.wait_and_click.
  unfold bind at 1, Utils.wait_for_image. unfold bind at 1, time_time.
  destruct (wait_for_image_loop_total timeout interval (clock w) fuel Hint
              0%nat w) as (r & w1 & ->); [lia|].
  destruct r as [loc|]; [|unfold ret; eauto].
  apply click_attempts_total. exact Hfuel.
Qed.

End ClickScenarios.

Section ClickVerdicts.
Import Config.
Variable env : desktop.
Variables (path : string) (c : Q).
Hypothesis Hcall : 0 <= call_ms env.

Lemma screen_changed_gone (fuel : nat) (w : world) (td : Z) :
  (16 <= fuel)%nat ->
  td <= clock w + RETRY_WAIT - call_ms env ->
  (forall t, td <= t ->
     is_located (locate_at env path c (hist w) t) = false) ->
  exists w',
    Utils._screen_changed env fuel path c RETRY_WAIT 2000 w = Done true w'
    /\ hist w' = hist w.
Proof.
  intros Hfuel Htd Hgone. unfold Utils._screen_changed, bind, time_time.
  apply screen_changed_loop_gone with td; auto; unfold RETRY_WAIT in *; lia.
Qed.

Lemma screen_changed_visible (fuel : nat) (w : world) :
  (16 <= fuel)%nat ->
  (forall t, is_located (locate_at env path c (hist w) t) = true) ->
  exists w',
    Utils._screen_changed env fuel path c RETRY_WAIT 2000 w = Done false w'
    /\ hist w' = hist w.
Proof.
  intros Hfuel Hvis. unfold Utils._screen_changed, bind, time_time.
  apply screen_changed_loop_visible; auto. unfold RETRY_WAIT. lia.
Qed.

(** Still there after the first click, gone in the window after the
    second: success, with two clicks. *)
Lemma second_click_succeeds (fuel : nat) (timeout interval dur : Z)
    (w w0 w1 : world) (loc0 loc1 : box) (td : Z) :
  (16 <= fuel)%nat ->
  Utils.wait_for_image env fuel path timeout c interval w
  = Done (Some loc0) w0 ->
  Utils._screen_changed env fuel path c RETRY_WAIT 2000
    (click_world env dur loc0 w0) = Done false w1 ->
  locate_at env path c (hist w1) (clock w1) = Located loc1 ->
  let w2 := click_world env dur loc1 (advance (call_ms env) w1) in
  td <= clock w2 + RETRY_WAIT - call_ms env ->
  (forall t, td <= t ->
     is_located (locate_at env path c (hist w2) t) = false) ->
  exists w',
    Utils.wait_and_click env fuel path timeout c interval dur true w
    = Done true w'
    /\ clicks w' = (clicks w + 2)%nat
    /\ releases w' = (releases w + 2)%nat.
Proof.
  intros Hfuel Hfound Hstill Hloc w2 Htd Hgone.
  destruct (screen_changed_gone fuel w2 td Hfuel Htd Hgone) as (w' & E & Hh).
  exists w'. split.
  - unfold Utils.wait_and_click. unfold bind at 1. rewrite Hfound.
    change (seq 1 RETRY_MAX) with [1; 2; 3]%nat.
    rewrite click_attempts_cons. cbn [negb]. unfold bind at 1.
    rewrite Hstill. cbn [Nat.ltb Nat.leb RETRY_MAX].
    unfold bind at 1, locateOnScreen. rewrite Hloc.
    rewrite click_attempts_cons. cbn [negb]. unfold bind at 1.
    fold w2. rewrite E. reflexivity.
  - apply keeps_hist_wait_for_image in Hfound.
    apply keeps_hist_screen_changed in Hstill.
    unfold clicks, releases. rewrite Hh. unfold w2.
    rewrite click_world_hist. cbn [hist advance].
    rewrite Hstill, click_world_hist, Hfound. simpl.
    split; f_equal; lia.
Qed.

(** A reference that never goes away uses up every attempt. *)
Lemma always_visible_fails (fuel : nat) (dur : Z) :
  (16 <= fuel)%nat ->
  (forall h t, is_located (locate_at env path c h t) = true) ->
  forall n a loc w,
    (a + n = S RETRY_MAX)%nat ->
    exists w',
      Utils.click_attempts env fuel path c dur true (seq a n) loc w
      = Done false w'
      /\ clicks w' = (clicks w + n)%nat.
Proof.
  intros Hfuel Hvis.
  induction n as [|n IH]; intros a loc w Han.
  - exists w. split; [reflexivity | lia].
  - cbn [seq]. rewrite click_attempts_cons. cbn [negb]. unfold bind at 1.
    destruct (screen_changed_visible fuel (click_world env dur loc w) Hfuel)
      as (w2 & -> & Hh); [intros t; apply Hvis|].
    assert (Hc2 : clicks w2 = S (clicks w)).
    { unfold clicks. rewrite Hh. apply click_world_clicks. }
    destruct (Nat.ltb_spec a RETRY_MAX) as [Hlt|Hge].
    + unfold bind, locateOnScreen.
      pose proof (Hvis (hist w2) (clock w2)) as Hnow.
      destruct (locate_at env path c (hist w2) (clock w2)) as [| |new_loc];
        try discriminate.
      destruct (IH (S a) new_loc (advance (call_ms env) w2)) as (w' & E & Hc);
        [lia|].
      exists w'. split; [exact E|].
      rewrite Hc. unfold clicks in *. cbn [hist advance]. lia.
    + exists w2. split; [reflexivity|]. unfold RETRY_MAX in *. lia.
Qed.

End ClickVerdicts.

(** C2.  [wait_and_click] with [verify = true], on a desktop whose calls
    take no negative time.  (1) When the first disappearance check fails
    and the re-location finds the reference, and the reference is gone
    for good from some moment of the window that follows the second
    click, the call returns [True] after exactly two mouseDown and two
    mouseUp actions.  (2) Whatever the screen does, a call that returns
    has performed at most RETRY_MAX clicks, each one released; no
    exception escapes; and with enough fuel the call returns.  (3) When
    the reference never leaves the screen the call returns [False] after
    exactly RETRY_MAX clicks. *)
Theorem click_and_verify (env : desktop) (path : string) (c : Q)
    (timeout interval dur : Z) :
  0 <= call_ms env ->
  (forall fuel w w0 w1 loc0 loc1 td,
     (16 <= fuel)%nat ->
     Utils.wait_for_image env fuel path timeout c interval w
     = Done (Some loc0) w0 ->
     Utils._screen_changed env fuel path c Config.RETRY_WAIT 2000
       (click_world env dur loc0 w0) = Done false w1 ->
     locate_at env path c (hist w1) (clock w1) = Located loc1 ->
     td <= clock (click_world env dur loc1 (advance (call_ms env) w1))
           + Config.RETRY_WAIT - call_ms env ->
     (forall t, td <= t ->
        is_located
          (locate_at env path c
             (hist (click_world env dur loc1 (advance (call_ms env) w1))) t)
        = false) ->
     exists w',
       Utils.wait_and_click env fuel path timeout c interval dur true w
       = Done true w'
       /\ clicks w' = (clicks w + 2)%nat
       /\ releases w' = (releases w + 2)%nat)
  /\ (forall fuel verify w r w',
        Utils.wait_and_click env fuel path timeout c interval dur verify w
        = Done r w' ->
        (clicks w' <= clicks w + Config.RETRY_MAX)%nat
        /\ (releases w' + clicks w = clicks w' + releases w)%nat)
  /\ (forall fuel verify w e w',
        Utils.wait_and_click env fuel path timeout c interval dur verify w
        <> Raised e w')
  /\ (forall fuel verify w,
        0 < interval -> (16 <= fuel)%nat ->
        Z.max 0 timeout + interval <= interval * Z.of_nat fuel ->
        exists r w',
          Utils.wait_and_click env fuel path timeout c interval dur verify w
          = Done r w')
  /\ (forall fuel w,
        (16 <= fuel)%nat -> 0 < timeout ->
        (forall h t, is_located (locate_at env path c h t) = true) ->
        exists w',
          Utils.wait_and_click env fuel path timeout c interval dur true w
          = Done false w'
          /\ clicks w' = (clicks w + Config.RETRY_MAX)%nat).
Proof.
  intros Hcall. split; [|split; [|split; [|split]]].
  - intros fuel w w0 w1 loc0 loc1 td Hfuel Hfound Hstill Hloc Htd Hgone.
    exact (second_click_succeeds env path c Hcall fuel timeout interval dur
             w w0 w1 loc0 loc1 td Hfuel Hfound Hstill Hloc Htd Hgone).
  - intros fuel verify w r w' H. unfold Utils.wait_and_click in H.
    apply bind_done in H. destruct H as (found & w0 & E0 & H).
    apply keeps_hist_wait_for_image in E0.
    destruct found as [loc|].
    + apply click_attempts_bound in H. unfold clicks, releases in *.
      rewrite <- E0. rewrite length_seq in H. lia.
    + inversion H; subst. unfold clicks, releases. rewrite E0. lia.
  - intros fuel verify. apply no_raise_wait_and_click.
  - intros fuel verify w Hint Hfuel Hwait.
    apply wait_and_click_total; assumption.
  - intros fuel w Hfuel Htimeout Hvis.
    destruct fuel as [|fuel]; [lia|].
    pose proof (Hvis (hist w) (clock w)) as Hnow.
    destruct (locate_at env path c (hist w) (clock w)) as [| |loc] eqn:Eloc;
      try discriminate.
    destruct (always_visible_fails env path c Hcall (S fuel) dur Hfuel Hvis
                Config.RETRY_MAX 1%nat loc (advance (call_ms env) w)
                eq_refl) as (w' & E & Hc).
    exists w'. split; [|exact Hc].
    unfold Utils.wait_and_click. unfold bind at 1.
    rewrite (wait_for_image_found env path c fuel timeout interval loc w
               Htimeout Eloc).
    exact E.
Qed.

Lemma click_and_verify_witness :
  (exists w',
     Utils.wait_and_click Scenes.stuck_once 16 "ref" 60000 (4 # 5) 1000 200
       true Scenes.start = Done true w'
     /\ clicks w' = 2%nat /\ releases w' = 2%nat)
  /\ (exists w',
        Utils.wait_and_click Scenes.stuck 16 "ref" 60000 (4 # 5) 1000 200
          true Scenes.start = Done false w'
        /\ clicks w' = 3%nat).
Proof.
  split.
  - destruct (click_and_verify Scenes.stuck_once "ref" (4 # 5) 60000 1000 200)
      as (Htwo & _); [vm_compute; discriminate|].
    apply (Htwo 16%nat Scenes.start (advance 100 Scenes.start)
             (mkWorld 32600 [MouseUp; MouseDown; MoveTo 120 210] [])
             Scenes.button Scenes.button 40000).
    + lia.
    + vm_compute. reflexivity.
    + vm_compute. reflexivity.
    + reflexivity.
    + vm_compute. discriminate.
    + intros t Ht. cbn.
      destruct (Z.ltb_spec t 40000); [lia | reflexivity].
  - destruct (click_and_verify Scenes.stuck "ref" (4 # 5) 60000 1000 200)
      as (_ & _ & _ & _ & Hall); [vm_compute; discriminate|].
    apply (Hall 16%nat Scenes.start); [lia | lia | reflexivity].
Defined.

(** C6.  In a round of [wait_and_click] that is not the last, when the
    disappearance check has failed and the re-location then raises
    not-found, the call returns [True] at once: the clicks are those
    made up to this round's, and nothing is clicked after it.  For the
    first round this is the whole call. *)
Theorem vanished_during_retry (env : desktop) (path : string) (c : Q)
    (fuel : nat) (dur : Z) (attempt : nat) (rest : list nat) (loc : box)
    (w w1 : world) :
  (attempt < Config.RETRY_MAX)%nat ->
  Utils._screen_changed env fuel path c Config.RETRY_WAIT 2000
    (click_world env dur loc w) = Done false w1 ->
  locate_at env path c (hist w1) (clock w1) = ImageNotFoundException ->
  let w' := advance (call_ms env) w1 in
  Utils.click_attempts env fuel path c dur true (attempt :: rest) loc w
  = Done true w'
  /\ hist w'
     = MouseUp :: MouseDown
         :: MoveTo (fst (center loc)) (snd (center loc)) :: hist w
  /\ clicks w' = S (clicks w)
  /\ (forall timeout interval w0,
        Utils.wait_for_image env fuel path timeout c interval w0
        = Done (Some loc) w ->
        Utils.wait_and_click env fuel path timeout c interval dur true w0
        = Done true w'
        /\ clicks w' = S (clicks w0)).
Proof.
  intros Hlt Hstill Hgone w'.
  assert (Hrun : forall a l, (a < Config.RETRY_MAX)%nat ->
            Utils.click_attempts env fuel path c dur true (a :: l) loc w
            = Done true w').
  { intros a l Ha. rewrite click_attempts_cons. cbn [negb].
    unfold bind at 1. rewrite Hstill.
    destruct (Nat.ltb_spec a Config.RETRY_MAX) as [_|Hge]; [|lia].
    unfold bind, locateOnScreen. rewrite Hgone. reflexivity. }
  assert (Hh : hist w'
               = MouseUp :: MouseDown
                   :: MoveTo (fst (center loc)) (snd (center loc)) :: hist w).
  { apply keeps_hist_screen_changed in Hstill. unfold w'.
    cbn [hist advance]. rewrite Hstill. apply click_world_hist. }
  assert (Hc : clicks w' = S (clicks w)).
  { unfold clicks. rewrite Hh. reflexivity. }
  split; [exact (Hrun attempt rest Hlt)|].
  split; [exact Hh|]. split; [exact Hc|].
  intros timeout interval w0 Hfound. split.
  - unfold Utils.wait_and_click. unfold bind at 1. rewrite Hfound.
    apply Hrun. unfold Config.RETRY_MAX. lia.
  - apply keeps_hist_wait_for_image in Hfound.
    rewrite Hc. unfold clicks. rewrite Hfound. reflexivity.
Qed.

Lemma vanished_during_retry_witness :
  Utils.wait_and_click Scenes.vanishing 16 "ref" 60000 (4 # 5) 1000 200 true
    Scenes.start
  = Done true (mkWorld 32700 [MouseUp; MouseDown; MoveTo 120 210] [])
  /\ clicks (mkWorld 32700 [MouseUp; MouseDown; MoveTo 120 210] [])
     = 1%nat.
Proof.
  destruct (vanished_during_retry Scenes.vanishing "ref" (4 # 5) 16 200 1
              [2; 3]%nat Scenes.button (advance 100 Scenes.start)
              (mkWorld 32600 [MouseUp; MouseDown; MoveTo 120 210] []))
    as (_ & _ & _ & Hcall).
  - unfold Config.RETRY_MAX. lia.
  - vm_compute. reflexivity.
  - reflexivity.
  - apply (Hcall 60000 1000 Scenes.start). vm_compute. reflexivity.
Defined.

(** ** Scroll-synchronised enumeration *)
Section Enumerator.
Import Config.
Variable env : desktop.

Lemma bind_run {A B : Type} (m : M A) (k : A -> M B) (w w1 : world) (a : A) :
  m w = Done a w1 -> bind m k w = k a w1.
Proof. intros H. unfold bind. rewrite H. reflexivity. Qed.

Lemma frames_match_cases (a b : image) :
  ServiceLoop._frames_match a b = Ok true
  \/ ServiceLoop._frames_match a b = Ok false.
Proof.
  destruct (frames_match_total a b 5) as [[|] H]; [left | right]; exact H.
Qed.

Lemma repeat_shift {A : Type} (x : A) (n : nat) (l : list A) :
  repeat x n ++ x :: l = x :: repeat x n ++ l.
Proof.
  induction n as [|n IH]; simpl; [reflexivity|]. rewrite IH. reflexivity.
Qed.

Lemma frames_from_length (n : nat) :
  forall w, length (frames_from env n w) = n.
Proof.
  induction n as [|n IH]; intros w; simpl; [reflexivity|].
  rewrite IH. reflexivity.
Qed.

Lemma leading_changes_le (frames : list image) :
  forall prev, (leading_changes prev frames <= length frames)%nat.
Proof.
  induction frames as [|f rest IH]; intros prev; simpl; [lia|].
  destruct (ServiceLoop._frames_match prev f) as [[|]|e];
    try specialize (IH f); lia.
Qed.

Lemma train_scroll_amounts (amount settle : Z) (w : world) :
  scroll_amounts (hist (train_scroll_world env amount settle w))
  = amount :: scroll_amounts (hist w).
Proof. reflexivity. Qed.

(** One round of the loop of [count_trains]. *)
Lemma count_loop_S (rounds : nat) (prev : image) (s : nat) (w : world) :
  ServiceLoop.count_loop env (S rounds) prev s w
  = let w1 := train_scroll_world env TRAIN_SCROLL_PER_BOX 1000 w in
    let curr := train_box_shot env w1 in
    let w2 := advance (call_ms env) w1 in
    match ServiceLoop._frames_match prev curr with
    | Ok true => Done s w2
    | Ok false => ServiceLoop.count_loop env rounds curr (S s) w2
    | Err e => Raised e w2
    end.
Proof.
  cbn [ServiceLoop.count_loop]. cbv zeta.
  unfold bind, moveTo, scroll, actuate, sleep, ServiceLoop._capture,
    screenshot, lift, train_box_shot, train_scroll_world.
  cbn [hist clock advance record].
  destruct (ServiceLoop._frames_match prev _) as [[|]|e]; reflexivity.
Qed.

(** The loop counts the frames that differ from their predecessor, up to
    the first that does not or to the end of its rounds, and turns the
    wheel once per round it runs. *)
Lemma count_loop_counts (rounds : nat) :
  forall prev s w,
    let k := leading_changes prev (frames_from env rounds w) in
    exists w',
      ServiceLoop.count_loop env rounds prev s w = Done (s + k)%nat w'
      /\ scroll_amounts (hist w')
         = repeat TRAIN_SCROLL_PER_BOX (Nat.min rounds (S k))
           ++ scroll_amounts (hist w).
Proof.
  induction rounds as [|rounds IH]; intros prev s w k.
  - exists w. unfold k. cbn [ServiceLoop.count_loop frames_from
      leading_changes]. unfold ret. rewrite Nat.add_0_r.
    split; reflexivity.
  - rewrite count_loop_S. unfold k. cbn [frames_from leading_changes].
    cbv zeta.
    set (w1 := train_scroll_world env TRAIN_SCROLL_PER_BOX 1000 w).
    destruct (frames_match_cases prev (train_box_shot env w1)) as [E|E];
      rewrite E.
    + exists (advance (call_ms env) w1). rewrite Nat.add_0_r.
      split; [reflexivity|]. cbn [Nat.min]. rewrite Nat.min_0_r. reflexivity.
    + destruct (IH (train_box_shot env w1) (S s) (advance (call_ms env) w1))
        as (w' & Hrun & Hamounts).
      exists w'. split.
      * rewrite Hrun. f_equal. lia.
      * rewrite Hamounts. cbn [hist advance]. unfold w1.
        rewrite train_scroll_amounts.
        cbn [Nat.min repeat]. rewrite repeat_shift. reflexivity.
Qed.

(** [count_trains] on any desktop, for any ceiling of its loop. *)
Lemma count_trains_counts (max_scrolls : nat) (w : world) :
  let first := train_box_shot env w in
  let k := leading_changes first
             (frames_from env max_scrolls (advance (call_ms env) w)) in
  exists w',
    ServiceLoop.count_trains_upto env max_scrolls w
    = Done (ServiceLoop._count_visible_trains first + k)%nat w'
    /\ (k <= max_scrolls)%nat
    /\ scroll_amounts (hist w')
       = (if Nat.ltb 0 k then [- TRAIN_SCROLL_PER_BOX * Z.of_nat k] else [])
         ++ repeat TRAIN_SCROLL_PER_BOX (Nat.min max_scrolls (S k))
         ++ scroll_amounts (hist w).
Proof.
  intros first k.
  pose proof (count_loop_counts max_scrolls first 0
                (advance (call_ms env) w)) as H.
  cbv zeta in H. fold k in H. destruct H as (w1 & Hrun & Hamounts).
  cbn [Nat.add] in Hrun.
  assert (Hk : (k <= max_scrolls)%nat).
  { unfold k.
    rewrite <- (frames_from_length max_scrolls (advance (call_ms env) w))
      at 2.
    apply leading_changes_le. }
  clearbody k.
  unfold ServiceLoop.count_trains_upto.
  rewrite (bind_run (ServiceLoop._capture env) _ w
             (advance (call_ms env) w) first eq_refl).
  rewrite (bind_run _ _ _ _ _ Hrun).
  destruct (Nat.ltb 0 k);
    unfold bind, moveTo, scroll, actuate, sleep, ret;
    eexists; (split; [reflexivity|]); (split; [exact Hk|]).
  - cbn [hist advance record scroll_amounts app].
    rewrite Hamounts. reflexivity.
  - cbn [app]. exact Hamounts.
Qed.

End Enumerator.

(** ** Counting on a scrollable list *)
Section ListDesktop.
Import Config.
Variable env : desktop.
Variable max_offset : Z.
Variable render : Z -> image.

Hypothesis Hmax : 0 <= max_offset.
(** The train box shows the list at the offset the scrolls have set. *)
Hypothesis Hlist :
  forall h t, screenshot_at env TrainBox.region h t
              = render (offset_of max_offset h).
(** Two captures at one offset match. *)
Hypothesis Hsame :
  forall p, 0 <= p <= max_offset ->
    ServiceLoop._frames_match (render p) (render p) = Ok true.
(** A scroll by one box away from the end changes the capture. *)
Hypothesis Hdetect :
  forall p, 0 <= p < max_offset ->
    ServiceLoop._frames_match (render p)
      (render (Z.min max_offset (p - TRAIN_SCROLL_PER_BOX))) = Ok false.

Lemma offset_of_range (h : list action) :
  0 <= offset_of max_offset h <= max_offset.
Proof.
  induction h as [|a h IH]; simpl; [lia|]. destruct a; lia.
Qed.

Lemma count_loop_list (rounds : nat) :
  forall w s,
    let p := offset_of max_offset (hist w) in
    let k := list_scrolls max_offset rounds p in
    p <= - TRAIN_SCROLL_PER_BOX * Z.of_nat s ->
    exists w',
      ServiceLoop.count_loop env rounds (render p) s w
      = Done (s + k)%nat w'
      /\ offset_of max_offset (hist w')
         <= - TRAIN_SCROLL_PER_BOX * Z.of_nat (s + k).
Proof.
  induction rounds as [|rounds IH]; intros w s p k Hp.
  - exists w. unfold k. cbn [ServiceLoop.count_loop list_scrolls].
    unfold ret. rewrite Nat.add_0_r. split; [reflexivity | exact Hp].
  - pose proof (offset_of_range (hist w)) as Hrange. fold p in Hrange.
    rewrite count_loop_S. cbv zeta.
    set (w1 := train_scroll_world env TRAIN_SCROLL_PER_BOX 1000 w).
    assert (Hp1 : offset_of max_offset (hist w1)
                  = Z.min max_offset (p - TRAIN_SCROLL_PER_BOX)).
    { unfold w1, train_scroll_world. cbn [hist advance record offset_of].
      fold p. unfold TRAIN_SCROLL_PER_BOX. lia. }
    unfold train_box_shot. rewrite Hlist, Hp1.
    unfold k. cbn [list_scrolls].
    destruct (Z.ltb_spec p max_offset) as [Hlt|Hge].
    + rewrite (Hdetect p) by lia.
      pose proof (IH (advance (call_ms env) w1) (S s)) as Hnext.
      cbv zeta in Hnext. cbn [hist advance] in Hnext. rewrite Hp1 in Hnext.
      destruct Hnext as (w' & Hrun & Hoff).
      { unfold TRAIN_SCROLL_PER_BOX in *. lia. }
      exists w'. rewrite Hrun.
      replace (s + S (list_scrolls max_offset rounds
                        (Z.min max_offset (p - TRAIN_SCROLL_PER_BOX))))%nat
        with (S s + list_scrolls max_offset rounds
                      (Z.min max_offset (p - TRAIN_SCROLL_PER_BOX)))%nat
        by lia.
      split; [reflexivity | exact Hoff].
    + replace (Z.min max_offset (p - TRAIN_SCROLL_PER_BOX)) with p
        by (unfold TRAIN_SCROLL_PER_BOX; lia).
      rewrite (Hsame p) by lia.
      exists (advance (call_ms env) w1). rewrite Nat.add_0_r.
      split; [reflexivity|]. cbn [hist advance]. rewrite Hp1.
      unfold TRAIN_SCROLL_PER_BOX in *. lia.
Qed.

(** From the top of the list, [count_trains] returns a total that the
    list alone determines and leaves the list at the top. *)
Lemma count_trains_list (max_scrolls : nat) (w : world) :
  offset_of max_offset (hist w) = 0 ->
  exists w',
    ServiceLoop.count_trains_upto env max_scrolls w
    = Done (ServiceLoop._count_visible_trains (render 0)
            + list_scrolls max_offset max_scrolls 0)%nat w'
    /\ offset_of max_offset (hist w') = 0.
Proof.
  intros Htop.
  pose proof (count_loop_list max_scrolls (advance (call_ms env) w) 0) as H.
  cbv zeta in H. cbn [hist advance] in H. rewrite Htop in H.
  destruct H as (w1 & Hrun & Hoff); [unfold TRAIN_SCROLL_PER_BOX; lia|].
  cbn [Nat.add] in Hrun, Hoff.
  pose proof (offset_of_range (hist w1)) as Hrange.
  set (k := list_scrolls max_offset max_scrolls 0) in *. clearbody k.
  unfold ServiceLoop.count_trains_upto.
  rewrite (bind_run (ServiceLoop._capture env) _ w
             (advance (call_ms env) w) (render 0)).
  2:{ unfold ServiceLoop._capture, screenshot. rewrite Hlist, Htop.
      reflexivity. }
  rewrite (bind_run _ _ _ _ _ Hrun).
  destruct (Nat.ltb_spec 0 k) as [Hpos|Hzero];
    unfold bind, moveTo, scroll, actuate, sleep, ret;
    eexists; (split; [reflexivity|]).
  - cbn [hist advance record offset_of].
    unfold TRAIN_SCROLL_PER_BOX in *. lia.
  - assert (k = 0%nat) by lia. subst k.
    unfold TRAIN_SCROLL_PER_BOX in *. lia.
Qed.

End ListDesktop.

(** C3.  On any desktop [count_trains] returns the number of entries
    visible in the first frame plus the number of frames, in the sequence
    captured after each scroll by one box, that differ from their
    predecessor before the first one that matches it; the loop runs at
    most 30 rounds, one scroll per round, and is followed by one scroll
    back by as many boxes as were counted, unless none was.  On a
    scrollable list that starts at the top, where a scroll that moves the
    list changes the capture and one that does not leaves it as it was,
    a second call returns the same total as the first, the list is at the
    top after each call, and the capture after the second call is the
    capture before the first. *)
Theorem count_trains_total_and_restore (env : desktop) (w : world) :
  (let first := train_box_shot env w in
   let k := leading_changes first
              (frames_from env 30 (advance (call_ms env) w)) in
   exists w',
     ServiceLoop.count_trains env w
     = Done (ServiceLoop._count_visible_trains first + k)%nat w'
     /\ (k <= 30)%nat
     /\ scroll_amounts (hist w')
        = (if Nat.ltb 0 k
           then [- Config.TRAIN_SCROLL_PER_BOX * Z.of_nat k] else [])
          ++ repeat Config.TRAIN_SCROLL_PER_BOX (Nat.min 30 (S k))
          ++ scroll_amounts (hist w))
  /\ (forall (max_offset : Z) (render : Z -> image),
        0 <= max_offset ->
        (forall h t, screenshot_at env TrainBox.region h t
                     = render (offset_of max_offset h)) ->
        (forall p, 0 <= p <= max_offset ->
           ServiceLoop._frames_match (render p) (render p) = Ok true) ->
        (forall p, 0 <= p < max_offset ->
           ServiceLoop._frames_match (render p)
             (render (Z.min max_offset (p - Config.TRAIN_SCROLL_PER_BOX)))
           = Ok false) ->
        offset_of max_offset (hist w) = 0 ->
        exists total w1 w2,
          ServiceLoop.count_trains env w = Done total w1
          /\ ServiceLoop.count_trains env w1 = Done total w2
          /\ offset_of max_offset (hist w1) = 0
          /\ offset_of max_offset (hist w2) = 0
          /\ train_box_shot env w2 = train_box_shot env w).
Proof.
  split; [exact (count_trains_counts env 30 w)|].
  intros max_offset render Hmax Hlist Hsame Hdetect Htop.
  destruct (count_trains_list env max_offset render Hmax Hlist Hsame Hdetect
              30 w Htop) as (w1 & E1 & H1).
  destruct (count_trains_list env max_offset render Hmax Hlist Hsame Hdetect
              30 w1 H1) as (w2 & E2 & H2).
  eexists. exists w1, w2.
  split; [exact E1|]. split; [exact E2|]. split; [exact H1|].
  split; [exact H2|].
  unfold train_box_shot. rewrite !Hlist, H2, Htop. reflexivity.
Qed.

(** ** Seeking an index *)
Section Seek.
Import Config.
Variable env : desktop.

(** Every capture of the train box has one shape. *)
Hypothesis Hshape :
  forall h t h' t',
    shape (screenshot_at env TrainBox.region h t)
    = shape (screenshot_at env TrainBox.region h' t').

(** One round of the loop of [click_train]. *)
Lemma scroll_one_box_eq (w : world) :
  Navigator.scroll_one_box env w
  = let before := train_box_shot env w in
    let w1 := train_scroll_world env TRAIN_SCROLL_PER_BOX 1000
                (advance (call_ms env) w) in
    let after := train_box_shot env w1 in
    Done (unmoved (before, after)) (advance (call_ms env) w1).
Proof.
  unfold Navigator.scroll_one_box, unmoved. cbv zeta.
  unfold bind, moveTo, scroll, actuate, sleep, screenshot, lift, ret,
    train_box_shot, train_scroll_world.
  cbn [hist clock advance record fst snd].
  rewrite mean_abs_diff_same_shape by apply Hshape. reflexivity.
Qed.

Lemma leading_moves_le (pairs : list (image * image)) :
  (leading_moves pairs <= length pairs)%nat.
Proof.
  induction pairs as [|shots rest IH]; simpl; [lia|].
  destruct (unmoved shots); lia.
Qed.

Lemma seek_pairs_length (n : nat) :
  forall w, length (seek_pairs env n w) = n.
Proof.
  induction n as [|n IH]; intros w; simpl; [reflexivity|].
  rewrite IH. reflexivity.
Qed.

(** The loop counts the rounds whose two captures differ, up to the
    first round whose captures do not or to the end of its rounds, and
    turns the wheel once per round it runs. *)
Lemma seek_loop_counts (rounds : nat) :
  forall done w,
    let k := leading_moves (seek_pairs env rounds w) in
    exists w',
      Navigator.seek_loop env rounds done w = Done (done + k)%nat w'
      /\ scroll_amounts (hist w')
         = repeat TRAIN_SCROLL_PER_BOX (Nat.min rounds (S k))
           ++ scroll_amounts (hist w).
Proof.
  induction rounds as [|rounds IH]; intros done w k.
  - exists w. unfold k. cbn [Navigator.seek_loop seek_pairs leading_moves].
    unfold ret. rewrite Nat.add_0_r. split; reflexivity.
  - cbn [Navigator.seek_loop]. unfold bind at 1.
    rewrite scroll_one_box_eq. cbv zeta.
    unfold k. cbn [seek_pairs leading_moves]. cbv zeta.
    set (w1 := train_scroll_world env TRAIN_SCROLL_PER_BOX 1000
                 (advance (call_ms env) w)).
    destruct (unmoved (train_box_shot env w, train_box_shot env w1)).
    + exists (advance (call_ms env) w1). unfold ret.
      rewrite Nat.add_0_r. split; [reflexivity|].
      cbn [Nat.min]. rewrite Nat.min_0_r. reflexivity.
    + destruct (IH (S done) (advance (call_ms env) w1))
        as (w' & Hrun & Hamounts).
      exists w'. split.
      * rewrite Hrun. f_equal. lia.
      * rewrite Hamounts. cbn [hist advance]. unfold w1.
        rewrite train_scroll_amounts. cbn [hist advance].
        cbn [Nat.min repeat]. rewrite repeat_shift. reflexivity.
Qed.

Lemma click_train_seeks (index : nat) (w : world) :
  let w0 := train_scroll_world env (- TRAIN_SCROLL_PER_BOX * 30) 1500 w in
  let done := leading_moves (seek_pairs env index w0) in
  let offset := Z.of_nat index - Z.of_nat done in
  let y := TRAIN_BOX_TOP + TRAIN_FIRST_Y_OFFSET + offset * TRAIN_BOX_STRIDE in
  exists w',
    Navigator.click_train env index w
    = Done (Navigator.mkReport done offset y) w'
    /\ (done <= index)%nat
    /\ scroll_amounts (hist w')
       = repeat TRAIN_SCROLL_PER_BOX (Nat.min index (S done))
         ++ (- TRAIN_SCROLL_PER_BOX * 30) :: scroll_amounts (hist w)
    /\ (exists h, hist w'
                  = MouseUp :: MouseDown :: MoveTo TrainBox.center_x y :: h).
Proof.
  intros w0 done offset y.
  pose proof (seek_loop_counts index 0 w0) as H. cbv zeta in H.
  fold done in H. destruct H as (w1 & Hrun & Hamounts).
  cbn [Nat.add] in Hrun.
  assert (Hdone : (done <= index)%nat).
  { unfold done. rewrite <- (seek_pairs_length index w0) at 2.
    apply leading_moves_le. }
  assert (Hpre : forall (A : Type) (rest : M A),
            (moveTo env TrainBox.center_x TrainBox.center_y ;;;
             sleep 300 ;;;
             scroll env (- TRAIN_SCROLL_PER_BOX * 30) ;;;
             sleep 1500 ;;; rest) w = rest w0) by reflexivity.
  unfold y, offset. clearbody done.
  unfold Navigator.click_train. cbv zeta.
  rewrite Hpre. rewrite (bind_run _ _ _ _ _ Hrun).
  unfold bind, moveTo, mouseDown, mouseUp, actuate, sleep, ret.
  eexists. split; [reflexivity|]. split; [exact Hdone|]. split.
  - cbn [hist advance record scroll_amounts]. rewrite Hamounts.
    reflexivity.
  - eexists. reflexivity.
Qed.

End Seek.

(** ** Seeking on a scrollable list *)
Section ListSeek.
Import Config.
Variable env : desktop.
Variable max_offset : Z.
Variable render : Z -> image.

Hypothesis Hlist :
  forall h t, screenshot_at env TrainBox.region h t
              = render (offset_of max_offset h).
Hypothesis Hstill :
  forall p, 0 <= p <= max_offset -> unmoved (render p, render p) = true.
Hypothesis Hmoved :
  forall p, 0 <= p < max_offset ->
    unmoved (render p, render (Z.min max_offset (p - TRAIN_SCROLL_PER_BOX)))
    = false.

(** On the list the rounds that move it are those before its end. *)
Lemma leading_moves_list (rounds : nat) :
  0 <= max_offset ->
  forall w,
    leading_moves (seek_pairs env rounds w)
    = list_scrolls max_offset rounds (offset_of max_offset (hist w)).
Proof.
  intros Hmax. induction rounds as [|rounds IH]; intros w; [reflexivity|].
  cbn [seek_pairs leading_moves list_scrolls]. cbv zeta.
  pose proof (offset_of_range max_offset Hmax (hist w)) as Hrange.
  set (p := offset_of max_offset (hist w)) in *.
  set (w1 := train_scroll_world env TRAIN_SCROLL_PER_BOX 1000
               (advance (call_ms env) w)).
  assert (Hp1 : offset_of max_offset (hist w1)
                = Z.min max_offset (p - TRAIN_SCROLL_PER_BOX)).
  { unfold w1, train_scroll_world. cbn [hist advance record offset_of].
    fold p. unfold TRAIN_SCROLL_PER_BOX. lia. }
  unfold train_box_shot. rewrite !Hlist. fold p. rewrite Hp1.
  destruct (Z.ltb_spec p max_offset) as [Hlt|Hge].
  - rewrite Hmoved by lia. rewrite IH. cbn [hist advance]. rewrite Hp1.
    reflexivity.
  - replace (Z.min max_offset (p - TRAIN_SCROLL_PER_BOX)) with p
      by (unfold TRAIN_SCROLL_PER_BOX; lia).
    rewrite Hstill by lia. reflexivity.
Qed.

End ListSeek.

(** A list [boxes] boxes long lets [boxes - j] scrolls by one box move it
    from box [j]. *)
Lemma list_scrolls_boxes (boxes : nat) (rounds : nat) :
  forall j,
    (j <= boxes)%nat ->
    list_scrolls (310 * Z.of_nat boxes) rounds (310 * Z.of_nat j)
    = Nat.min rounds (boxes - j).
Proof.
  induction rounds as [|rounds IH]; intros j Hj; [reflexivity|].
  cbn [list_scrolls]. unfold Config.TRAIN_SCROLL_PER_BOX.
  destruct (Z.ltb_spec (310 * Z.of_nat j) (310 * Z.of_nat boxes))
    as [Hlt|Hge].
  - replace (Z.min (310 * Z.of_nat boxes) (310 * Z.of_nat j - -310))
      with (310 * Z.of_nat (S j)) by lia.
    rewrite IH by lia. lia.
  - lia.
Qed.

(** C1.  [click_train(index)] first overscrolls to the top by 30 boxes,
    then runs at most [index] rounds of one scroll by one box between two
    captures; it stops at the first round whose two captures have a mean
    absolute difference below 5, [scrolls_done] being the number of
    rounds before it; the in-view offset is [index - scrolls_done] and
    the click lands on [TRAIN_BOX_TOP + TRAIN_FIRST_Y_OFFSET + offset *
    TRAIN_BOX_STRIDE].  On a list that is [boxes] boxes long the scrolls
    done are the smaller of [index] and [boxes].  On the list of seven
    trains with three in view, which is four boxes long so that the fifth
    scroll meets its end, [click_train(6)] reports 4 scrolls and offset
    2, and clicks at y = 653. *)
Theorem seek_to_index (env : desktop) (index : nat) (w : world) :
  ((forall h t h' t',
      shape (screenshot_at env TrainBox.region h t)
      = shape (screenshot_at env TrainBox.region h' t')) ->
   let w0 := train_scroll_world env 9300 1500 w in
   let done := leading_moves (seek_pairs env index w0) in
   let offset := Z.of_nat index - Z.of_nat done in
   let y := Config.TRAIN_BOX_TOP + Config.TRAIN_FIRST_Y_OFFSET
            + offset * Config.TRAIN_BOX_STRIDE in
   (exists w',
      Navigator.click_train env index w
      = Done (Navigator.mkReport done offset y) w'
      /\ (done <= index)%nat
      /\ scroll_amounts (hist w')
         = repeat Config.TRAIN_SCROLL_PER_BOX (Nat.min index (S done))
           ++ 9300 :: scroll_amounts (hist w)
      /\ (exists h, hist w'
                    = MouseUp :: MouseDown
                        :: MoveTo TrainBox.center_x y :: h))
   /\ (forall (boxes : nat) (render : Z -> image),
         (boxes <= 30)%nat ->
         (forall h t, screenshot_at env TrainBox.region h t
                      = render (offset_of (310 * Z.of_nat boxes) h)) ->
         (forall p, 0 <= p <= 310 * Z.of_nat boxes ->
            unmoved (render p, render p) = true) ->
         (forall p, 0 <= p < 310 * Z.of_nat boxes ->
            unmoved (render p,
                     render (Z.min (310 * Z.of_nat boxes)
                               (p - Config.TRAIN_SCROLL_PER_BOX)))
            = false) ->
         done = Nat.min index boxes))
  /\ (exists w',
        Navigator.click_train TrainList.screen 6 Scenes.start
        = Done (Navigator.mkReport 4 (6 - 4) (418 + 47 + 2 * 94)) w'
        /\ map unmoved
             (seek_pairs TrainList.screen 6
                (train_scroll_world TrainList.screen 9300 1500 Scenes.start))
           = [false; false; false; false; true; true]
        /\ scroll_amounts (hist w')
           = [-310; -310; -310; -310; -310; 9300]).
Proof.
  split.
  - intros Hshape w0 done offset y. split.
    + exact (click_train_seeks env Hshape index w).
    + intros boxes render Hboxes Hlist Hstill Hmoved. unfold done.
      rewrite (leading_moves_list env (310 * Z.of_nat boxes) render Hlist
                 Hstill Hmoved index) by lia.
      assert (Htop : offset_of (310 * Z.of_nat boxes) (hist w0) = 0).
      { pose proof (offset_of_range (310 * Z.of_nat boxes)) as Hb.
        specialize (Hb ltac:(lia) (hist w)).
        unfold w0, train_scroll_world.
        cbn [hist advance record offset_of]. lia. }
      rewrite Htop. change 0 with (310 * Z.of_nat 0).
      rewrite (list_scrolls_boxes boxes index 0) by lia. f_equal. lia.
  - eexists. split; [vm_compute; reflexivity|].
    split; vm_compute; reflexivity.
Qed.

(** ** The synthetic train list *)
Section TrainListFacts.
Import TrainList.

Lemma view_shape (n : nat) : shape (view n) = (126%nat, 2%nat).
Proof.
  unfold shape, view, img_h. cbn [img_rows img_w seq flat_map].
  rewrite !length_app. unfold entry. rewrite !length_app, !repeat_length.
  reflexivity.
Qed.

Lemma screen_shape (h : list action) (t : Z) (h' : list action) (t' : Z) :
  shape (screenshot_at screen TrainBox.region h t)
  = shape (screenshot_at screen TrainBox.region h' t').
Proof. unfold screen, render. cbn [screenshot_at]. rewrite !view_shape. reflexivity. Qed.

Lemma render_same (p : Z) :
  ServiceLoop._frames_match (render p) (render p) = Ok true.
Proof.
  apply (frames_match_identical (render p) 5); [|reflexivity].
  unfold render.
  rewrite (f_equal fst (view_shape (Z.to_nat (p / 310))) : img_h _ = _).
  cbn [img_w view fst]. lia.
Qed.

Lemma render_moved (p : Z) :
  0 <= p < max_offset ->
  ServiceLoop._frames_match (render p)
    (render (Z.min max_offset (p - Config.TRAIN_SCROLL_PER_BOX))) = Ok false.
Proof.
  unfold max_offset, Config.TRAIN_SCROLL_PER_BOX, render. intros Hp.
  assert (Hu : (Z.to_nat (p / 310) < 4)%nat)
    by (Z.div_mod_to_equations; lia).
  assert (Hnext : Z.to_nat (Z.min (4 * 310) (p - -310) / 310)
                  = S (Z.to_nat (p / 310)))
    by (Z.div_mod_to_equations; lia).
  rewrite Hnext.
  destruct (Z.to_nat (p / 310)) as [|[|[|[|u]]]]; try lia;
    vm_compute; reflexivity.
Qed.

Lemma frames_match_unmoved (a b : image) :
  shape a = shape b ->
  ServiceLoop._frames_match a b = Ok (unmoved (a, b)).
Proof.
  intros Hs. unfold ServiceLoop._frames_match, unmoved. cbn [fst snd].
  rewrite (proj2 (shape_eqb_eq a b) Hs).
  rewrite (mean_abs_diff_same_shape a b Hs). reflexivity.
Qed.

Lemma render_shape (p q : Z) : shape (render p) = shape (render q).
Proof. unfold render. rewrite !view_shape. reflexivity. Qed.

Lemma render_unmoved (p : Z) : unmoved (render p, render p) = true.
Proof.
  pose proof (render_same p) as H.
  rewrite (frames_match_unmoved _ _ (render_shape p p)) in H.
  injection H as H. exact H.
Qed.

Lemma render_scrolled (p : Z) :
  0 <= p < max_offset ->
  unmoved (render p,
           render (Z.min max_offset (p - Config.TRAIN_SCROLL_PER_BOX)))
  = false.
Proof.
  intros Hp. pose proof (render_moved p Hp) as H.
  rewrite (frames_match_unmoved _ _ (render_shape _ _)) in H.
  injection H as H. exact H.
Qed.

End TrainListFacts.

Lemma seek_to_index_witness :
  exists w',
    Navigator.click_train TrainList.screen 6 Scenes.start
    = Done (Navigator.mkReport (Nat.min 6 4) 2 653) w'.
Proof.
  destruct (seek_to_index TrainList.screen 6 Scenes.start) as [Hgen _].
  destruct (Hgen screen_shape) as [(w' & E & _) Hboxes].
  exists w'. rewrite E.
  rewrite (Hboxes 4%nat TrainList.render).
  - reflexivity.
  - lia.
  - reflexivity.
  - intros p _. apply render_unmoved.
  - apply render_scrolled.
Defined.

Lemma count_trains_total_and_restore_witness :
  exists w1 w2,
    ServiceLoop.count_trains TrainList.screen Scenes.start = Done 7%nat w1
    /\ ServiceLoop.count_trains TrainList.screen w1 = Done 7%nat w2
    /\ train_box_shot TrainList.screen w2
       = train_box_shot TrainList.screen Scenes.start.
Proof.
  destruct (count_trains_total_and_restore TrainList.screen Scenes.start)
    as [_ Hlist].
  destruct (Hlist TrainList.max_offset TrainList.render)
    as (total & w1 & w2 & E1 & E2 & _ & _ & Hshot).
  - unfold TrainList.max_offset. lia.
  - reflexivity.
  - intros p _. apply render_same.
  - apply render_moved.
  - reflexivity.
  - assert (Htotal : total = 7%nat).
    { pose proof E1 as E. vm_compute in E. injection E as Ht _.
      symmetry. exact Ht. }
    subst total. exists w1, w2. auto.
Defined.

Lemma find_overlap_band_match_witness :
  (exists best_row : nat, 55 = Z.of_nat 50 - Z.of_nat best_row + 5)
  /\ (exists ov,
        ScheduleCapture.find_overlap Synthetic.white_frame
          Synthetic.scrolled_frame 40 = Ok ov)
  /\ ScheduleCapture.stitch_images
       [Synthetic.black_frame; Synthetic.white_frame]
     = Ok (Some (Synthetic.stack Synthetic.black_frame
                   Synthetic.white_frame)).
Proof.
  destruct (find_overlap_band_match Synthetic.white_frame
              Synthetic.scrolled_frame 40) as (Hcases & Htotal & _).
  destruct (find_overlap_band_match Synthetic.black_frame
              Synthetic.white_frame 40) as (_ & _ & Hnone).
  split; [|split].
  - destruct (Hcases 55) as [[H0 _]|(row & d & _ & _ & _ & _ & _ & Hov)].
    + vm_compute. reflexivity.
    + discriminate H0.
    + exists row. exact Hov.
  - apply Htotal; [reflexivity | vm_compute; lia].
  - apply Hnone; [vm_compute; reflexivity | reflexivity].
Defined.

Lemma stitch_no_frames_is_reported_witness :
  (forall r w',
     ScheduleCapture.save_stitched TrainList.schedule_screen TrainList.join
       "out" [] Scenes.start = Done r w' ->
     r = None /\ w' = Scenes.start)
  /\ exists w' img,
       ScheduleCapture.capture_schedule TrainList.schedule_screen
         TrainList.join 16 "out" Scenes.start
       = Done (Some "out/2_schedule.png"%string) w'
       /\ files w' = [("out/2_schedule.png"%string, img)].
Proof.
  destruct (stitch_no_frames_is_reported TrainList.schedule_screen
              TrainList.join "out") as (_ & _ & Hnone & Hsaved).
  split.
  - intros r w' H. apply (Hnone [] Scenes.start r w'); [reflexivity | exact H].
  - destruct (ScheduleCapture.capture_schedule TrainList.schedule_screen
                TrainList.join 16 "out" Scenes.start)
      as [[path|] w'| |] eqn:E.
    + destruct (Hsaved 16%nat Scenes.start (Some path) w' E)
        as (Hpath & img & Hfiles).
      subst path. exists w', img. split; [reflexivity | exact Hfiles].
    + vm_compute in E. discriminate E.
    + vm_compute in E. discriminate E.
    + vm_compute in E. discriminate E.
Defined.

(** * Further properties of the code *)

(** ** Run detection *)
Section Runs.
Import ServiceLoop.

Lemma scan_runs_acc (flags : list bool) :
  forall r b rs acc,
    scan_runs flags r b rs acc = acc ++ scan_runs flags r b rs [].
Proof.
  induction flags as [|flag rest IH]; intros r b rs acc; simpl.
  - destruct b; [reflexivity | rewrite app_nil_r; reflexivity].
  - destruct (flag && negb b); [apply IH|].
    destruct (negb flag && b); [|apply IH].
    rewrite (IH (S r) false rs (acc ++ [(rs, r)])).
    rewrite (IH (S r) false rs [(rs, r)]). rewrite <- app_assoc. reflexivity.
Qed.

Lemma nth_after (flag : bool) (rest : list bool) (r x : nat) :
  (r < x)%nat ->
  nth (x - r) (flag :: rest) false = nth (x - S r) rest false.
Proof.
  intros H. replace (x - r)%nat with (S (x - S r)) by lia. reflexivity.
Qed.

Lemma separated_later (s e : nat) (rest : list (nat * nat)) :
  separated ((s, e) :: rest) ->
  forall s' e', In (s', e') rest -> (e < s' /\ s' < e')%nat.
Proof.
  revert s e. induction rest as [|[s1 e1] rest IH]; intros s e H s' e' Hin.
  - destruct Hin.
  - cbn [separated] in H. destruct H as (Hse & Hgap & Hs1 & Hgap1 & Hrest).
    destruct Hin as [Heq|Hin].
    + inversion Heq; subst. lia.
    + assert (Hsep1 : separated ((s1, e1) :: rest))
        by (cbn [separated]; auto).
      destruct (IH s1 e1 Hsep1 s' e' Hin). lia.
Qed.

Lemma separated_nonempty (runs : list (nat * nat)) :
  separated runs -> forall s e, In (s, e) runs -> (s < e)%nat.
Proof.
  induction runs as [|[s1 e1] rest IH]; intros H s e Hin; [destruct Hin|].
  destruct Hin as [Heq|Hin].
  - inversion Heq; subst. cbn [separated] in H. tauto.
  - apply IH; [cbn [separated] in H; tauto | exact Hin].
Qed.

(** The state of the scan: from row [r] on, with a run open since row
    [rs] when [b] holds. *)
Lemma scan_runs_from (flags : list bool) :
  forall r b rs,
    (b = true -> (rs < r)%nat) ->
    let out := scan_runs flags r b rs [] in
    separated out
    /\ (forall s e, In (s, e) out ->
          ((if b then rs else r) <= s /\ e <= r + length flags)%nat)
    /\ (b = true -> exists e tl, out = (rs, e) :: tl)
    /\ (forall x, in_runs out x <->
          (b = true /\ (rs <= x < r)%nat)
          \/ ((r <= x < r + length flags)%nat
              /\ nth (x - r) flags false = true)).
Proof.
  induction flags as [|flag rest IH]; intros r b rs Hb out.
  - unfold out. cbn [scan_runs]. destruct b.
    + specialize (Hb eq_refl). cbn [app separated length].
      split; [auto|]. split.
      { intros s e [Heq|[]]. inversion Heq; subst. lia. }
      split; [eauto|].
      intros x. unfold in_runs. split.
      * intros (s & e & [Heq|[]] & Hx). inversion Heq; subst. left. auto.
      * intros [[_ Hx]|[Hx _]]; [|lia]. exists rs, r. split; [left|]; auto.
    + cbn [separated]. split; [auto|]. split; [intros s e []|].
      split; [discriminate|].
      intros x. unfold in_runs. split.
      * intros (s & e & [] & _).
      * intros [[Hf _]|[Hx _]]; [discriminate | cbn [length] in Hx; lia].
  - unfold out. cbn [scan_runs length].
    destruct flag, b; cbn [andb negb].
    + (* the run goes on *)
      specialize (Hb eq_refl).
      destruct (IH (S r) true rs) as (Hsep & Hbnd & Hhead & Hin); [lia|].
      split; [exact Hsep|]. split.
      { intros s e H. destruct (Hbnd s e H). lia. }
      split; [auto|].
      intros x. rewrite Hin. split.
      * intros [[_ Hx]|[Hx Hn]].
        -- destruct (Nat.eq_dec x r) as [->|Hne].
           ++ right. split; [lia|]. rewrite Nat.sub_diag. reflexivity.
           ++ left. split; [reflexivity | lia].
        -- right. split; [lia|]. rewrite nth_after by lia. exact Hn.
      * intros [[_ Hx]|[Hx Hn]].
        -- left. split; [reflexivity | lia].
        -- destruct (Nat.eq_dec x r) as [->|Hne].
           ++ left. split; [reflexivity | lia].
           ++ right. split; [lia|]. rewrite nth_after in Hn by lia. exact Hn.
    + (* a run opens at row r *)
      destruct (IH (S r) true r) as (Hsep & Hbnd & Hhead & Hin); [lia|].
      split; [exact Hsep|]. split.
      { intros s e H. destruct (Hbnd s e H). lia. }
      split; [discriminate|].
      intros x. rewrite Hin. split.
      * intros [[_ Hx]|[Hx Hn]].
        -- right. replace x with r by lia. split; [lia|].
           rewrite Nat.sub_diag. reflexivity.
        -- right. split; [lia|]. rewrite nth_after by lia. exact Hn.
      * intros [[Hf _]|[Hx Hn]]; [discriminate|].
        destruct (Nat.eq_dec x r) as [->|Hne].
        -- left. split; [reflexivity | lia].
        -- right. split; [lia|]. rewrite nth_after in Hn by lia. exact Hn.
    + (* the run closes before row r *)
      specialize (Hb eq_refl).
      cbn [app]. rewrite (scan_runs_acc rest (S r) false rs [(rs, r)]).
      cbn [app].
      destruct (IH (S r) false rs) as (Hsep & Hbnd & _ & Hin);
        [discriminate|].
      set (out' := scan_runs rest (S r) false rs []) in *.
      split.
      { cbn [separated]. split; [exact Hb|]. split; [|exact Hsep].
        destruct out' as [|[s1 e1] tl] eqn:E; [exact I|].
        destruct (Hbnd s1 e1 (or_introl eq_refl)). lia. }
      split.
      { intros s e [Heq|H].
        - inversion Heq; subst. lia.
        - destruct (Hbnd s e H). lia. }
      split; [eauto|].
      intros x. unfold in_runs in *. split.
      * intros (s & e & [Heq|H] & Hx).
        -- inversion Heq; subst. left. auto.
        -- destruct (proj1 (Hin x)) as [[Hf _]|[Hx' Hn]];
             [exists s, e; auto | discriminate|].
           right. split; [lia|]. rewrite nth_after by lia. exact Hn.
      * intros [[_ Hx]|[Hx Hn]].
        -- exists rs, r. split; [left; reflexivity | exact Hx].
        -- destruct (Nat.eq_dec x r) as [->|Hne].
           ++ rewrite Nat.sub_diag in Hn. discriminate.
           ++ rewrite nth_after in Hn by lia.
              destruct (proj2 (Hin x)) as (s & e & H & Hse);
                [right; split; [lia | exact Hn]|].
              exists s, e. split; [right; exact H | exact Hse].
    + (* between two runs *)
      destruct (IH (S r) false rs) as (Hsep & Hbnd & _ & Hin);
        [discriminate|].
      split; [exact Hsep|]. split.
      { intros s e H. destruct (Hbnd s e H). lia. }
      split; [discriminate|].
      intros x. rewrite Hin. split.
      * intros [[Hf _]|[Hx Hn]]; [discriminate|].
        right. split; [lia|]. rewrite nth_after by lia. exact Hn.
      * intros [[Hf _]|[Hx Hn]]; [discriminate|].
        destruct (Nat.eq_dec x r) as [->|Hne].
        -- rewrite Nat.sub_diag in Hn. discriminate.
        -- right. split; [lia|]. rewrite nth_after in Hn by lia. exact Hn.
Qed.

(** The scan as the callers start it. *)
Lemma scan_runs_start (flags : list bool) :
  let runs := scan_runs flags 0 false 0 [] in
  separated runs
  /\ (forall s e, In (s, e) runs -> (e <= length flags)%nat)
  /\ (forall x, in_runs runs x <->
        (x < length flags)%nat /\ nth x flags false = true).
Proof.
  intros runs.
  destruct (scan_runs_from flags 0 false 0) as (Hsep & Hbnd & _ & Hin);
    [discriminate|].
  fold runs in Hsep, Hbnd, Hin.
  split; [exact Hsep|]. split.
  - intros s e H. destruct (Hbnd s e H). lia.
  - intros x. rewrite Hin. rewrite Nat.sub_0_r. split.
    + intros [[Hf _]|[Hx Hn]]; [discriminate|]. split; [lia | exact Hn].
    + intros [Hx Hn]. right. split; [lia | exact Hn].
Qed.

(** Runs of at least 40 rows, with a row between two of them, above row
    [N]: 41 rows each, but for the last. *)
Lemma tall_runs_bound (runs : list (nat * nat)) :
  forall a N,
    separated runs ->
    (forall s e, In (s, e) runs -> (a <= s /\ e <= N)%nat) ->
    (a <= N + 1)%nat ->
    (41 * length (filter tall runs) + a <= N + 1)%nat.
Proof.
  induction runs as [|[s e] tl IH]; intros a N Hsep Hbnd Ha.
  - cbn [filter length]. lia.
  - destruct (Hbnd s e (or_introl eq_refl)) as [Has HeN].
    pose proof (separated_later s e tl Hsep) as Hlater.
    assert (Hse : (s < e)%nat) by (cbn [separated] in Hsep; tauto).
    assert (Htl : (41 * length (filter tall tl) + S e <= N + 1)%nat).
    { apply IH.
      - cbn [separated] in Hsep; tauto.
      - intros s' e' H. destruct (Hlater s' e' H).
        destruct (Hbnd s' e' (or_intror H)). lia.
      - lia. }
    cbn [filter]. destruct (tall (s, e)) eqn:E.
    + unfold tall in E. cbn [fst snd] in E. apply Nat.leb_le in E.
      cbn [length]. lia.
    + lia.
Qed.

Lemma tall_runs_in (runs : list (nat * nat)) (s e : nat) :
  In (s, e) (filter tall runs) <-> In (s, e) runs /\ (40 <= e - s)%nat.
Proof.
  rewrite filter_In. unfold tall. cbn [fst snd]. rewrite Nat.leb_le.
  reflexivity.
Qed.

Lemma separated_sorted (runs : list (nat * nat)) :
  separated runs -> StronglySorted run_before runs.
Proof.
  induction runs as [|[s e] tl IH]; intros Hsep; constructor.
  - apply IH. cbn [separated] in Hsep. tauto.
  - apply Forall_forall. intros [s' e'] H.
    destruct (separated_later s e tl Hsep s' e' H).
    assert ((s < e)%nat) by (cbn [separated] in Hsep; tauto).
    unfold run_before. cbn [fst snd]. lia.
Qed.

Lemma sorted_filter {A : Type} (R : A -> A -> Prop) (f : A -> bool)
    (l : list A) :
  StronglySorted R l -> StronglySorted R (filter f l).
Proof.
  induction 1 as [|a l Hl IH Ha]; cbn [filter]; [constructor|].
  destruct (f a); [|exact IH].
  constructor; [exact IH|].
  apply Forall_forall. intros x Hx. apply filter_In in Hx.
  rewrite Forall_forall in Ha. apply Ha. tauto.
Qed.

Lemma sorted_map {A B : Type} (R : A -> A -> Prop) (S : B -> B -> Prop)
    (f : A -> B) (l : list A) :
  (forall a b, R a b -> S (f a) (f b)) ->
  StronglySorted R l -> StronglySorted S (map f l).
Proof.
  intros Hf. induction 1 as [|a l Hl IH Ha]; cbn [map]; constructor.
  - exact IH.
  - apply Forall_forall. intros y Hy. apply in_map_iff in Hy.
    destruct Hy as (x & <- & Hx). rewrite Forall_forall in Ha. auto.
Qed.

Lemma cols_slice_height (left right : nat) (img : image) :
  img_h (cols_slice left right img) = img_h img.
Proof. unfold img_h, cols_slice. cbn [img_rows]. apply length_map. Qed.

Lemma border_flags_length (color : pixel) (tol : Z) (cols : nat)
    (img : image) :
  length (border_flags color tol cols img) = img_h img.
Proof.
  unfold border_flags. rewrite length_map.
  apply (cols_slice_height 0 cols img).
Qed.

End Runs.

(** X1.  The run detection shared by [_count_visible_trains],
    [_detect_train_positions] and [screenshot_service_box] returns the
    maximal runs of flagged rows: the runs are non-empty half-open
    intervals inside the strip, in increasing order with an unflagged row
    between two neighbours, and a row lies in a run exactly when it is
    flagged. *)
Theorem scan_runs_are_the_runs (flags : list bool) :
  let runs := ServiceLoop.scan_runs flags 0 false 0 [] in
  separated runs
  /\ (forall s e, In (s, e) runs -> (s < e <= length flags)%nat)
  /\ (forall x, in_runs runs x <->
        (x < length flags)%nat /\ nth x flags false = true).
Proof.
  intros runs.
  destruct (scan_runs_start flags) as (Hsep & Hbnd & Hin).
  fold runs in Hsep, Hbnd, Hin.
  split; [exact Hsep|]. split; [|exact Hin].
  intros s e H. pose proof (separated_nonempty runs Hsep s e H).
  pose proof (Hbnd s e H). lia.
Qed.

(** X2.  [_count_visible_trains] counts runs of at least 40 border rows
    with a row between two of them, so a capture of [h] rows holds at most
    [(h + 1) / 41] entries; and each entry it counts is 40 rows of the
    capture in a row, all with a border pixel in the first three
    columns. *)
Theorem count_visible_trains_bound (img : image) :
  let flags := border_flags (222, 222, 222) 20 3 img in
  let n := ServiceLoop._count_visible_trains img in
  (41 * n <= img_h img + 1)%nat
  /\ ((0 < n)%nat ->
      exists s, (s + 40 <= img_h img)%nat
                /\ forall x, (s <= x < s + 40)%nat ->
                             nth x flags false = true).
Proof.
  intros flags n.
  destruct (scan_runs_start flags) as (Hsep & Hbnd & Hin).
  pose proof (border_flags_length (222, 222, 222) 20 3 img) as Hlen.
  fold flags in Hlen. rewrite Hlen in Hbnd, Hin.
  set (runs := ServiceLoop.scan_runs flags 0 false 0 []) in *.
  assert (Hn : n = length (filter tall runs)) by reflexivity.
  split.
  - pose proof (tall_runs_bound runs 0 (img_h img) Hsep) as H.
    rewrite Hn. lapply H; [intros H'; specialize (H' ltac:(lia)); lia|].
    intros s e Hse. specialize (Hbnd s e Hse). lia.
  - intros Hpos. rewrite Hn in Hpos.
    destruct (filter tall runs) as [|[s e] tl] eqn:E;
      [cbn [length] in Hpos; lia|].
    assert (Hse : In (s, e) (filter tall runs))
      by (rewrite E; left; reflexivity).
    apply tall_runs_in in Hse. destruct Hse as [Hse Htall].
    pose proof (Hbnd s e Hse).
    exists s. split; [lia|].
    intros x Hx. apply (Hin x). exists s, e. split; [exact Hse | lia].
Qed.

(** X3.  [_detect_train_positions] returns one y coordinate for each entry
    that [_count_visible_trains] counts in the same capture, in strictly
    increasing order, and each at least 20 rows inside the train box. *)
Theorem detect_train_positions_sorted (env : desktop) (w : world) :
  exists ys w',
    TrainPositions._detect_train_positions env w = Done ys w'
    /\ hist w' = hist w
    /\ length ys = ServiceLoop._count_visible_trains (train_box_shot env w)
    /\ StronglySorted Z.lt ys
    /\ Forall (fun y =>
                 Config.TRAIN_BOX_TOP + 20 <= y
                 <= Config.TRAIN_BOX_TOP
                    + Z.of_nat (img_h (train_box_shot env w)) - 20) ys.
Proof.
  set (img := train_box_shot env w).
  exists (TrainPositions.train_positions img), (advance (call_ms env) w).
  split; [reflexivity|]. split; [reflexivity|].
  set (flags := border_flags (222, 222, 222) 20 3 img).
  destruct (scan_runs_start flags) as (Hsep & Hbnd & _).
  pose proof (border_flags_length (222, 222, 222) 20 3 img) as Hlen.
  fold flags in Hlen. rewrite Hlen in Hbnd.
  set (runs := ServiceLoop.scan_runs flags 0 false 0 []) in *.
  assert (Hys : TrainPositions.train_positions img
                = map (fun se => Config.TRAIN_BOX_TOP
                                 + Z.of_nat (fst se + snd se) / 2)
                      (filter tall runs)) by reflexivity.
  rewrite Hys. split; [|split].
  - rewrite length_map. reflexivity.
  - apply (sorted_map run_before).
    + intros [s e] [s' e']. unfold run_before. cbn [fst snd]. intros H.
      assert (Z.of_nat (s + e) / 2 < Z.of_nat (s' + e') / 2)
        by (apply Z.div_lt_upper_bound; [lia|];
            assert (Z.of_nat (s' + e') / 2 * 2
                    >= Z.of_nat (s' + e') - 1)
              by (Z.div_mod_to_equations; lia);
            Z.div_mod_to_equations; lia).
      lia.
    + apply sorted_filter. apply separated_sorted. exact Hsep.
  - apply Forall_forall. intros y Hy. apply in_map_iff in Hy.
    destruct Hy as ([s e] & <- & Hse). apply tall_runs_in in Hse.
    destruct Hse as [Hse Htall]. pose proof (Hbnd s e Hse).
    cbn [fst snd].
    assert (Z.of_nat s + 20 <= Z.of_nat (s + e) / 2 <= Z.of_nat e - 20)
      by (Z.div_mod_to_equations; lia).
    lia.
Qed.

(** ** Separator rows *)
Section SeparatorRows.
Import ScheduleCapture.

(** The scan of [find_nearest_separator] from offset [a] on, when no
    smaller offset has a separator. *)
Lemma nearest_scan_spec (img : image) (t : Z) :
  forall k a,
    (forall o, (o < a)%nat ->
       separator_at img (t - Z.of_nat o) = false
       /\ separator_at img (t + Z.of_nat o) = false) ->
    let r := nearest_scan img t (seq a k) in
    (r = t
     /\ forall o, (o < a + k)%nat ->
          separator_at img (t - Z.of_nat o) = false
          /\ separator_at img (t + Z.of_nat o) = false)
    \/ (exists o, (a <= o < a + k)%nat
          /\ (forall o', (o' < o)%nat ->
                separator_at img (t - Z.of_nat o') = false
                /\ separator_at img (t + Z.of_nat o') = false)
          /\ ((r = t - Z.of_nat o
               /\ separator_at img (t - Z.of_nat o) = true)
              \/ (r = t + Z.of_nat o
                  /\ separator_at img (t - Z.of_nat o) = false
                  /\ separator_at img (t + Z.of_nat o) = true))).
Proof.
  induction k as [|k IH]; intros a Hbelow r.
  - left. split; [reflexivity|]. intros o Ho. apply Hbelow. lia.
  - unfold r. cbn [seq nearest_scan].
    destruct (separator_at img (t - Z.of_nat a)) eqn:Eup.
    + right. exists a. split; [lia|]. split; [exact Hbelow|]. left. auto.
    + destruct (separator_at img (t + Z.of_nat a)) eqn:Edown.
      * right. exists a. split; [lia|]. split; [exact Hbelow|]. right. auto.
      * assert (Hbelow' : forall o, (o < S a)%nat ->
                  separator_at img (t - Z.of_nat o) = false
                  /\ separator_at img (t + Z.of_nat o) = false).
        { intros o Ho. destruct (Nat.eq_dec o a) as [->|Hne]; [auto|].
          apply Hbelow. lia. }
        destruct (IH (S a) Hbelow') as [[Hr Hnone]|(o & Ho & Hlt & Hat)].
        -- left. split; [exact Hr|]. intros o Ho. apply Hnone. lia.
        -- right. exists o. split; [lia|]. auto.
Qed.

Lemma separator_by_offset (img : image) (t row : Z) (bound : nat) :
  (forall o, (o < bound)%nat ->
     separator_at img (t - Z.of_nat o) = false
     /\ separator_at img (t + Z.of_nat o) = false) ->
  Z.abs (row - t) < Z.of_nat bound ->
  separator_at img row = false.
Proof.
  intros H Hrow.
  destruct (H (Z.to_nat (Z.abs (row - t)))) as [Hup Hdown]; [lia|].
  destruct (Z_le_gt_dec t row).
  - replace row with (t + Z.of_nat (Z.to_nat (Z.abs (row - t)))) by lia.
    exact Hdown.
  - replace row with (t - Z.of_nat (Z.to_nat (Z.abs (row - t)))) by lia.
    exact Hup.
Qed.

Lemma separator_walk_spec (img : image) :
  forall steps row,
    let r := Separators.separator_walk img steps row in
    (row <= r <= row + steps)%nat
    /\ (forall x, (row <= x < r)%nat ->
          (x < img_h img)%nat /\ is_separator_row img x = true)
    /\ ((r < row + steps)%nat ->
        Nat.ltb r (img_h img) && is_separator_row img r = false).
Proof.
  induction steps as [|steps IH]; intros row r.
  - unfold r. cbn [Separators.separator_walk].
    split; [lia|]. split; intros; lia.
  - unfold r. cbn [Separators.separator_walk].
    destruct (Nat.ltb row (img_h img) && is_separator_row img row) eqn:E.
    + destruct (IH (S row)) as (Hr & Hall & Hend).
      split; [lia|]. split.
      * intros x Hx. destruct (Nat.eq_dec x row) as [->|Hne].
        -- apply andb_true_iff in E. destruct E as [E1 E2].
           apply Nat.ltb_lt in E1. auto.
        -- apply Hall. lia.
      * intros Hlt. apply Hend. lia.
    + split; [lia|]. split; [intros; lia|]. intros _. exact E.
Qed.

End SeparatorRows.

(** X4.  [find_nearest_separator] returns the separator row of the image
    nearest to [target_row] among the rows less than [search_range] away,
    the upper one when a lower one is as near; when no such row is a
    separator it returns [target_row] itself. *)
Theorem find_nearest_separator_nearest (img : image) (target_row : Z)
    (search_range : nat) :
  let r := ScheduleCapture.find_nearest_separator img target_row
             search_range in
  (r = target_row
   /\ forall row, Z.abs (row - target_row) < Z.of_nat search_range ->
                  ScheduleCapture.separator_at img row = false)
  \/ (ScheduleCapture.separator_at img r = true
      /\ Z.abs (r - target_row) < Z.of_nat search_range
      /\ (forall row, Z.abs (row - target_row) < Z.abs (r - target_row) ->
                      ScheduleCapture.separator_at img row = false)
      /\ (target_row < r ->
          ScheduleCapture.separator_at img (target_row - (r - target_row))
          = false)).
Proof.
  intros r. unfold r, ScheduleCapture.find_nearest_separator. clear r.
  destruct (nearest_scan_spec img target_row search_range 0)
    as [[Hr Hnone]|(o & Ho & Hlt & Hat)]; [intros o Ho; lia | |].
  - left. split; [exact Hr|]. intros row Hrow.
    apply (separator_by_offset img target_row row search_range);
      [exact Hnone | exact Hrow].
  - right. destruct Hat as [[Hr Hup]|(Hr & Hup & Hdown)].
    + rewrite Hr. split; [exact Hup|]. split; [lia|]. split; [|lia].
      intros row Hrow.
      apply (separator_by_offset img target_row row o); [exact Hlt | lia].
    + rewrite Hr. split; [exact Hdown|]. split; [lia|]. split.
      * intros row Hrow.
        apply (separator_by_offset img target_row row o); [exact Hlt | lia].
      * intros _.
        replace (target_row - (target_row + Z.of_nat o - target_row))
          with (target_row - Z.of_nat o) by lia.
        exact Hup.
Qed.

(** X5.  [find_separator_end] returns the first row at or below [sep_row]
    that is past the image or is no separator row: every row from
    [sep_row] up to the result is a separator row of the image, and the
    loop condition fails at the result. *)
Theorem find_separator_end_first_other (img : image) (sep_row : nat) :
  let r := Separators.find_separator_end img sep_row in
  (sep_row <= r)%nat
  /\ (forall x, (sep_row <= x < r)%nat ->
        (x < img_h img)%nat
        /\ ScheduleCapture.is_separator_row img x = true)
  /\ Nat.ltb r (img_h img) && ScheduleCapture.is_separator_row img r
     = false.
Proof.
  intros r.
  destruct (separator_walk_spec img (img_h img - sep_row) sep_row)
    as (Hr & Hall & Hend).
  fold (Separators.find_separator_end img sep_row) in Hr, Hall, Hend.
  fold r in Hr, Hall, Hend.
  split; [lia|]. split; [exact Hall|].
  destruct (Nat.lt_ge_cases r (img_h img)) as [E|E].
  - apply Hend. lia.
  - apply andb_false_iff. left. apply Nat.ltb_ge. exact E.
Qed.

(** ** Occurrences of the band and shape errors in [find_overlap] *)
Section OverlapShapes.
Import ScheduleCapture.

Lemma zsum_map_nonneg {A : Type} (f : A -> Z) (l : list A) :
  (forall x, In x l -> 0 <= f x) -> 0 <= zsum (map f l).
Proof.
  induction l as [|x l IH]; intros Hf; cbn [map zsum fold_right]; [lia|].
  assert (0 <= f x) by (apply Hf; left; reflexivity).
  assert (0 <= zsum (map f l)) by (apply IH; intros y Hy; apply Hf; right;
                                   exact Hy).
  unfold zsum in *. lia.
Qed.

Lemma absdiff_sum_nonneg (rd cd : nat) (a b : image) :
  0 <= absdiff_sum rd cd a b.
Proof.
  unfold absdiff_sum. apply zsum_map_nonneg. intros rr _.
  unfold row_absdiff. apply zsum_map_nonneg. intros pq _.
  apply px_absdiff_nonneg.
Qed.

(** A mean absolute difference is never negative. *)
Lemma mean_abs_diff_nonneg (a b : image) (q : Q) :
  mean_abs_diff a b = Ok (FQ q) -> 0 <= Qnum q.
Proof.
  unfold mean_abs_diff.
  destruct (bdim (img_h a) (img_h b)) as [rd|]; [|discriminate].
  destruct (bdim (img_w a) (img_w b)) as [cd|]; [|discriminate].
  unfold np_mean. destruct (rd * cd * 3)%nat; [discriminate|].
  intros H. inversion H; subst. cbn [Qnum]. apply absdiff_sum_nonneg.
Qed.

Lemma strip_height (prev_img : image) (band_height row : nat) :
  (row < positions prev_img band_height)%nat ->
  img_h (rows_slice row (row + band_height) prev_img) = band_height.
Proof.
  unfold positions, img_h, rows_slice. cbn [img_rows]. intros H.
  rewrite slice_length by lia. lia.
Qed.

Lemma band_height_of (curr_img : image) (band_height : nat) :
  img_h (band_of curr_img band_height)
  = Nat.min band_height (img_h curr_img - 5).
Proof.
  unfold band_of, band_start, img_h, rows_slice, slice. cbn [img_rows].
  rewrite length_firstn, length_skipn. lia.
Qed.

(** Whether a position raises depends on the two shapes only. *)
Lemma strip_diff_shapes (prev_img curr_img : image)
    (band_height row : nat) :
  (row < positions prev_img band_height)%nat ->
  strip_diff prev_img (band_of curr_img band_height) band_height row
  = match bdim band_height (Nat.min band_height (img_h curr_img - 5)),
          bdim (img_w prev_img) (img_w curr_img) with
    | Some rd, Some cd =>
        Ok (np_mean
              (absdiff_sum rd cd
                 (rows_slice row (row + band_height) prev_img)
                 (band_of curr_img band_height))
              (rd * cd * 3))
    | _, _ => Err ValueError
    end.
Proof.
  intros Hrow. unfold strip_diff, mean_abs_diff.
  rewrite (strip_height _ _ _ Hrow), band_height_of. reflexivity.
Qed.

Lemma slide_band_raises (prev_img band : image) (band_height : nat)
    (row : nat) (rest : list nat) (best_row : Z) (best_diff : fval)
    (e : exn) :
  strip_diff prev_img band band_height row = Err e ->
  slide_band prev_img band band_height (row :: rest) best_row best_diff
  = Err e.
Proof. intros H. cbn [slide_band]. rewrite H. reflexivity. Qed.

End OverlapShapes.

(** X6.  When the band of the new frame occurs verbatim in the previous
    frame at row [r], [find_overlap] reports an overlap, computed from the
    topmost position whose difference from the band is zero; that
    position is [r] or above it. *)
Theorem find_overlap_exact_copy (prev_img curr_img : image)
    (band_height r : nat) :
  img_w prev_img = img_w curr_img ->
  (0 < img_w curr_img)%nat ->
  (0 < band_height)%nat ->
  (5 + band_height <= img_h curr_img)%nat ->
  (r < positions prev_img band_height)%nat ->
  rows_slice r (r + band_height) prev_img
  = ScheduleCapture.band_of curr_img band_height ->
  let D := ScheduleCapture.strip_diff prev_img
             (ScheduleCapture.band_of curr_img band_height) band_height in
  exists best_row q,
    (best_row <= r)%nat
    /\ ScheduleCapture.find_overlap prev_img curr_img band_height
       = Ok (Z.of_nat (img_h prev_img) - Z.of_nat best_row + 5)
    /\ D best_row = Ok (FQ q) /\ (q == 0)%Q
    /\ forall row x, (row < best_row)%nat -> D row = Ok x ->
                     flt (FQ 0) x = true.
Proof.
  intros Hw Hpos Hbh Hc Hr Hcopy D.
  assert (Hshapes : forall row, (row < positions prev_img band_height)%nat ->
            exists q, D row = Ok (FQ q) /\ 0 <= Qnum q).
  { intros row Hrow. unfold D.
    pose proof (strip_diff_shapes prev_img curr_img band_height row Hrow)
      as E.
    replace (Nat.min band_height (img_h curr_img - 5)) with band_height
      in E by lia.
    rewrite Hw, !bdim_diag in E. unfold np_mean in E.
    destruct (band_height * img_w curr_img * 3)%nat eqn:En; [nia|].
    eexists. split; [exact E|]. cbn [Qnum]. apply absdiff_sum_nonneg. }
  assert (Hat : exists p, D r = Ok (FQ (0 # p))).
  { unfold D, ScheduleCapture.strip_diff. rewrite Hcopy.
    rewrite (mean_abs_diff_same_shape _ _ eq_refl), absdiff_sum_diag.
    unfold np_mean.
    destruct (img_h (ScheduleCapture.band_of curr_img band_height)
              * img_w (ScheduleCapture.band_of curr_img band_height) * 3)%nat
      eqn:En; [|eauto].
    rewrite band_height_of in En.
    unfold ScheduleCapture.band_of, rows_slice in En. cbn [img_w] in En.
    nia. }
  destruct Hat as [p Hat].
  destruct (find_overlap_total prev_img curr_img band_height Hw)
    as [ov Hov]; [unfold ScheduleCapture.band_start; lia|].
  destruct (find_overlap_cases _ _ _ _ Hov)
    as [[_ Hnone]|(best_row & best_diff & Hb & Hd & Hlt & Hleast & Hfirst
                   & Hval)].
  - destruct (Hnone r Hr) as (x & Hx & Hfar). fold D in Hx.
    rewrite Hat in Hx. inversion Hx; subst x.
    cbn [flt] in Hfar. unfold Qltb in Hfar. cbn [Qnum Qden] in Hfar.
    apply Z.ltb_ge in Hfar. lia.
  - fold D in Hd, Hleast, Hfirst.
    destruct (Hshapes best_row Hb) as (q & Hq & Hq0).
    rewrite Hq in Hd. inversion Hd; subst best_diff.
    assert (Hzero : Qnum q = 0).
    { destruct (Hleast r Hr) as (x & Hx & Hx').
      rewrite Hat in Hx. inversion Hx; subst x.
      cbn [flt] in Hx'. unfold Qltb in Hx'. cbn [Qnum Qden] in Hx'.
      apply Z.ltb_ge in Hx'. nia. }
    exists best_row, q. split; [|split; [|split; [|split]]].
    + destruct (Nat.le_gt_cases best_row r) as [Hle|Hgt]; [exact Hle|].
      assert (Hn : FQ (0 # p) <> FNaN) by discriminate.
      pose proof (Hfirst r (FQ (0 # p)) Hgt Hat Hn) as Hbad.
      cbn [flt] in Hbad. unfold Qltb in Hbad. cbn [Qnum Qden] in Hbad.
      apply Z.ltb_lt in Hbad. nia.
    + rewrite Hov, Hval. unfold ScheduleCapture.band_start. f_equal.
    + exact Hq.
    + unfold Qeq. cbn [Qnum Qden]. lia.
    + intros row x Hrow Hx.
      destruct (Hshapes row ltac:(lia)) as (y & Hy & Hy0).
      rewrite Hy in Hx. inversion Hx; subst x.
      assert (Hn : FQ y <> FNaN) by discriminate.
      pose proof (Hfirst row (FQ y) Hrow Hy Hn) as Hlow.
      cbn [flt] in Hlow |- *. unfold Qltb in Hlow |- *.
      cbn [Qnum Qden] in Hlow |- *. rewrite Hzero in Hlow.
      apply Z.ltb_lt in Hlow. apply Z.ltb_lt. lia.
Qed.

Lemma find_overlap_exact_copy_witness :
  exists best_row q,
    (best_row <= 1)%nat
    /\ ScheduleCapture.find_overlap Frames.above Frames.below 2
       = Ok (4 - Z.of_nat best_row + 5)
    /\ ScheduleCapture.strip_diff Frames.above
         (ScheduleCapture.band_of Frames.below 2) 2 best_row = Ok (FQ q)
    /\ (q == 0)%Q.
Proof.
  destruct (find_overlap_exact_copy Frames.above Frames.below 2 1)
    as (best_row & q & H1 & H2 & H3 & H4 & _);
    try reflexivity; try (vm_compute; lia).
  exists best_row, q. auto.
Defined.

(** X7.  [find_overlap] raises ValueError exactly when the previous frame
    is taller than the band, so that a position is tried, and the strip
    and the band do not broadcast: a new frame too short to hold the
    whole band, the band being neither [band_height] rows nor one row, or
    frames of two widths neither of which is 1.  It does not return 0 in
    that case. *)
Theorem find_overlap_raises (prev_img curr_img : image) (band_height : nat) :
  ScheduleCapture.find_overlap prev_img curr_img band_height
  = Err ValueError
  <-> (band_height < img_h prev_img)%nat
      /\ (bdim band_height (Nat.min band_height (img_h curr_img - 5)) = None
          \/ bdim (img_w prev_img) (img_w curr_img) = None).
Proof.
  pose proof (strip_diff_shapes prev_img curr_img band_height) as Hshape.
  unfold ScheduleCapture.find_overlap.
  destruct (Nat.le_gt_cases (img_h prev_img) band_height) as [Hshort|Htall].
  - replace (img_h prev_img - band_height)%nat with 0%nat by lia.
    cbn [seq ScheduleCapture.slide_band flt]. split; [discriminate|].
    intros [H _]. lia.
  - destruct (bdim band_height (Nat.min band_height (img_h curr_img - 5)))
      as [rd|] eqn:Er;
      [destruct (bdim (img_w prev_img) (img_w curr_img)) as [cd|] eqn:Ec|].
    + destruct (slide_band_total prev_img
                  (ScheduleCapture.band_of curr_img band_height)
                  band_height (seq 0 (img_h prev_img - band_height)))
        with (best_row := -1) (best_diff := FInf) as (r & d & ->).
      { intros row Hin. apply in_seq in Hin.
        rewrite Hshape by (unfold positions; lia). eauto. }
      split.
      * destruct (flt d (FQ 5)); discriminate.
      * intros [_ [H|H]]; discriminate.
    + destruct (img_h prev_img - band_height)%nat as [|n] eqn:En; [lia|].
      cbn [seq]. rewrite (slide_band_raises _ _ _ _ _ _ _ ValueError).
      * split; [auto | reflexivity].
      * apply Hshape. unfold positions. lia.
    + destruct (img_h prev_img - band_height)%nat as [|n] eqn:En; [lia|].
      cbn [seq]. rewrite (slide_band_raises _ _ _ _ _ _ _ ValueError).
      * split; [auto | reflexivity].
      * apply Hshape. unfold positions. lia.
Qed.

(** ** Stitching frames of one width *)
Section Stitching.
Import ScheduleCapture.

Lemma firstn_in {A : Type} (n : nat) (l : list A) (x : A) :
  In x (firstn n l) -> In x l.
Proof.
  intros H. rewrite <- (firstn_skipn n l). apply in_or_app. left. exact H.
Qed.

Lemma skipn_in {A : Type} (n : nat) (l : list A) (x : A) :
  In x (skipn n l) -> In x l.
Proof.
  intros H. rewrite <- (firstn_skipn n l). apply in_or_app. right. exact H.
Qed.

Lemma slice_to_in {A : Type} (stop : Z) (l : list A) (x : A) :
  In x (slice_to stop l) -> In x l.
Proof. unfold slice_to. destruct (stop <? 0); apply firstn_in. Qed.

Lemma slice_from_in {A : Type} (start : Z) (l : list A) (x : A) :
  In x (slice_from start l) -> In x l.
Proof. unfold slice_from. destruct (start <? 0); apply skipn_in. Qed.

Lemma slice_to_length {A : Type} (stop : Z) (l : list A) :
  (length (slice_to stop l) <= length l)%nat.
Proof.
  unfold slice_to. destruct (stop <? 0); rewrite length_firstn; lia.
Qed.

Lemma slice_from_length {A : Type} (start : Z) (l : list A) :
  (length (slice_from start l) <= length l)%nat.
Proof.
  unfold slice_from. destruct (start <? 0); rewrite length_skipn; lia.
Qed.

(** One round of stitching on frames of width [w]. *)
Lemma stitch_step_total (result prev curr : image) (w : nat) :
  img_w result = w -> img_w prev = w -> img_w curr = w ->
  (45 <= img_h curr)%nat ->
  exists result',
    stitch_step result prev curr = Ok result'
    /\ img_w result' = w
    /\ (img_h result' <= img_h result + img_h curr)%nat
    /\ forall row, In row (img_rows result') ->
                   In row (img_rows result) \/ In row (img_rows curr).
Proof.
  intros Hr Hp Hc Hh. unfold stitch_step.
  destruct (find_overlap_total prev curr 40) as [ov ->];
    [congruence | unfold band_start; lia|].
  destruct (0 <? ov).
  - set (sep_start := find_nearest_separator curr ov 50).
    set (prev_sep := find_nearest_separator result
                       (Z.of_nat (img_h result) - ov + sep_start) 50).
    pose proof (slice_to_length prev_sep (img_rows result)) as Lt.
    pose proof (slice_from_length sep_start (img_rows curr)) as Lf.
    destruct (Nat.ltb 0 (img_h (mkImage (img_w curr)
                                  (slice_from sep_start (img_rows curr))))).
    + unfold vstack. cbn [img_w img_rows]. rewrite Hr, Hc, Nat.eqb_refl.
      eexists. split; [reflexivity|]. split; [reflexivity|]. split.
      * unfold img_h in *. cbn [img_rows]. rewrite length_app. lia.
      * cbn [img_rows]. intros row H. apply in_app_or in H.
        destruct H as [H|H];
          [left; exact (slice_to_in _ _ _ H)
          | right; exact (slice_from_in _ _ _ H)].
    + eexists. split; [reflexivity|]. split; [exact Hr|]. split.
      * unfold img_h in *. cbn [img_rows]. lia.
      * cbn [img_rows]. intros row H. left. exact (slice_to_in _ _ _ H).
  - destruct (Nat.ltb 0 (img_h curr)).
    + unfold vstack. rewrite Hr, Hc, Nat.eqb_refl.
      eexists. split; [reflexivity|]. split; [reflexivity|]. split.
      * unfold img_h in *. cbn [img_rows]. rewrite length_app. lia.
      * cbn [img_rows]. intros row H. apply in_app_or in H. exact H.
    + eexists. split; [reflexivity|]. split; [exact Hr|]. split; [lia|].
      intros row H. left. exact H.
Qed.

Lemma stitch_loop_total (w : nat) (rest : list image) :
  forall result prev,
    img_w result = w -> img_w prev = w ->
    Forall (fun f => img_w f = w /\ (45 <= img_h f)%nat) rest ->
    exists result',
      stitch_loop result prev rest = Ok result'
      /\ img_w result' = w
      /\ (img_h result' <= img_h result + list_sum (map img_h rest))%nat
      /\ forall row, In row (img_rows result') ->
                     In row (img_rows result)
                     \/ exists f, In f rest /\ In row (img_rows f).
Proof.
  induction rest as [|curr rest IH]; intros result prev Hr Hp Hall.
  - exists result. split; [reflexivity|]. split; [exact Hr|].
    split; [lia|]. auto.
  - inversion Hall as [|? ? [Hc Hh] Hrest]; subst.
    destruct (stitch_step_total result prev curr (img_w result)
                eq_refl Hp Hc Hh) as (step & Hstep & Hw & Hlen & Hrows).
    destruct (IH step curr Hw Hc Hrest)
      as (result' & Hloop & Hw' & Hlen' & Hrows').
    exists result'. cbn [stitch_loop]. rewrite Hstep.
    split; [exact Hloop|]. split; [exact Hw'|]. split.
    + change (list_sum (map img_h (curr :: rest)))
        with (img_h curr + list_sum (map img_h rest))%nat.
      lia.
    + intros row H. destruct (Hrows' row H) as [H1|(f & Hf & Hin)].
      * destruct (Hrows row H1) as [H2|H2]; [left; exact H2|].
        right. exists curr. split; [left; reflexivity | exact H2].
      * right. exists f. split; [right; exact Hf | exact Hin].
Qed.


End Stitching.

(** X8.  On frames of one width, all but the first at least 45 rows
    high, [stitch_images] returns an image and does not raise.  The image
    has the frames' width, is made of rows of the frames only, and is no
    higher than the frames together; when every frame is a well-formed
    array, so is the result. *)
Theorem stitch_images_of_frames (first : image) (rest : list image)
    (w : nat) :
  img_w first = w ->
  Forall (fun f => img_w f = w /\ (45 <= img_h f)%nat) rest ->
  exists result,
    ScheduleCapture.stitch_images (first :: rest) = Ok (Some result)
    /\ img_w result = w
    /\ (img_h result <= list_sum (map img_h (first :: rest)))%nat
    /\ (forall row, In row (img_rows result) ->
          exists f, In f (first :: rest) /\ In row (img_rows f))
    /\ (Forall wf (first :: rest) -> wf result).
Proof.
  intros Hw Hall.
  destruct (stitch_loop_total w rest first first Hw Hw Hall)
    as (result & Hloop & Hw' & Hlen & Hrows).
  assert (Hst : ScheduleCapture.stitch_images (first :: rest)
                = Ok (Some result)).
  { unfold ScheduleCapture.stitch_images. destruct rest as [|second rest].
    - cbn [ScheduleCapture.stitch_loop] in Hloop. inversion Hloop.
      reflexivity.
    - rewrite Hloop. reflexivity. }
  assert (Hfrom : forall row, In row (img_rows result) ->
            exists f, In f (first :: rest) /\ In row (img_rows f)).
  { intros row H. destruct (Hrows row H) as [H1|(f & Hf & Hin)].
    - exists first. split; [left; reflexivity | exact H1].
    - exists f. split; [right; exact Hf | exact Hin]. }
  exists result. split; [exact Hst|]. split; [exact Hw'|].
  split; [exact Hlen|].
  split; [exact Hfrom|].
  intros Hwf. unfold wf. apply Forall_forall. intros row H.
  destruct (Hfrom row H) as (f & Hf & Hin).
  rewrite Forall_forall in Hwf. pose proof (Hwf f Hf) as Hwff.
  unfold wf in Hwff. rewrite Forall_forall in Hwff.
  rewrite (Hwff row Hin), Hw'.
  destruct Hf as [<-|Hf]; [exact Hw|].
  rewrite Forall_forall in Hall. exact (proj1 (Hall f Hf)).
Qed.

Lemma stitch_images_of_frames_witness :
  exists result,
    ScheduleCapture.stitch_images [Frames.above; tall_frame]
    = Ok (Some result)
    /\ img_w result = 2%nat
    /\ (img_h result <= 49)%nat.
Proof.
  destruct (stitch_images_of_frames Frames.above [tall_frame] 2)
    as (result & H1 & H2 & H3 & _).
  - reflexivity.
  - constructor; [split; [reflexivity | vm_compute; lia] | constructor].
  - exists result. split; [exact H1|]. split; [exact H2|].
    vm_compute in H3. exact H3.
Defined.

(** ** The capture loop of [capture_schedule] *)
Section CaptureLoop.
Import ScheduleCapture.
Variable env : desktop.

Lemma last_any {A : Type} (l : list A) (d d' : A) :
  l <> [] -> last l d = last l d'.
Proof.
  induction l as [|x l IH]; intros H; [congruence|].
  destruct l as [|y l]; [reflexivity|].
  change (last (y :: l) d = last (y :: l) d'). apply IH. discriminate.
Qed.

Lemma unmatched_snoc (frames : list image) (img d : image) :
  unmatched frames ->
  (frames <> [] -> frames_match (last frames d) img 5 = Ok false) ->
  unmatched (frames ++ [img]).
Proof.
  induction frames as [|a frames IH]; intros Hu Hlast; [exact I|].
  destruct frames as [|b frames].
  - cbn [app unmatched]. split; [|exact I]. apply Hlast. discriminate.
  - change (unmatched (a :: b :: (frames ++ [img]))).
    cbn [unmatched] in Hu |- *. destruct Hu as [Hab Hu].
    split; [exact Hab|]. apply IH; [exact Hu|].
    intros _. apply Hlast. discriminate.
Qed.

Lemma schedule_scrolls_shift (k : nat) (h : list action) :
  schedule_scrolls k ++ hist (schedule_scroll_world env (mkWorld 0 h []))
  = schedule_scrolls (S k) ++ h.
Proof.
  unfold schedule_scrolls, schedule_scroll_world, advance, record.
  cbn [hist]. induction k as [|k IH]; [reflexivity|].
  cbn [repeat concat] in *. rewrite <- !app_assoc. rewrite IH.
  reflexivity.
Qed.

Lemma capture_frames_spec (rounds : nat) :
  forall frames w,
    unmatched frames ->
    exists new w',
      capture_frames env rounds frames w = Done (frames ++ new) w'
      /\ (length new <= rounds)%nat
      /\ (frames = [] -> (0 < rounds)%nat -> new <> [])
      /\ unmatched (frames ++ new)
      /\ hist w' = schedule_scrolls (length new) ++ hist w
      /\ files w' = files w
      /\ (forall f, In f new ->
            exists h t, f = screenshot_at env schedule_region h t)
      /\ ((length new < rounds)%nat ->
          frames ++ new <> []
          /\ frames_match (last (frames ++ new) (last_capture env w'))
               (last_capture env w') 5 = Ok true).
Proof.
  induction rounds as [|rounds IH]; intros frames w Hu.
  - exists [], w. rewrite app_nil_r. cbn [capture_frames length].
    split; [reflexivity|]. split; [lia|]. split; [intros; lia|].
    split; [exact Hu|]. split; [reflexivity|]. split; [reflexivity|].
    split; [intros f []|]. intros; lia.
  - set (img := screenshot_at env schedule_region (hist w) (clock w)).
    set (w1 := advance (call_ms env) w).
    assert (Hcap : last_capture env w1 = img).
    { unfold last_capture, img, w1, advance. cbn [hist clock].
      f_equal. lia. }
    assert (Hshot : capture_schedule_region env w = Done img w1)
      by reflexivity.
    assert (Hsame : exists same,
              (match frames with
               | [] => ret false
               | _ => lift (frames_match (last frames img) img 5)
               end) w1 = Done same w1
              /\ (same = true ->
                  frames <> []
                  /\ frames_match (last frames img) img 5 = Ok true)
              /\ (same = false -> frames <> [] ->
                  frames_match (last frames img) img 5 = Ok false)).
    { destruct frames as [|a frames].
      - exists false. split; [reflexivity|].
        split; [discriminate | congruence].
      - destruct (frames_match_total (last (a :: frames) img) img 5)
          as [m Hm].
        exists m. split; [unfold lift; rewrite Hm; reflexivity|].
        split; intros ->; [split; [discriminate | exact Hm]|].
        intros _. exact Hm. }
    destruct Hsame as (same & Hrun & Htrue & Hfalse).
    cbn [capture_frames].
    rewrite (bind_run _ _ _ _ _ Hshot), (bind_run _ _ _ _ _ Hrun).
    destruct same.
    + destruct (Htrue eq_refl) as [Hne Hm].
      exists [], w1. rewrite app_nil_r. cbn [length].
      split; [reflexivity|]. split; [lia|].
      split; [intros ->; congruence|].
      split; [exact Hu|]. split; [reflexivity|]. split; [reflexivity|].
      split; [intros f []|].
      intros _. split; [exact Hne|]. rewrite Hcap. exact Hm.
    + assert (Hu' : unmatched (frames ++ [img]))
        by (apply (unmatched_snoc frames img img Hu); auto).
      assert (Hscroll : scroll_schedule_down env (-2000) w1
                        = Done tt (schedule_scroll_world env w1))
        by reflexivity.
      rewrite (bind_run _ _ _ _ _ Hscroll).
      destruct (IH (frames ++ [img]) (schedule_scroll_world env w1) Hu')
        as (new & w' & Hrec & Hlen & _ & Hun & Hh & Hf & Hshots & Hstop).
      exists (img :: new), w'.
      replace (frames ++ img :: new) with ((frames ++ [img]) ++ new)
        by (rewrite <- app_assoc; reflexivity).
      split; [exact Hrec|]. cbn [length]. split; [lia|].
      split; [discriminate|]. split; [exact Hun|].
      split.
      * rewrite Hh.
        pose proof (schedule_scrolls_shift (length new) (hist w)) as E.
        exact E.
      * split; [rewrite Hf; reflexivity|]. split.
        -- intros f [<-|Hin]; [unfold img; eauto | exact (Hshots f Hin)].
        -- intros Hlt. apply Hstop. lia.
Qed.

End CaptureLoop.

(** X9.  The capture loop of [capture_schedule] never raises and stores
    between one frame and [max_frames] frames, none of which matches the
    frame before it.  It scrolls the schedule once for each stored frame
    and does nothing else to the desktop or the disk.  When it stores
    fewer than [max_frames] frames, it has stopped on a capture that
    matches the last stored frame. *)
Theorem capture_frames_until_still (env : desktop) (rounds : nat)
    (w : world) :
  (0 < rounds)%nat ->
  exists frames w',
    ScheduleCapture.capture_frames env rounds [] w = Done frames w'
    /\ (1 <= length frames <= rounds)%nat
    /\ unmatched frames
    /\ hist w' = schedule_scrolls (length frames) ++ hist w
    /\ files w' = files w
    /\ ((length frames < rounds)%nat ->
        ScheduleCapture.frames_match
          (last frames (last_capture env w')) (last_capture env w') 5
        = Ok true).
Proof.
  intros Hpos.
  destruct (capture_frames_spec env rounds [] w I)
    as (new & w' & Hrun & Hlen & Hne & Hun & Hh & Hf & _ & Hstop).
  cbn [app] in *. exists new, w'.
  split; [exact Hrun|]. split.
  - destruct new as [|a new]; [exfalso; apply (Hne eq_refl Hpos);
                               reflexivity|].
    cbn [length] in *. lia.
  - split; [exact Hun|]. split; [exact Hh|]. split; [exact Hf|].
    intros Hlt. exact (proj2 (Hstop Hlt)).
Qed.

Lemma capture_frames_until_still_witness :
  exists frames w',
    ScheduleCapture.capture_frames TrainList.schedule_screen 20 []
      Scenes.start = Done frames w'
    /\ (1 <= length frames <= 20)%nat
    /\ unmatched frames.
Proof.
  destruct (capture_frames_until_still TrainList.schedule_screen 20
              Scenes.start)
    as (frames & w' & H1 & H2 & H3 & _); [lia|].
  exists frames, w'. auto.
Defined.



(** ** What the polling loops have seen when they return *)
Section Polling.
Variable env : desktop.
Variables (path : string) (c : Q).
Hypothesis Hcall : 0 <= call_ms env.

(** One round of the loop of [wait_for_image]. *)
Lemma wait_for_image_loop_S (fuel : nat) (timeout interval start : Z)
    (attempts : nat) (w : world) :
  Utils.wait_for_image_loop env (S fuel) path timeout c interval start
    attempts w
  = if clock w - start <? timeout then
      match locate_at env path c (hist w) (clock w) with
      | Located loc => Done (Some loc) (advance (call_ms env) w)
      | _ =>
          Utils.wait_for_image_loop env fuel path timeout c interval start
            (S attempts)
            (advance interval
               (if Nat.eqb (S attempts mod 5) 0
                then advance (call_ms env) (advance (call_ms env) w)
                else advance (call_ms env) w))
      end
    else Done None (advance (call_ms env) w).
Proof.
  cbn [Utils.wait_for_image_loop]. unfold bind at 1, time_time.
  destruct (clock w - start <? timeout); [|reflexivity].
  unfold bind at 1, locateOnScreen.
  destruct (locate_at env path c (hist w) (clock w));
    try reflexivity;
    destruct (Nat.eqb (S attempts mod 5) 0); reflexivity.
Qed.

Lemma wait_for_image_loop_seen (timeout interval start : Z) (fuel : nat) :
  0 <= interval ->
  forall attempts w r w',
    Utils.wait_for_image_loop env fuel path timeout c interval start
      attempts w = Done r w' ->
    match r with
    | Some loc =>
        exists t, clock w <= t /\ t - start < timeout
                  /\ locate_at env path c (hist w) t = Located loc
                  /\ clock w' = t + call_ms env
    | None => exists t, clock w <= t /\ timeout <= t - start
                        /\ clock w' = t + call_ms env
    end.
Proof.
  intros Hint. induction fuel as [|fuel IH]; intros attempts w r w' H;
    [discriminate|].
  rewrite wait_for_image_loop_S in H.
  destruct (Z.ltb_spec (clock w - start) timeout) as [Hlt|Hge].
  - assert (Hnext : forall w1,
              hist w1 = hist w -> clock w <= clock w1 ->
              Utils.wait_for_image_loop env fuel path timeout c interval
                start (S attempts) w1 = Done r w' ->
              match r with
              | Some loc =>
                  exists t, clock w <= t /\ t - start < timeout
                            /\ locate_at env path c (hist w) t = Located loc
                            /\ clock w' = t + call_ms env
              | None => exists t, clock w <= t /\ timeout <= t - start
                                  /\ clock w' = t + call_ms env
              end).
    { intros w1 Hh Hc H1. apply IH in H1. rewrite Hh in H1.
      destruct r as [loc|].
      - destruct H1 as (t & Ht & H1). exists t. split; [lia | exact H1].
      - destruct H1 as (t & Ht & H1). exists t. split; [lia | exact H1]. }
    assert (Hw1 : forall w1,
              w1 = advance interval
                     (if Nat.eqb (S attempts mod 5) 0
                      then advance (call_ms env) (advance (call_ms env) w)
                      else advance (call_ms env) w) ->
              hist w1 = hist w /\ clock w <= clock w1).
    { intros w1 ->. destruct (Nat.eqb (S attempts mod 5) 0);
        unfold advance; cbn [hist clock]; split; try reflexivity; lia. }
    destruct (locate_at env path c (hist w) (clock w)) as [| |loc] eqn:E.
    + destruct (Hw1 _ eq_refl). apply (Hnext _ H0 H1 H).
    + destruct (Hw1 _ eq_refl). apply (Hnext _ H0 H1 H).
    + inversion H; subst. exists (clock w).
      split; [lia|]. split; [exact Hlt|]. split; [exact E | reflexivity].
  - inversion H; subst. exists (clock w).
    split; [lia|]. split; [exact Hge | reflexivity].
Qed.

Lemma screen_changed_loop_seen (wait_time start : Z) (fuel : nat) :
  forall w b w',
    Utils._screen_changed_loop env fuel path c wait_time 2000 start w
    = Done b w' ->
    if b
    then exists t, clock w + 2000 <= t /\ t - 2000 - start < wait_time
                   /\ is_located (locate_at env path c (hist w) t) = false
                   /\ clock w' = t + call_ms env
    else clock w <= clock w' /\ wait_time <= clock w' - start.
Proof.
  induction fuel as [|fuel IH]; intros w b w' H; [discriminate|].
  rewrite screen_changed_loop_S in H.
  destruct (Z.ltb_spec (clock w - start) wait_time) as [Hlt|Hge].
  - cbv zeta in H.
    destruct (locate_at env path c (hist w) (clock w + 2000)) eqn:E.
    + inversion H; subst. exists (clock w + 2000).
      rewrite E. unfold advance; cbn [clock].
      repeat split; try reflexivity; lia.
    + inversion H; subst. exists (clock w + 2000).
      rewrite E. unfold advance; cbn [clock].
      repeat split; try reflexivity; lia.
    + apply IH in H. unfold advance in H; cbn [clock hist] in H.
      destruct b.
      * destruct H as (t & Ht & H). exists t. split; [lia | exact H].
      * lia.
  - inversion H; subst. lia.
Qed.

End Polling.

(** X11.  [wait_for_image] touches neither mouse nor keyboard.  When it
    returns a location, a poll less than [timeout] after the call has
    found the reference there; when it returns [None], at least [timeout]
    has passed since the call. *)
Theorem wait_for_image_seen (env : desktop) (path : string) (c : Q)
    (fuel : nat) (timeout interval : Z) (w : world) :
  0 <= call_ms env ->
  0 < interval ->
  Z.max 0 timeout + interval <= interval * Z.of_nat fuel ->
  exists r w',
    Utils.wait_for_image env fuel path timeout c interval w = Done r w'
    /\ hist w' = hist w
    /\ files w' = files w
    /\ match r with
       | Some loc =>
           exists t, clock w <= t /\ t - clock w < timeout
                     /\ locate_at env path c (hist w) t = Located loc
                     /\ clock w' = t + call_ms env
       | None => timeout <= clock w' - call_ms env - clock w
       end.
Proof.
  intros Hcall Hint Hfuel.
  destruct (wait_for_image_loop_total env path c Hcall timeout interval
              (clock w) fuel Hint 0%nat w) as (r & w' & H); [lia|].
  assert (Hrun : Utils.wait_for_image env fuel path timeout c interval w
                 = Done r w') by exact H.
  exists r, w'. split; [exact Hrun|].
  split; [exact (keeps_hist_wait_for_image _ _ _ _ _ _ _ _ _ Hrun)|].
  split.
  - unfold Utils.wait_for_image in Hrun.
    apply bind_done in Hrun. destruct Hrun as (s & w1 & E & Hloop).
    inversion E; subst.
    exact (keeps_wait_for_image_loop _ _ _ _ _ _ _ _ _ _ _ Hloop).
  - apply (wait_for_image_loop_seen env path c Hcall) in H; [|lia].
    destruct r as [loc|]; [exact H|].
    destruct H as (t & Ht & Hlate & ->). lia.
Qed.

Lemma wait_for_image_seen_witness :
  exists r w',
    Utils.wait_for_image Scenes.stuck 61 "references/schedule.png" 60000
      (4 # 5) 1000 Scenes.start = Done r w'
    /\ hist w' = hist Scenes.start.
Proof.
  destruct (wait_for_image_seen Scenes.stuck "references/schedule.png"
              (4 # 5) 61 60000 1000 Scenes.start)
    as (r & w' & H1 & H2 & _).
  - vm_compute. discriminate.
  - lia.
  - vm_compute. discriminate.
  - exists r, w'. split; [exact H1 | exact H2].
Defined.

(** X12.  [_screen_changed] touches neither mouse nor keyboard.  When it
    returns [True], a poll has found the reference absent, at least one
    check interval after the call and less than [wait_time] plus one
    interval after it; when it returns [False], at least [wait_time] has
    passed since the call.  With a [wait_time] of zero or less it returns
    [False] at once, without a poll. *)
Theorem screen_changed_seen (env : desktop) (path : string) (c : Q)
    (fuel : nat) (wait_time : Z) (w : world) :
  0 <= call_ms env ->
  Z.max 0 wait_time + 2000 <= 2000 * Z.of_nat fuel ->
  exists b w',
    Utils._screen_changed env fuel path c wait_time 2000 w = Done b w'
    /\ hist w' = hist w
    /\ (if b
        then exists t,
               clock w + 2000 <= t < clock w + wait_time + 2000
               /\ is_located (locate_at env path c (hist w) t) = false
               /\ clock w' = t + call_ms env
        else wait_time <= clock w' - clock w)
    /\ (wait_time <= 0 -> b = false /\ w' = w).
Proof.
  intros Hcall Hfuel.
  destruct (screen_changed_loop_total env path c Hcall wait_time (clock w)
              fuel w) as (b & w' & H); [lia|].
  assert (Hrun : Utils._screen_changed env fuel path c wait_time 2000 w
                 = Done b w') by exact H.
  exists b, w'. split; [exact Hrun|].
  split; [exact (keeps_hist_screen_changed _ _ _ _ _ _ _ _ Hrun)|].
  split.
  - apply (screen_changed_loop_seen env path c Hcall) in H.
    destruct b; [|lia].
    destruct H as (t & Ht & Hin & Hgone & Hc). exists t.
    split; [split; lia|]. split; [exact Hgone | exact Hc].
  - intros Hle. destruct fuel as [|fuel]; [lia|].
    rewrite screen_changed_loop_S in H.
    destruct (Z.ltb_spec (clock w - clock w) wait_time) as [Hlt|Hge];
      [lia|].
    inversion H; subst. split; reflexivity.
Qed.

Lemma screen_changed_seen_witness :
  exists b w',
    Utils._screen_changed Scenes.stuck 16 "references/schedule.png" (4 # 5)
      30000 2000 Scenes.start = Done b w'
    /\ hist w' = hist Scenes.start.
Proof.
  destruct (screen_changed_seen Scenes.stuck "references/schedule.png"
              (4 # 5) 16 30000 Scenes.start)
    as (b & w' & H1 & H2 & _).
  - vm_compute. discriminate.
  - vm_compute. discriminate.
  - exists b, w'. split; [exact H1 | exact H2].
Defined.

(** X13.  With [verify=False], [wait_and_click] clicks once, at the
    centre of the location that [wait_for_image] has found, and returns
    [True] without a look at the screen after the click; when the
    reference is not found in time it returns [False] and clicks
    nothing. *)
Theorem wait_and_click_unverified (env : desktop) (path : string) (c : Q)
    (fuel : nat) (timeout interval dur : Z) (w : world) :
  0 <= call_ms env ->
  0 < interval ->
  Z.max 0 timeout + interval <= interval * Z.of_nat fuel ->
  exists found w1,
    Utils.wait_for_image env fuel path timeout c interval w = Done found w1
    /\ hist w1 = hist w
    /\ match found with
       | Some loc =>
           Utils.wait_and_click env fuel path timeout c interval dur false w
           = Done true (click_world env dur loc w1)
           /\ hist (click_world env dur loc w1)
              = MouseUp :: MouseDown
                  :: MoveTo (fst (center loc)) (snd (center loc)) :: hist w
       | None =>
           Utils.wait_and_click env fuel path timeout c interval dur false w
           = Done false w1
       end.
Proof.
  intros Hcall Hint Hfuel.
  destruct (wait_for_image_loop_total env path c Hcall timeout interval
              (clock w) fuel Hint 0%nat w) as (found & w1 & H); [lia|].
  assert (Hrun : Utils.wait_for_image env fuel path timeout c interval w
                 = Done found w1) by exact H.
  pose proof (keeps_hist_wait_for_image _ _ _ _ _ _ _ _ _ Hrun) as Hh.
  exists found, w1. split; [exact Hrun|]. split; [exact Hh|].
  unfold Utils.wait_and_click. rewrite (bind_run _ _ _ _ _ Hrun).
  destruct found as [loc|]; [|reflexivity].
  split.
  - change (seq 1 Config.RETRY_MAX) with (1%nat :: seq 2 2).
    rewrite click_attempts_cons. reflexivity.
  - rewrite click_world_hist, Hh. reflexivity.
Qed.

Lemma wait_and_click_unverified_witness :
  exists w',
    Utils.wait_and_click Scenes.stuck 61 "references/schedule.png" 60000
      (4 # 5) 1000 200 false Scenes.start = Done true w'
    /\ clicks w' = 1%nat.
Proof.
  destruct (wait_and_click_unverified Scenes.stuck
              "references/schedule.png" (4 # 5) 61 60000 1000 200
              Scenes.start)
    as (found & w1 & H1 & H2 & H3).
  - vm_compute. discriminate.
  - lia.
  - vm_compute. discriminate.
  - destruct found as [loc|].
    + destruct H3 as [H3 H4]. exists (click_world Scenes.stuck 200 loc w1).
      split; [exact H3|]. unfold clicks. rewrite H4. reflexivity.
    + exfalso.
      rewrite (wait_for_image_found Scenes.stuck _ _ 60 60000 1000
                 Scenes.button Scenes.start) in H1;
        [discriminate | lia | reflexivity].
Defined.

(** ** Leaving the menus *)
Section EscapeLoop.
Import ServiceList.
Variable env : desktop.

Lemma escape_loop_presses (rounds : nat) :
  forall w,
  exists k w',
    escape_loop env rounds w = Done tt w'
    /\ (k <= rounds)%nat
    /\ hist w' = repeat (Press "escape") k ++ hist w
    /\ files w' = files w
    /\ ((k < rounds)%nat ->
        is_located (locate_at env REF_TO_THE_TRAINS Config.CONFIDENCE
                      (hist w') (clock w' - call_ms env)) = true)
    /\ (is_located (locate_at env REF_TO_THE_TRAINS Config.CONFIDENCE
                      (hist w) (clock w)) = true -> k = 0%nat)
    /\ ((forall h t, is_located (locate_at env REF_TO_THE_TRAINS
                                   Config.CONFIDENCE h t) = false) ->
        k = rounds).
Proof.
  induction rounds as [|rounds IH]; intros w.
  - exists 0%nat, w. split; [reflexivity|]. split; [lia|].
    split; [reflexivity|]. split; [reflexivity|].
    split; [lia|]. split; reflexivity.
  - cbn [escape_loop]. unfold bind at 1, locateOnScreen.
    set (w1 := advance (call_ms env) (record (Press "escape")
                                        (advance (call_ms env) w))).
    assert (Hnext : exists k w',
              (press env "escape" ;;; sleep 2000 ;;; escape_loop env rounds)
                (advance (call_ms env) w) = Done tt w'
              /\ (1 <= k <= S rounds)%nat
              /\ hist w' = repeat (Press "escape") k ++ hist w
              /\ files w' = files w
              /\ ((k < S rounds)%nat ->
                  is_located (locate_at env REF_TO_THE_TRAINS
                                Config.CONFIDENCE (hist w')
                                (clock w' - call_ms env)) = true)
              /\ ((forall h t, is_located (locate_at env REF_TO_THE_TRAINS
                                             Config.CONFIDENCE h t) = false)
                  -> k = S rounds)).
    { destruct (IH (advance 2000 w1))
        as (k & w' & Hrun & Hk & Hh & Hf & Hseen & _ & Hnever).
      exists (S k), w'. split; [exact Hrun|]. split; [lia|].
      split; [rewrite Hh; cbn [repeat app hist advance record w1];
              unfold w1; cbn [hist advance record];
              apply repeat_shift|].
      split; [exact Hf|]. split.
      - intros Hlt. apply Hseen. lia.
      - intros Hn. rewrite (Hnever Hn). reflexivity. }
    destruct (locate_at env REF_TO_THE_TRAINS Config.CONFIDENCE (hist w)
                (clock w)) as [| |loc] eqn:E.
    + destruct Hnext as (k & w' & Hrun & Hk & Hh & Hf & Hseen & Hnever).
      exists k, w'. split; [exact Hrun|]. split; [lia|].
      split; [exact Hh|]. split; [exact Hf|]. split; [exact Hseen|].
      split; [discriminate | exact Hnever].
    + destruct Hnext as (k & w' & Hrun & Hk & Hh & Hf & Hseen & Hnever).
      exists k, w'. split; [exact Hrun|]. split; [lia|].
      split; [exact Hh|]. split; [exact Hf|]. split; [exact Hseen|].
      split; [discriminate | exact Hnever].
    + exists 0%nat, (advance (call_ms env) w).
      split; [reflexivity|]. split; [lia|].
      split; [reflexivity|]. split; [reflexivity|]. split.
      * intros _. unfold advance. cbn [hist clock].
        replace (clock w + call_ms env - call_ms env) with (clock w) by lia.
        rewrite E. reflexivity.
      * split; [reflexivity|]. intros Hn.
        specialize (Hn (hist w) (clock w)). rewrite E in Hn. discriminate.
Qed.

End EscapeLoop.

(** X14.  [_return_to_main_menu_from_menus] always returns, after at most
    six presses of Escape and no other action.  It presses nothing when
    the main menu tile is on screen at the call; when it has pressed fewer
    than six times, its last look at the screen has found the tile; when
    the tile never shows, it presses six times and returns all the
    same. *)
Theorem return_to_main_menu_presses (env : desktop) (w : world) :
  exists k w',
    ServiceList._return_to_main_menu_from_menus env w = Done tt w'
    /\ (k <= 6)%nat
    /\ hist w' = repeat (Press "escape") k ++ hist w
    /\ files w' = files w
    /\ ((k < 6)%nat ->
        is_located (locate_at env ServiceList.REF_TO_THE_TRAINS
                      Config.CONFIDENCE (hist w') (clock w' - call_ms env))
        = true)
    /\ (is_located (locate_at env ServiceList.REF_TO_THE_TRAINS
                      Config.CONFIDENCE (hist w) (clock w)) = true ->
        k = 0%nat)
    /\ ((forall h t, is_located (locate_at env ServiceList.REF_TO_THE_TRAINS
                                   Config.CONFIDENCE h t) = false) ->
        k = 6%nat).
Proof. exact (escape_loop_presses env 6 w). Qed.

(** ** Counting the trains, then clicking one *)

(** X15.  On a train list that is [boxes] boxes long and starts at its
    top, [count_trains] returns the entries in view plus the smaller of 30
    and [boxes], so it stops counting at 30 scrolls, and leaves the list
    at its top.  [click_train] of any index below that count then scrolls
    the smaller of [index] and [boxes] boxes and clicks an in-view offset
    below the number of entries in view. *)
Theorem count_then_click (env : desktop) (boxes : nat)
    (render : Z -> image) (w : world) :
  let max_offset := 310 * Z.of_nat boxes in
  let visible := ServiceLoop._count_visible_trains (render 0) in
  (forall h t, screenshot_at env TrainBox.region h t
               = render (offset_of max_offset h)) ->
  (forall p q, shape (render p) = shape (render q)) ->
  (forall p, 0 <= p <= max_offset ->
     ServiceLoop._frames_match (render p) (render p) = Ok true) ->
  (forall p, 0 <= p < max_offset ->
     ServiceLoop._frames_match (render p)
       (render (Z.min max_offset (p - Config.TRAIN_SCROLL_PER_BOX)))
     = Ok false) ->
  offset_of max_offset (hist w) = 0 ->
  exists w1,
    ServiceLoop.count_trains env w
    = Done (visible + Nat.min 30 boxes)%nat w1
    /\ offset_of max_offset (hist w1) = 0
    /\ forall index,
         (index < visible + Nat.min 30 boxes)%nat ->
         exists offset w2,
           Navigator.click_train env index w1
           = Done (Navigator.mkReport (Nat.min index boxes) offset
                     (Config.TRAIN_BOX_TOP + Config.TRAIN_FIRST_Y_OFFSET
                      + offset * Config.TRAIN_BOX_STRIDE)) w2
           /\ Z.of_nat (Nat.min index boxes) + offset = Z.of_nat index
           /\ 0 <= offset < Z.max 1 (Z.of_nat visible).
Proof.
  intros max_offset visible Hlist Hshape Hsame Hdetect Htop.
  assert (Hmax : 0 <= max_offset) by (unfold max_offset; lia).
  destruct (count_trains_list env max_offset render Hmax Hlist Hsame
              Hdetect 30 w Htop) as (w1 & Hcount & Htop1).
  assert (Hk : forall rounds,
            list_scrolls max_offset rounds 0 = Nat.min rounds boxes).
  { intros rounds.
    pose proof (list_scrolls_boxes boxes rounds 0 ltac:(lia)) as Hk.
    rewrite Nat.sub_0_r in Hk. exact Hk. }
  rewrite Hk in Hcount. exists w1.
  split; [exact Hcount|]. split; [exact Htop1|].
  intros index Hindex.
  assert (Hshots : forall h t h' t',
            shape (screenshot_at env TrainBox.region h t)
            = shape (screenshot_at env TrainBox.region h' t'))
    by (intros; rewrite !Hlist; apply Hshape).
  assert (Hstill : forall p, 0 <= p <= max_offset ->
            unmoved (render p, render p) = true).
  { intros p Hp. pose proof (Hsame p Hp) as H.
    rewrite (frames_match_unmoved _ _ (Hshape p p)) in H.
    injection H as H. exact H. }
  assert (Hmoved : forall p, 0 <= p < max_offset ->
            unmoved (render p,
                     render (Z.min max_offset
                               (p - Config.TRAIN_SCROLL_PER_BOX))) = false).
  { intros p Hp. pose proof (Hdetect p Hp) as H.
    rewrite (frames_match_unmoved _ _ (Hshape _ _)) in H.
    injection H as H. exact H. }
  destruct (click_train_seeks env Hshots index w1)
    as (w2 & Hclick & _).
  rewrite (leading_moves_list env max_offset render Hlist Hstill Hmoved
             index Hmax) in Hclick.
  assert (Htop0 : offset_of max_offset
                    (hist (train_scroll_world env
                             (- Config.TRAIN_SCROLL_PER_BOX * 30) 1500 w1))
                  = 0).
  { unfold train_scroll_world. cbn [hist advance record offset_of].
    rewrite Htop1. unfold Config.TRAIN_SCROLL_PER_BOX. lia. }
  rewrite Htop0, Hk in Hclick.
  exists (Z.of_nat index - Z.of_nat (Nat.min index boxes)), w2.
  split; [exact Hclick|]. split; [lia|]. lia.
Qed.

Lemma count_then_click_witness :
  exists w1,
    ServiceLoop.count_trains TrainList.screen Scenes.start = Done 7%nat w1
    /\ forall index,
         (index < 7)%nat ->
         exists offset w2,
           Navigator.click_train TrainList.screen index w1
           = Done (Navigator.mkReport (Nat.min index 4) offset
                     (418 + 47 + offset * 94)) w2
           /\ 0 <= offset < 3.
Proof.
  destruct (count_then_click TrainList.screen 4 TrainList.render
              Scenes.start) as (w1 & Hcount & _ & Hclick).
  - reflexivity.
  - intros p q. apply render_shape.
  - intros p _. apply render_same.
  - apply render_moved.
  - reflexivity.
  - assert (Hvisible : ServiceLoop._count_visible_trains
                         (TrainList.render 0) = 3%nat)
      by (vm_compute; reflexivity).
    rewrite Hvisible in Hcount, Hclick.
    exists w1. split; [exact Hcount|].
    intros index Hindex.
    destruct (Hclick index) as (offset & w2 & H1 & _ & H2);
      [cbn [Nat.min Nat.add]; lia|].
    exists offset, w2. split; [exact H1 | lia].
Defined.

(** ** The exact cut of [crop_schedule] *)

(** X16.  [crop_schedule] cuts below the lowest content-block row that
    lies above the bottom row of the image; the bottom row itself is not
    looked at as a place to cut.  When no row above the bottom row is a
    content-block row, the full height is kept. *)
Theorem crop_schedule_last_box_above_bottom (img : image) :
  let h := img_h img in
  let out := ScheduleCapture.crop_schedule img in
  (img_h out = h
   /\ forall row, (S row < h)%nat -> box_row img row = false)
  \/ (exists row,
        img_h out = S row
        /\ (S row < h)%nat /\ box_row img row = true
        /\ forall r, (row < r)%nat -> (S r < h)%nat ->
                     box_row img r = false).
Proof.
  intros h out. unfold out. rewrite crop_schedule_height.
  exact (last_box_row_spec img).
Qed.

(** ** The screenshot of a service box *)
Section ServiceBox.
Import ServiceList.

Lemma min_by_spec {A : Type} (key : A -> Q) (l : list A) :
  forall best,
    In (min_by key best l) (best :: l)
    /\ forall x, In x (best :: l) ->
                 (key (min_by key best l) <= key x)%Q.
Proof.
  induction l as [|y l IH]; intros best; cbn [min_by].
  - split; [left; reflexivity|]. intros x [<-|[]]. apply Qle_refl.
  - destruct (Qltb (key y) (key best)) eqn:E.
    + destruct (IH y) as [Hin Hle]. split; [right; exact Hin|].
      intros x [<-|Hx]; [|exact (Hle x Hx)].
      apply Qltb_lt in E. apply Qle_trans with (key y).
      * apply Hle. left. reflexivity.
      * apply Qlt_le_weak. exact E.
    + destruct (IH best) as [Hin Hle]. split.
      * destruct Hin as [Hin|Hin]; [left; exact Hin | right; right; exact Hin].
      * intros x [<-|[<-|Hx]].
        -- apply Hle. left. reflexivity.
        -- apply Qltb_ge in E. apply Qle_trans with (key best); [|exact E].
           apply Hle. left. reflexivity.
        -- apply Hle. right. exact Hx.
Qed.

Lemma lookup_file_saved (path : string) (img : image)
    (fs : list (string * image)) :
  lookup_file path ((path, img) :: fs) = Some img.
Proof. cbn [lookup_file]. rewrite String.eqb_refl. reflexivity. Qed.

End ServiceBox.

(** X17.  [screenshot_service_box] grabs the region around [y_center] and
    writes one file, 1_service.png in [output_dir], without a mouse or
    keyboard action.  The saved image is the whole grab when no row has a
    border pixel in its first five columns.  Otherwise it is the rows of
    one maximal run of such rows, and no other run has its centre nearer
    to row 59 of the grab. *)
Theorem screenshot_service_box_crop (env : desktop)
    (path_join : string -> string -> string) (output_dir : string)
    (y_center : Z) (w : world) :
  let grab := screenshot_at env (service_grab_region y_center) (hist w)
                (clock w) in
  let flags := border_flags ServiceList.SERVICE_BOX_BORDER_RGB
                 ServiceList.SERVICE_BOX_COLOR_TOLERANCE 5 grab in
  let runs := ServiceLoop.scan_runs flags 0 false 0 [] in
  let path := path_join output_dir "1_service.png"%string in
  exists saved w',
    ServiceList.screenshot_service_box env path_join output_dir y_center w
    = Done path w'
    /\ files w' = (path, saved) :: files w
    /\ hist w' = hist w
    /\ ((saved = grab /\ forall x, nth x flags false = false)
        \/ (exists s e,
              saved = rows_slice s e grab
              /\ In (s, e) runs
              /\ (s < e <= img_h grab)%nat
              /\ img_h saved = (e - s)%nat
              /\ (forall x, (s <= x < e)%nat -> nth x flags false = true)
              /\ forall run, In run runs ->
                   (ServiceList.center_distance 59 (s, e)
                    <= ServiceList.center_distance 59 run)%Q)).
Proof.
  intros grab flags runs path.
  exists (ServiceList.crop_to_box grab),
    (mkWorld (clock w + call_ms env) (hist w)
       ((path, ServiceList.crop_to_box grab) :: files w)).
  split; [reflexivity|]. split; [reflexivity|].
  split; [reflexivity|].
  destruct (scan_runs_start flags) as (Hsep & Hbnd & Hin).
  fold runs in Hsep, Hbnd, Hin.
  pose proof (border_flags_length ServiceList.SERVICE_BOX_BORDER_RGB
                ServiceList.SERVICE_BOX_COLOR_TOLERANCE 5 grab) as Hlen.
  fold flags in Hlen. rewrite Hlen in Hbnd, Hin.
  assert (Hcrop : ServiceList.crop_to_box grab
                  = match runs with
                    | [] => grab
                    | first :: rest =>
                        let best_run :=
                          ServiceList.min_by
                            (ServiceList.center_distance 59) first rest in
                        rows_slice (fst best_run) (snd best_run) grab
                    end) by reflexivity.
  rewrite Hcrop. destruct runs as [|first rest] eqn:Eruns.
  - left. split; [reflexivity|]. intros x.
    destruct (nth x flags false) eqn:En; [|reflexivity].
    destruct (Nat.lt_ge_cases x (img_h grab)) as [Hx|Hx].
    + destruct (proj2 (Hin x) (conj Hx En)) as (s & e & [] & _).
    + rewrite nth_overflow in En by lia. discriminate.
  - right. cbv zeta.
    destruct (min_by_spec (ServiceList.center_distance 59) rest first)
      as [Hbest Hleast].
    destruct (ServiceList.min_by (ServiceList.center_distance 59) first rest)
      as [s e] eqn:Ebest.
    cbn [fst snd]. exists s, e.
    pose proof (separated_nonempty _ Hsep s e Hbest) as Hse.
    pose proof (Hbnd s e Hbest) as He.
    split; [reflexivity|]. split; [exact Hbest|]. split; [lia|]. split.
    + unfold img_h, rows_slice. cbn [img_rows]. apply slice_length.
      unfold img_h in He. exact He.
    + split; [|exact Hleast].
      intros x Hx. apply (Hin x). exists s, e. split; [exact Hbest | exact Hx].
Qed.

(** X18.  [_service_is_duplicate] never raises and changes nothing.  It
    answers [False] without a previous image and when 1_service.png has
    not been written.  Right after [screenshot_service_box] it reads back
    the image just saved, and answers [True] when the previous image is
    that same image, as long as it has a pixel. *)
Theorem service_is_duplicate_round_trip (env : desktop)
    (path_join : string -> string -> string) (service_dir : string)
    (y_center : Z) (w : world) :
  (forall prev w0, exists b,
     ServiceList._service_is_duplicate path_join service_dir prev w0
     = Done b w0)
  /\ (forall w0,
        ServiceList._service_is_duplicate path_join service_dir None w0
        = Done false w0)
  /\ (forall prev w0,
        ServiceList.lookup_file
          (path_join service_dir "1_service.png"%string) (files w0) = None ->
        ServiceList._service_is_duplicate path_join service_dir prev w0
        = Done false w0)
  /\ exists path saved w1,
       ServiceList.screenshot_service_box env path_join service_dir
         y_center w = Done path w1
       /\ ServiceList.read_file path w1 = Done (Some saved) w1
       /\ ((0 < img_h saved * img_w saved)%nat ->
           ServiceList._service_is_duplicate path_join service_dir
             (Some saved) w1 = Done true w1).
Proof.
  split; [|split; [|split]].
  - intros [prev|] w0; [|exists false; reflexivity].
    unfold ServiceList._service_is_duplicate, ServiceList.read_file.
    unfold bind at 1.
    destruct (ServiceList.lookup_file _ (files w0)) as [curr|];
      [|exists false; reflexivity].
    destruct (shape_eqb curr prev) eqn:E; cbn [negb];
      [|exists false; reflexivity].
    apply shape_eqb_eq in E.
    unfold bind, lift. rewrite (mean_abs_diff_same_shape _ _ E).
    eexists. reflexivity.
  - reflexivity.
  - intros [prev|] w0 Hnone; [|reflexivity].
    unfold ServiceList._service_is_duplicate, ServiceList.read_file.
    unfold bind at 1. rewrite Hnone. reflexivity.
  - set (grab := screenshot_at env (service_grab_region y_center) (hist w)
                   (clock w)).
    set (path := path_join service_dir "1_service.png"%string).
    exists path, (ServiceList.crop_to_box grab),
      (mkWorld (clock w + call_ms env) (hist w)
         ((path, ServiceList.crop_to_box grab) :: files w)).
    split; [reflexivity|].
    split.
    + unfold ServiceList.read_file. cbn [files].
      rewrite lookup_file_saved. reflexivity.
    + intros Hne.
      unfold ServiceList._service_is_duplicate, ServiceList.read_file.
      unfold bind at 1. cbn [files]. rewrite lookup_file_saved.
      match goal with
      | |- context [shape_eqb ?a ?a] =>
          assert (E : shape_eqb a a = true)
            by (apply shape_eqb_eq; reflexivity);
          rewrite E; cbn [negb];
          unfold bind, lift;
          rewrite (mean_abs_diff_same_shape a a eq_refl), absdiff_sum_diag;
          destruct (img_h a * img_w a * 3)%nat as [|n] eqn:En; [lia|]
      end.
      reflexivity.
Qed.
